(** * TestBookStore: the seeded book generator of [backend/src/server.ts]

    A shallow embedding of the class [BookDataGenerator] and of the
    [POST /api/books] handler, together with the properties of the
    generator that the specification of the repository states.

    Conventions of the embedding.
    - A JavaScript string is the list of its UTF-16 code units
      ([jsstring]); [length], [substring] and [charCodeAt] of the source
      are the list operations on it.
    - Integral numbers ([index], [seed], [page], counts, ratings) are in
      [Z]; fractional numbers (the targets, the uniform draws, the
      literals of the source) are rationals in [Q].  The numbers of the
      source are doubles: where the source adds, multiplies or divides,
      the embedding rounds the exact result to the nearest double
      ([roundInteger], [roundDouble]), which leaves integers of
      magnitude at most [2^53] as they are.
    - The random source ([@faker-js/faker]) and the built-ins of the
      platform (number printing, date formatting) are not code of the
      repository: they are parameters of the embedding ([Faker],
      [Platform]).  The generator is written as a program over the calls
      it makes to the random source ([prog]), and run against a source by
      explicit state passing ([run]). *)

From Stdlib Require Import ZArith QArith Qround Qminmax Qpower.
From Stdlib Require Import List String Ascii Bool.
From Stdlib Require Import Lia Lqa FinFun.
Import ListNotations.

Local Open Scope Z_scope.

(* ------------------------------------------------------------------ *)
(** ** JavaScript strings *)

Definition jsstring := list Z.

Definition bytes_of (s : string) : list Z :=
  map (fun a => Z.of_N (N_of_ascii a)) (list_ascii_of_string s).

(** Decoding of the UTF-8 bytes of a literal of the source file into
    UTF-16 code units (a code point above [0xFFFF] becomes a surrogate
    pair). *)
Fixpoint utf16_of_utf8 (bs : list Z) : jsstring :=
  match bs with
  | [] => []
  | b1 :: r1 =>
    if b1 <? 128 then b1 :: utf16_of_utf8 r1
    else if b1 <? 224 then
      match r1 with
      | b2 :: r2 =>
        Z.lor (Z.shiftl (Z.land b1 31) 6) (Z.land b2 63) :: utf16_of_utf8 r2
      | [] => [b1]
      end
    else if b1 <? 240 then
      match r1 with
      | b2 :: b3 :: r3 =>
        Z.lor (Z.shiftl (Z.land b1 15) 12)
              (Z.lor (Z.shiftl (Z.land b2 63) 6) (Z.land b3 63))
        :: utf16_of_utf8 r3
      | _ => [b1]
      end
    else
      match r1 with
      | b2 :: b3 :: b4 :: r4 =>
        let cp := Z.lor (Z.shiftl (Z.land b1 7) 18)
                  (Z.lor (Z.shiftl (Z.land b2 63) 12)
                  (Z.lor (Z.shiftl (Z.land b3 63) 6) (Z.land b4 63))) in
        let c := cp - 65536 in
        (55296 + Z.shiftr c 10) :: (56320 + Z.land c 1023) :: utf16_of_utf8 r4
      | _ => [b1]
      end
  end.

(** [js "..."] is the JavaScript string written by that literal. *)
Definition js (s : string) : jsstring := utf16_of_utf8 (bytes_of s).

Definition jseqb (a b : jsstring) : bool :=
  if list_eq_dec Z.eq_dec a b then true else false.

(** [s.length] and [s.substring(0, n)]. *)
Definition jslength (s : jsstring) : Z := Z.of_nat (List.length s).
Definition substring0 (n : nat) (s : jsstring) : jsstring := firstn n s.

(* ------------------------------------------------------------------ *)
(** ** 32-bit integer operators *)

(** [ToInt32]: the value modulo [2^32] read as a signed 32-bit integer. *)
Definition toInt32 (z : Z) : Z := (z + 2147483648) mod 4294967296 - 2147483648.

(** [a << n] and [a & b]. *)
Definition shl32 (a n : Z) : Z := toInt32 (Z.shiftl (toInt32 a) n).
Definition and32 (a b : Z) : Z := Z.land (toInt32 a) (toInt32 b).

(* ------------------------------------------------------------------ *)
(** ** Numbers

    A number of the source is a double: a sign, 53 significant bits and
    a binary exponent.  The result of an arithmetic operator is the exact
    result rounded to the nearest double, a tie going to the even
    significand.  Only the range of the normal numbers is modelled: no
    value of the program comes near its ends. *)

Definition pow2 (e : Z) : Q := (2 ^ e)%Q.

(** The nearest integer, a tie going to the even one. *)
Definition roundHalfEven (x : Q) : Z :=
  let f := Qfloor x in
  match (x - inject_Z f ?= 1 # 2)%Q with
  | Lt => f
  | Gt => f + 1
  | Eq => if Z.even f then f else f + 1
  end.

(** The binary exponent [e] of a positive rational: [2^e <= q < 2^(e+1)]. *)
Definition exponentOf (q : Q) : Z :=
  let k := Z.log2 (Qnum q) - Z.log2 (Z.pos (Qden q)) in
  if Qle_bool (pow2 k) q then k else k - 1.

(** The nearest number with 53 significant bits, for a positive
    rational. *)
Definition roundPositive (q : Q) : Q :=
  let e := exponentOf q - 52 in
  (inject_Z (roundHalfEven (q / pow2 e)) * pow2 e)%Q.

(** The double nearest to a rational: the value of a decimal literal and
    of the result of an operator. *)
Definition roundDouble (q : Q) : Q :=
  match (q ?= 0)%Q with
  | Eq => 0%Q
  | Gt => roundPositive q
  | Lt => (- roundPositive (- q))%Q
  end.

(** The double nearest to an integer; it is an integer. *)
Definition roundInteger (z : Z) : Z := Qfloor (roundDouble (inject_Z z)).

(** [a + b], [a - b] and [a * b] on integral numbers. *)
Definition numAdd (a b : Z) : Z := roundInteger (a + b).
Definition numSub (a b : Z) : Z := roundInteger (a - b).
Definition numMul (a b : Z) : Z := roundInteger (a * b).

(** The largest magnitude below which every integer is a double. *)
Definition maxExact : Z := 9007199254740992.

(* ------------------------------------------------------------------ *)
(** ** The platform *)

(** The built-ins the generator calls.  [toLocaleDateString] throws a
    [RangeError] on a locale argument that is not a well-formed language
    tag: it is partial. *)
Record Platform : Type := {
  numberToString : Q -> jsstring;          (* `${x}` for a number x *)
  toUpperCase : jsstring -> jsstring;
  getFullYear : Z -> Z;                    (* of a date, in epoch ms *)
  toLocaleDateString : jsstring -> Z -> option jsstring;
  toISOString : Z -> jsstring;
}.

(* ------------------------------------------------------------------ *)
(** ** Parameters of a generator and their fingerprint *)

Record BookDataGenerator : Type := {
  locale : jsstring;
  baseSeed : Z;
  avgLikes : Q;
  avgReviews : Q;
}.

Section Fingerprint.
Variable P : Platform.

(** The interpolated string [`${locale}-${avgLikes}-${avgReviews}`]. *)
Definition paramString (g : BookDataGenerator) : jsstring :=
  locale g ++ js "-" ++ numberToString P (avgLikes g)
           ++ js "-" ++ numberToString P (avgReviews g).

(** One turn of the loop of [hashParameters]:
    [hash = ((hash << 5) - hash) + char; hash = hash & hash]. *)
Definition hashStep (hash char : Z) : Z :=
  let hash := (shl32 hash 5 - hash) + char in
  and32 hash hash.

Definition hashString (str : jsstring) : Z := fold_left hashStep str 0.

Definition hashParameters (g : BookDataGenerator) : Z :=
  Z.abs (hashString (paramString g)).

(** [uniqueSeed] of [setSeedForIndex]:
    [const paramHash = this.hashParameters();
     const uniqueSeed = this.baseSeed + paramHash + index]. *)
Definition uniqueSeed (g : BookDataGenerator) (index : Z) : Z :=
  let paramHash := hashParameters g in
  numAdd (numAdd (baseSeed g) paramHash) index.
End Fingerprint.


(* ------------------------------------------------------------------ *)
(** ** The random source *)

(** The calls the generator makes to the random source, each with the
    type of what it returns.  [ArrayElementIndex n] is the position that
    [faker.helpers.arrayElement] picks in an array of length [n], and
    [WeightedIndex ws] the position that
    [faker.helpers.weightedArrayElement] picks in an array whose weights
    are [ws]. *)
Inductive call : Type -> Type :=
| NumberFloat (min max : Q) : call Q
| NumberInt (min max : Z) : call Z
| ArrayElementIndex (len : nat) : call nat
| WeightedIndex (weights : list Z) : call nat
| WordAdjective : call jsstring
| WordNoun : call jsstring
| PersonFullName : call jsstring
| CompanyName : call jsstring
| InternetUsername : call jsstring
| DateBetween (from to : jsstring) : call Z.

(** A random source: a stream state, the state that [faker.seed(n)]
    installs (it depends on [n] alone), and the answer of every call
    together with the state it leaves. *)
Record Faker : Type := {
  rng : Type;
  seed : Z -> rng;
  draw : forall X : Type, call X -> rng -> X * rng;
}.

Arguments draw _ {X} _ _.

(** What the library promises about the values it returns. *)
Record FakerOk (F : Faker) : Prop := {
  float_range : forall min max s,
    (min < max)%Q ->
    (min <= fst (draw F (NumberFloat min max) s))%Q /\
    (fst (draw F (NumberFloat min max) s) < max)%Q;
  int_range : forall min max s,
    min <= max ->
    min <= fst (draw F (NumberInt min max) s) <= max;
  element_range : forall len s,
    (0 < len)%nat -> (fst (draw F (ArrayElementIndex len) s) < len)%nat;
  weighted_range : forall ws s,
    ws <> [] -> (fst (draw F (WeightedIndex ws) s) < List.length ws)%nat;
}.

(* ------------------------------------------------------------------ *)
(** ** Programs over the random source *)

Inductive exn : Type := TypeError | RangeError | FakerError.

Inductive outcome (A : Type) : Type :=
| Ok (a : A)
| Thrown (e : exn).

Arguments Ok {A} a.
Arguments Thrown {A} e.

Inductive prog (A : Type) : Type :=
| Ret (a : A)
| Throw (e : exn)
| Reseed (n : Z) (k : prog A)
| Call {X : Type} (c : call X) (k : X -> prog A).

Arguments Ret {A} a.
Arguments Throw {A} e.
Arguments Reseed {A} n k.
Arguments Call {A X} c k.

Fixpoint bind {A B : Type} (m : prog A) (f : A -> prog B) : prog B :=
  match m with
  | Ret a => f a
  | Throw e => Throw e
  | Reseed n k => Reseed n (bind k f)
  | Call c k => Call c (fun x => bind (k x) f)
  end.

Notation "x <- m ;; k" := (bind m (fun x => k))
  (at level 61, m at next level, right associativity).
Notation "m ;;; k" := (bind m (fun _ => k))
  (at level 61, right associativity).

Definition perform {X : Type} (c : call X) : prog X := Call c Ret.

(** [for (let i = 0; i < n; i++) out.push(body)]. *)
Fixpoint repeatM {A : Type} (n : nat) (body : prog A) : prog (list A) :=
  match n with
  | O => Ret []
  | S n' => x <- body ;; xs <- repeatM n' body ;; Ret (x :: xs)
  end.

Definition forLoop {A : Type} (n : Z) (body : prog A) : prog (list A) :=
  repeatM (Z.to_nat n) body.

(** Running a program from a state of the random source. *)
Fixpoint run (F : Faker) {A : Type} (m : prog A) (s : rng F)
  : outcome A * rng F :=
  match m with
  | Ret a => (Ok a, s)
  | Throw e => (Thrown e, s)
  | Reseed n k => run F k (seed F n)
  | Call c k => let (x, s') := draw F c s in run F (k x) s'
  end.

(** The number of calls to the random source that a run makes. *)
Fixpoint draws (F : Faker) {A : Type} (m : prog A) (s : rng F) : nat :=
  match m with
  | Ret _ => O
  | Throw _ => O
  | Reseed n k => draws F k (seed F n)
  | Call c k => let (x, s') := draw F c s in S (draws F (k x) s')
  end.

(** [faker.helpers.arrayElement(array)]; the library throws on an empty
    array. *)
Definition arrayElement {A : Type} (array : list A) : prog A :=
  i <- perform (ArrayElementIndex (List.length array)) ;;
  match nth_error array i with
  | Some x => Ret x
  | None => Throw FakerError
  end.

(** [faker.helpers.weightedArrayElement(array)] on [{weight, value}]
    entries. *)
Definition weightedArrayElement {A : Type} (array : list (Z * A)) : prog A :=
  i <- perform (WeightedIndex (map fst array)) ;;
  match nth_error array i with
  | Some wv => Ret (snd wv)
  | None => Throw FakerError
  end.

(* ------------------------------------------------------------------ *)
(** ** Property lookup in an object literal *)

(** The members that every object literal inherits from
    [Object.prototype], each with its own [length] property: the number
    of parameters of a function, and [undefined] for [__proto__], which
    is the prototype object itself. *)
Definition objectPrototypeMembers : list (jsstring * option Z) :=
  [ (js "constructor", Some 1);
    (js "__defineGetter__", Some 2);
    (js "__defineSetter__", Some 2);
    (js "hasOwnProperty", Some 1);
    (js "__lookupGetter__", Some 1);
    (js "__lookupSetter__", Some 1);
    (js "isPrototypeOf", Some 1);
    (js "propertyIsEnumerable", Some 1);
    (js "toString", Some 0);
    (js "valueOf", Some 0);
    (js "__proto__", None);
    (js "toLocaleString", Some 0) ].


(** [obj[key]]: an own property, a member of [Object.prototype] (truthy,
    and not one of the tables of the literal; only its [length] is kept),
    or [undefined]. *)
Inductive property (A : Type) : Type :=
| Own (a : A)
| Inherited (length : option Z)
| Undefined.

Arguments Own {A} a.
Arguments Inherited {A} length.
Arguments Undefined {A}.

Definition getProperty {A : Type} (obj : list (jsstring * A)) (key : jsstring)
  : property A :=
  match find (fun kv => jseqb (fst kv) key) obj with
  | Some kv => Own (snd kv)
  | None =>
    match find (fun kl => jseqb (fst kl) key) objectPrototypeMembers with
    | Some kl => Inherited (snd kl)
    | None => Undefined
    end
  end.

(** [obj[key] || fallback] where a table is expected: the table, or the
    [length] of the inherited member, which [||] keeps. *)
Definition orElse {A : Type} (p : property A) (fallback : A)
  : A + option Z :=
  match p with
  | Own a => inl a
  | Inherited length => inr length
  | Undefined => inl fallback
  end.

(** [faker.helpers.arrayElement] on an inherited member in place of an
    array: the library throws when [length] is 0, draws a position when
    it is above 1, and returns the element at the position, which is
    [undefined]. *)
Definition arrayElementOfMember (length : option Z) : prog unit :=
  match length with
  | Some l =>
    if l =? 0 then Throw FakerError
    else if 1 <? l then perform (NumberInt 0 (l - 1)) ;;; Ret tt
    else Ret tt
  | None => Ret tt
  end.

(* ------------------------------------------------------------------ *)
(** ** Comparisons of numbers *)

Definition Qlt_bool (a b : Q) : bool := negb (Qle_bool b a).

(* ------------------------------------------------------------------ *)
(** ** The review corpus *)

Inductive sentiment : Type := Positive | Neutral | Negative.

Record LocaleReviews : Type := {
  positive_reviews : list jsstring;
  neutral_reviews : list jsstring;
  negative_reviews : list jsstring;
}.

(** [localeReviews[sentiment]]. *)
Definition bySentiment (r : LocaleReviews) (s : sentiment) : list jsstring :=
  match s with
  | Positive => positive_reviews r
  | Neutral => neutral_reviews r
  | Negative => negative_reviews r
  end.

Definition en_positive : list jsstring :=
  map js [
    "An absolutely captivating read that kept me turning pages late into the night.";
    "The character development is exceptional and the plot twists are brilliant.";
    "A masterpiece of modern literature that will stay with you long after reading.";
    "Compelling narrative with rich character development and unexpected turns.";
    "This book changed my perspective on life in the most beautiful way.";
    "Couldn't put it down! The pacing is perfect and the ending is satisfying.";
    "Outstanding work! The author's writing style is both engaging and profound.";
    "One of the best books I've read this year. Highly recommended!"
  ]%string.

Definition en_neutral : list jsstring :=
  map js [
    "A decent read with some interesting ideas and solid writing.";
    "The book has its moments but feels a bit predictable at times.";
    "Well-written overall, though some parts could have been tighter.";
    "An okay story that kept me engaged enough to finish it.";
    "Good character development, but the plot felt somewhat familiar.";
    "The writing is competent and the story is adequately told."
  ]%string.

Definition en_negative : list jsstring :=
  map js [
    "Disappointing. The story felt rushed and characters were underdeveloped.";
    "I struggled to get through this book. The pacing was very slow.";
    "Not what I expected. The plot had potential but poor execution.";
    "The writing style didn't work for me and I found it hard to connect.";
    "Confusing storyline and characters that I couldn't relate to.";
    "Had high hopes but this book fell short of expectations."
  ]%string.

Definition de_positive : list jsstring :=
  map js [
    "Ein fesselndes Buch, das mich bis spät in die Nacht wach gehalten hat.";
    "Die Charakterentwicklung ist außergewöhnlich und die Wendungen brillant.";
    "Ein Meisterwerk der modernen Literatur, das lange nachwirkt.";
    "Hervorragende Erzählung mit reicher Charakterentwicklung."
  ]%string.

Definition de_neutral : list jsstring :=
  map js [
    "Ein ordentliches Buch mit interessanten Ideen und solider Schreibweise.";
    "Das Buch hat seine Momente, wirkt aber manchmal etwas vorhersagbar.";
    "Gut geschrieben insgesamt, auch wenn einige Teile straffer hätten sein können."
  ]%string.

Definition de_negative : list jsstring :=
  map js [
    "Enttäuschend. Die Geschichte wirkte gehetzt und die Charaktere unterentwickelt.";
    "Ich hatte Mühe, durch dieses Buch zu kommen. Das Tempo war sehr langsam.";
    "Nicht das, was ich erwartet hatte. Schlechte Umsetzung trotz Potenzial."
  ]%string.

Definition ja_positive : list jsstring :=
  map js [
    "夜遅くまでページをめくり続けた、絶対に魅力的な読み物。";
    "キャラクター開発は例外的で、プロットのひねりは素晴らしい。";
    "読んだ後も長く心に残る現代文学の傑作。"
  ]%string.

Definition ja_neutral : list jsstring :=
  map js [
    "興味深いアイデアと堅実な文章でまともな読み物。";
    "この本にはいい瞬間もあるが、時々予測可能に感じる。"
  ]%string.

Definition ja_negative : list jsstring :=
  map js [
    "がっかりした。ストーリーが急いでいて、キャラクターが未発達。";
    "この本を読み終えるのに苦労した。ペースが非常に遅い。"
  ]%string.

Definition reviews_enUS : LocaleReviews :=
  {| positive_reviews := en_positive;
     neutral_reviews := en_neutral;
     negative_reviews := en_negative |}.

Definition reviews_deDE : LocaleReviews :=
  {| positive_reviews := de_positive;
     neutral_reviews := de_neutral;
     negative_reviews := de_negative |}.

Definition reviews_jaJP : LocaleReviews :=
  {| positive_reviews := ja_positive;
     neutral_reviews := ja_neutral;
     negative_reviews := ja_negative |}.

(** The object literal [reviews] of [generateReviewText]. *)
Definition reviewsTable : list (jsstring * LocaleReviews) :=
  [ (js "en-US", reviews_enUS);
    (js "de-DE", reviews_deDE);
    (js "ja-JP", reviews_jaJP) ].

(* ------------------------------------------------------------------ *)
(** ** Records of the response *)

Record Review : Type := {
  reviewer : jsstring;
  rating : Z;
  text : jsstring;
  date : jsstring;
}.

Record CoverImage : Type := {
  imageUrl : jsstring;
  cover_title : jsstring;
  cover_author : jsstring;
}.

Record Book : Type := {
  index : Z;
  isbn : jsstring;
  title : jsstring;
  authors : list jsstring;
  publisher : jsstring;
  year : Z;
  likes : Z;
  reviews : list Review;
  coverImage : CoverImage;
}.

(* ------------------------------------------------------------------ *)
(** ** The methods of [BookDataGenerator] *)

(** [generateExactCount(targetValue)]. *)
Definition generateExactCount (targetValue : Q) : prog Z :=
  if Qeq_bool targetValue 0 then Ret 0
  else
    let integerPart := Qfloor targetValue in
    let fractionalPart := (targetValue - inject_Z integerPart)%Q in
    if Qlt_bool 0 fractionalPart then
      random <- perform (NumberFloat 0 1) ;;
      Ret (if Qlt_bool random fractionalPart
           then integerPart + 1 else integerPart)
    else Ret integerPart.

(** The number that a decimal literal of the source denotes. *)
Definition literal (q : Q) : Q := roundDouble q.

(** [determineReviewSentiment(bookLikes)]; [likeRatio] is
    [Math.min(bookLikes / 10, 1)]. *)
Definition determineReviewSentiment (bookLikes : Z) : prog sentiment :=
  let likeRatio := Qmin (roundDouble (inject_Z bookLikes / 10)) 1 in
  random <- perform (NumberFloat 0 1) ;;
  if Qlt_bool (literal (7 # 10)) likeRatio then
    if Qlt_bool random (literal (8 # 10)) then Ret Positive
    else if Qlt_bool random (literal (95 # 100)) then Ret Neutral
    else Ret Negative
  else if Qlt_bool (literal (4 # 10)) likeRatio then
    if Qlt_bool random (literal (5 # 10)) then Ret Positive
    else if Qlt_bool random (literal (85 # 100)) then Ret Neutral
    else Ret Negative
  else
    if Qlt_bool random (literal (2 # 10)) then Ret Positive
    else if Qlt_bool random (literal (6 # 10)) then Ret Neutral
    else Ret Negative.

(** The [{weight, value}] arrays of [generateRatingFromSentiment]. *)
Definition ratingWeights (s : sentiment) : list (Z * Z) :=
  match s with
  | Positive => [(60, 5); (30, 4); (10, 3)]
  | Neutral => [(50, 3); (25, 4); (25, 2)]
  | Negative => [(50, 1); (30, 2); (20, 3)]
  end.

Definition generateRatingFromSentiment (s : sentiment) : prog Z :=
  weightedArrayElement (ratingWeights s).

Section Generator.

Variable P : Platform.

Definition numToStr (z : Z) : jsstring := numberToString P (inject_Z z).

(** [capitalizeFirst(str)]. *)
Definition capitalizeFirst (str : jsstring) : jsstring :=
  match str with
  | [] => str
  | c :: rest => toUpperCase P [c] ++ rest
  end.

Definition adjective : prog jsstring :=
  w <- perform WordAdjective ;; Ret (capitalizeFirst w).

Definition noun : prog jsstring :=
  w <- perform WordNoun ;; Ret (capitalizeFirst w).

(** The template closures of [generateBookTitle]; the slots of a
    template literal are filled from left to right. *)
Definition templates_enUS : list (prog jsstring) :=
  [ (a <- adjective ;; n <- noun ;; Ret (js "The " ++ a ++ js " " ++ n));
    (a <- adjective ;; n <- noun ;; Ret (a ++ js " " ++ n));
    (a <- adjective ;; n <- noun ;; Ret (js "A " ++ a ++ js " " ++ n));
    (n <- noun ;; m <- noun ;; Ret (n ++ js " of " ++ m));
    (n <- noun ;; m <- noun ;; Ret (js "The " ++ n ++ js "'s " ++ m)) ].

Definition templates_deDE : list (prog jsstring) :=
  [ (a <- adjective ;; n <- noun ;; Ret (js "Der " ++ a ++ js " " ++ n));
    (a <- adjective ;; n <- noun ;; Ret (js "Die " ++ a ++ js "e " ++ n));
    (a <- adjective ;; n <- noun ;; Ret (js "Das " ++ a ++ js "e " ++ n));
    (n <- noun ;; m <- noun ;; Ret (js "Im " ++ n ++ js " der " ++ m)) ].

Definition templates_jaJP : list (prog jsstring) :=
  [ (n <- noun ;; a <- adjective ;; Ret (n ++ js "の" ++ a));
    (a <- adjective ;; n <- noun ;; Ret (a ++ js "な" ++ n));
    (n <- noun ;; m <- noun ;; Ret (n ++ js "と" ++ m)) ].

Definition titleTemplates : list (jsstring * list (prog jsstring)) :=
  [ (js "en-US", templates_enUS);
    (js "de-DE", templates_deDE);
    (js "ja-JP", templates_jaJP) ].

Variable this : BookDataGenerator.

(** [setSeedForIndex(index)]. *)
Definition setSeedForIndex (index : Z) : prog unit :=
  Reseed (uniqueSeed P this index) (Ret tt).

(** [generateISBN()]. *)
Definition generateISBN : prog jsstring :=
  prefix <- arrayElement [js "978"; js "979"] ;;
  group <- perform (NumberInt 0 9) ;;
  publisher <- perform (NumberInt 10 999) ;;
  title <- perform (NumberInt 10 999) ;;
  checkDigit <- perform (NumberInt 0 9) ;;
  Ret (prefix ++ js "-" ++ numToStr group ++ js "-" ++ numToStr publisher
       ++ js "-" ++ numToStr title ++ js "-" ++ numToStr checkDigit).

(** [generateReviewText(sentiment)].  On a locale that names a member of
    [Object.prototype] the lookup yields that member, [||] keeps it, it
    has no property named after a sentiment, and [arrayElement] of
    [undefined] throws. *)
Definition generateReviewText (s : sentiment) : prog jsstring :=
  match orElse (getProperty reviewsTable (locale this)) reviews_enUS with
  | inl localeReviews => arrayElement (bySentiment localeReviews s)
  | inr _ => Throw TypeError
  end.

(** [generateBookTitle()].  On a locale that names a member of
    [Object.prototype], [||] keeps that member; it holds no template, so
    that [template] is [undefined] (unless the library rejects the
    argument) and the call [template()] throws. *)
Definition generateBookTitle : prog jsstring :=
  match orElse (getProperty titleTemplates (locale this)) templates_enUS with
  | inl templates => template <- arrayElement templates ;; template
  | inr length => arrayElementOfMember length ;;; Throw TypeError
  end.

(** [(this.baseSeed + this.hashParameters() + index) % 1000]: [%] is the
    remainder of the division that truncates toward zero, and it is
    exact. *)
Definition imageId (index : Z) : Z :=
  Z.rem (numAdd (numAdd (baseSeed this) (hashParameters P this)) index) 1000.

(** [generateCoverImage(title, author, index)]; [author] is [authors[0]],
    which is [undefined] on an empty array, and [author.length] throws
    then. *)
Definition generateCoverImage (title : jsstring) (author : option jsstring)
  (index : Z) : prog CoverImage :=
  let width := 400 in
  let height := 600 in
  let imageUrl := js "https://picsum.photos/seed/" ++ numToStr (imageId index)
                  ++ js "/" ++ numToStr width ++ js "/" ++ numToStr height in
  match author with
  | None => Throw TypeError
  | Some author =>
    Ret {| imageUrl := imageUrl;
           cover_title := if 25 <? jslength title
                          then substring0 25 title ++ js "..." else title;
           cover_author := if 20 <? jslength author
                           then substring0 20 author ++ js "..." else author |}
  end.

(** The body of the review loop of [generateBook]. *)
Definition generateReview (likes : Z) : prog Review :=
  sentiment <- determineReviewSentiment likes ;;
  rating <- generateRatingFromSentiment sentiment ;;
  reviewText <- generateReviewText sentiment ;;
  reviewer <- perform InternetUsername ;;
  d <- perform (DateBetween (js "2020-01-01") (js "2024-12-31")) ;;
  match toLocaleDateString P (locale this) d with
  | None => Throw RangeError
  | Some date =>
    Ret {| reviewer := reviewer; rating := rating;
           text := reviewText; date := date |}
  end.

(** The body of the author loop: the three branches of the [switch] on
    the locale make the same call. *)
Definition generateAuthor : prog jsstring :=
  if jseqb (locale this) (js "de-DE") then perform PersonFullName
  else if jseqb (locale this) (js "ja-JP") then perform PersonFullName
  else perform PersonFullName.

Definition publisherTypes : list jsstring :=
  [js "Press"; js "Publishing"; js "Books"; js "Media"; js "House"].

(** [generateBook(index)]. *)
Definition generateBook (index : Z) : prog Book :=
  setSeedForIndex index ;;;
  title <- generateBookTitle ;;
  numAuthors <- perform (NumberInt 1 3) ;;
  authors <- forLoop numAuthors generateAuthor ;;
  company <- perform CompanyName ;;
  publisherType <- arrayElement publisherTypes ;;
  let publisher := company ++ js " " ++ publisherType in
  born <- perform (DateBetween (js "1945-01-01") (js "2025-08-04")) ;;
  let year := getFullYear P born in
  likes <- generateExactCount (avgLikes this) ;;
  numReviews <- generateExactCount (avgReviews this) ;;
  reviews <- forLoop numReviews (generateReview likes) ;;
  isbn <- generateISBN ;;
  coverImage <- generateCoverImage title (nth_error authors 0) index ;;
  Ret {| index := index; isbn := isbn; title := title; authors := authors;
         publisher := publisher; year := year; likes := likes;
         reviews := reviews; coverImage := coverImage |}.

End Generator.

(* ------------------------------------------------------------------ *)
(** ** The handler of [POST /api/books] *)

(** The parsed body of a request: a field that is absent is [None]. *)
Record RequestBody : Type := {
  body_page : option Q;
  body_locale : option jsstring;
  body_seed : option Q;
  body_avgLikes : option Q;
  body_avgReviews : option Q;
}.

(** The validated value, [BookRequest]. *)
Record BookRequest : Type := {
  page : Z;
  req_locale : jsstring;
  req_seed : Z;
  req_avgLikes : Q;
  req_avgReviews : Q;
}.

Definition supportedLocales : list jsstring :=
  [js "en-US"; js "de-DE"; js "ja-JP"].

(** [Joi.number().integer()]: an integer, and a safe one. *)
Definition isInteger (q : Q) : bool :=
  Qeq_bool q (inject_Z (Qfloor q)) &&
  (Z.abs (Qfloor q) <=? 9007199254740991).

Definition inRange (lo hi q : Q) : bool := Qle_bool lo q && Qle_bool q hi.

(** [bookRequestSchema.validate(req.body)]: the value, or [None] when
    there is an [error]. *)
Definition validate (b : RequestBody) : option BookRequest :=
  match body_page b, body_seed b, body_avgLikes b, body_avgReviews b with
  | Some p, Some sd, Some al, Some ar =>
    let loc := match body_locale b with
               | Some l => l
               | None => js "en-US"
               end in
    if isInteger p && Qle_bool 0 p
       && existsb (jseqb loc) supportedLocales
       && isInteger sd
       && inRange 0 10 al
       && inRange 0 20 ar
    then Some {| page := Qfloor p; req_locale := loc; req_seed := Qfloor sd;
                 req_avgLikes := al; req_avgReviews := ar |}
    else None
  | _, _, _, _ => None
  end.

Record Metadata : Type := {
  meta_locale : jsstring;
  meta_seed : Z;
  meta_avgLikes : Q;
  meta_avgReviews : Q;
  generatedAt : jsstring;
}.

Inductive Response : Type :=
| Status400
| Json (books : list Book) (page : Z) (hasMore : bool) (metadata : Metadata)
| Status500.

(** [for (let i = 0; i < count; i++) out.push(body(i))], from [i]. *)
Fixpoint forFrom {A : Type} (count : nat) (i : Z) (body : Z -> prog A)
  : prog (list A) :=
  match count with
  | O => Ret []
  | S n => x <- body i ;; xs <- forFrom n (i + 1) body ;; Ret (x :: xs)
  end.

Definition pageCount (page : Z) : Z := if page =? 0 then 20 else 10.

(** [page === 0 ? 1 : 20 + (page - 1) * 10 + 1]. *)
Definition startIndex (page : Z) : Z :=
  if page =? 0 then 1
  else numAdd (numAdd 20 (numMul (numSub page 1) 10)) 1.

Definition generatorOf (r : BookRequest) : BookDataGenerator :=
  {| locale := req_locale r; baseSeed := req_seed r;
     avgLikes := req_avgLikes r; avgReviews := req_avgReviews r |}.

(** The loop of the handler. *)
Definition generatePage (P : Platform) (r : BookRequest) : prog (list Book) :=
  let generator := generatorOf r in
  let count := pageCount (page r) in
  let startIndex := startIndex (page r) in
  forFrom (Z.to_nat count) 0
          (fun i => generateBook P generator (numAdd startIndex i)).

(** The handler, at a time [now] and from a state of the random source;
    an exception of the generation is caught and answered by a 500. *)
Definition apiBooks (F : Faker) (P : Platform) (now : Z) (b : RequestBody)
  (s : rng F) : Response * rng F :=
  match validate b with
  | None => (Status400, s)
  | Some value =>
    match run F (generatePage P value) s with
    | (Ok books, s') =>
      (Json books (page value) (page value <? 50)
            {| meta_locale := req_locale value; meta_seed := req_seed value;
               meta_avgLikes := req_avgLikes value;
               meta_avgReviews := req_avgReviews value;
               generatedAt := toISOString P now |}, s')
    | (Thrown _, s') => (Status500, s')
    end
  end.

(** The handler on [req.body] as [express.json()] leaves it: [None] is
    [undefined], the body of a request that carries no JSON.  The schema
    is an object schema that is not required: it accepts [undefined],
    with [undefined] for value, and the destructuring of that value
    throws a [TypeError], which the [catch] answers by a 500. *)
Definition postApiBooks (F : Faker) (P : Platform) (now : Z)
  (body : option RequestBody) (s : rng F) : Response * rng F :=
  match body with
  | None => (Status500, s)
  | Some b => apiBooks F P now b s
  end.

(* ------------------------------------------------------------------ *)
(** ** A reference random source and a reference platform

    Instances on which the generator can be evaluated: a linear
    congruential source, and a platform that prints integers and short
    decimals the way JavaScript does. *)

Definition lcgNext (s : Z) : Z := (1103515245 * s + 12345) mod 2147483648.

Fixpoint pickWeighted (ws : list Z) (r : Z) : nat :=
  match ws with
  | [] => O
  | w :: rest =>
    if r <? w then O
    else match rest with
         | [] => O
         | _ :: _ => S (pickWeighted rest (r - w))
         end
  end.

Definition total (ws : list Z) : Z := fold_right Z.add 0 ws.

Definition sampleWords : list jsstring :=
  [js "quiet"; js "river"; js "amber"; js "garden"; js "hollow"].

Definition lcgDraw (X : Type) (c : call X) (s : Z) : X * Z :=
  let s' := lcgNext s in
  match c in call T return T * Z with
  | NumberFloat min max =>
    ((min + (max - min) * (inject_Z s' / inject_Z 2147483648))%Q, s')
  | NumberInt min max =>
    (if max <? min then min else min + s' mod (max - min + 1), s')
  | ArrayElementIndex len => (Z.to_nat (s' mod Z.of_nat len), s')
  | WeightedIndex ws => (pickWeighted ws (s' mod total ws), s')
  | WordAdjective | WordNoun | PersonFullName | CompanyName
  | InternetUsername =>
    (nth (Z.to_nat (s' mod 5)) sampleWords [], s')
  | DateBetween _ _ => (s' * 1000, s')
  end.

Definition refFaker : Faker :=
  {| rng := Z; seed := fun n => n mod 2147483648; draw := lcgDraw |}.

Fixpoint digitsOf (fuel : nat) (n : Z) (acc : jsstring) : jsstring :=
  match fuel with
  | O => acc
  | S fuel' =>
    if n <? 10 then (48 + n) :: acc
    else digitsOf fuel' (n / 10) ((48 + n mod 10) :: acc)
  end.

Definition printNat (n : Z) : jsstring := digitsOf 400 n [].

Fixpoint fractionDigits (fuel : nat) (r d : Z) : jsstring :=
  match fuel with
  | O => []
  | S fuel' =>
    if r =? 0 then []
    else (48 + (r * 10) / d) :: fractionDigits fuel' ((r * 10) mod d) d
  end.

Definition printNumber (q : Q) : jsstring :=
  let n := Z.abs (Qnum q) in
  let d := Z.pos (Qden q) in
  (if Qnum q <? 0 then [45] else [])
  ++ printNat (n / d)
  ++ (if n mod d =? 0 then [] else 46 :: fractionDigits 17 (n mod d) d).

Definition upperUnit (c : Z) : Z :=
  if (97 <=? c) && (c <=? 122) then c - 32 else c.

Definition isAlnum (c : Z) : bool :=
  ((48 <=? c) && (c <=? 57)) || ((65 <=? c) && (c <=? 90))
  || ((97 <=? c) && (c <=? 122)).

(** A language tag is accepted when it is made of subtags of one to eight
    letters or digits separated by hyphens. *)
Fixpoint wellFormedTag (run : nat) (tag : jsstring) : bool :=
  match tag with
  | [] => (0 <? run)%nat
  | c :: rest =>
    if c =? 45 then (0 <? run)%nat && wellFormedTag 0 rest
    else isAlnum c && (run <? 8)%nat && wellFormedTag (S run) rest
  end.

Definition refPlatform : Platform :=
  {| numberToString := printNumber;
     toUpperCase := map upperUnit;
     getFullYear := fun ms => 1970 + ms / 31556952000;
     toLocaleDateString := fun loc ms =>
       if wellFormedTag 0 loc then Some (printNat (ms / 86400000)) else None;
     toISOString := printNat |}.

Definition demo : BookDataGenerator :=
  {| locale := js "en-US"; baseSeed := 12345;
     avgLikes := 5; avgReviews := 47 # 10 |}.

(* ------------------------------------------------------------------ *)
(** ** Notions used to state the properties *)

(** What the platform promises: the date formatter accepts the three
    locales of the schema. *)
Definition PlatformOk (P : Platform) : Prop :=
  forall loc d, In loc supportedLocales -> toLocaleDateString P loc d <> None.

(** [sat F m Q E]: from every state of the source, [m] either returns a
    value in [Q] or throws an exception in [E]. *)
Definition sat (F : Faker) {A : Type} (m : prog A) (Q : A -> Prop)
  (E : exn -> Prop) : Prop :=
  forall s, match fst (run F m s) with
            | Ok a => Q a
            | Thrown e => E e
            end.

Definition noThrow : exn -> Prop := fun _ => False.
Definition anyThrow : exn -> Prop := fun _ => True.

(** The state of the random source after a sequence of calls of
    [generateBook], by any generators, whatever their outcome. *)
Definition stateAfter (F : Faker) (P : Platform)
  (prior : list (BookDataGenerator * Z)) (s : rng F) : rng F :=
  fold_left (fun st gi => snd (run F (generateBook P (fst gi) (snd gi)) st))
            prior s.

(** Two parameter tuples that differ in exactly one component. *)
Definition differInExactlyOne (g g' : BookDataGenerator) : Prop :=
  (locale g <> locale g' /\ baseSeed g = baseSeed g'
   /\ avgLikes g = avgLikes g' /\ avgReviews g = avgReviews g')
  \/ (locale g = locale g' /\ baseSeed g <> baseSeed g'
      /\ avgLikes g = avgLikes g' /\ avgReviews g = avgReviews g')
  \/ (locale g = locale g' /\ baseSeed g = baseSeed g'
      /\ avgLikes g <> avgLikes g' /\ avgReviews g = avgReviews g')
  \/ (locale g = locale g' /\ baseSeed g = baseSeed g'
      /\ avgLikes g = avgLikes g' /\ avgReviews g <> avgReviews g').

(** A source that answers every uniform draw by [u]: it gives the result
    of a program as a function of its draw. *)
Definition oracleDraw (u : Q) (X : Type) (c : call X) (s : unit) : X * unit :=
  match c in call T return T * unit with
  | NumberFloat _ _ => (u, s)
  | NumberInt min _ => (min, s)
  | ArrayElementIndex _ => (O, s)
  | WeightedIndex _ => (O, s)
  | WordAdjective | WordNoun | PersonFullName | CompanyName
  | InternetUsername => ([], s)
  | DateBetween _ _ => (0, s)
  end.

Definition oracle (u : Q) : Faker :=
  {| rng := unit; seed := fun _ => tt; draw := oracleDraw u |}.

Definition valueOr {A : Type} (d : A) (o : outcome A) : A :=
  match o with
  | Ok a => a
  | Thrown _ => d
  end.

(** The count that [generateExactCount] returns when its draw is [u]. *)
Definition exactCountAt (target u : Q) : Z :=
  valueOr 0 (fst (run (oracle u) (generateExactCount target) tt)).

(** The sum of [f] over the first [k] points of the grid
    [0/N, 1/N, ..., (N-1)/N], and its mean over the whole grid: the
    expectation of [f u] for [u] uniform on the grid. *)
Fixpoint sumOverGrid (N : Z) (k : nat) (f : Q -> Z) : Z :=
  match k with
  | O => 0
  | S k' => sumOverGrid N k' f + f (inject_Z (Z.of_nat k') / inject_Z N)%Q
  end.

Definition meanOverGrid (N : Z) (f : Q -> Z) : Q :=
  (inject_Z (sumOverGrid N (Z.to_nat N) f) / inject_Z N)%Q.

(** *** The sentiment model in the words of the specification *)

(** The numbers of the model are those of the program: the quotient is
    the double nearest to [score/10], and a decimal is the double that
    it denotes. *)
Definition popularityRatio (score : Z) : Q :=
  Qmin (roundDouble (inject_Z score / 10)) 1.

Inductive band : Type := High | Middle | Low.

(** [r > 0.7], [0.4 < r <= 0.7], [r <= 0.4]. *)
Definition inBand (r : Q) (b : band) : Prop :=
  match b with
  | High => (literal (7 # 10) < r)%Q
  | Middle => (literal (4 # 10) < r)%Q /\ (r <= literal (7 # 10))%Q
  | Low => (r <= literal (4 # 10))%Q
  end.

(** The cumulative thresholds of a band, for positive, neutral and
    negative in that order. *)
Definition cumulativeThresholds (b : band) : list (Q * sentiment) :=
  match b with
  | High => [(literal (8 # 10), Positive); (literal (95 # 100), Neutral);
             (1%Q, Negative)]
  | Middle => [(literal (5 # 10), Positive); (literal (85 # 100), Neutral);
               (1%Q, Negative)]
  | Low => [(literal (2 # 10), Positive); (literal (6 # 10), Neutral);
            (1%Q, Negative)]
  end.

(** The decimals that [determineReviewSentiment] writes. *)
Definition sentimentLiterals : list Q :=
  [7 # 10; 4 # 10; 8 # 10; 95 # 100; 5 # 10; 85 # 100; 2 # 10; 6 # 10].

(** The first entry whose threshold the draw is below. *)
Fixpoint cumulativePick {A : Type} (part : list (Q * A)) (u : Q) : option A :=
  match part with
  | [] => None
  | (t, a) :: rest => if Qlt_bool u t then Some a else cumulativePick rest u
  end.

(** The rating distribution of a sentiment: rating and probability. *)
Definition ratingDistribution (s : sentiment) : list (Z * Q) :=
  match s with
  | Positive => [(5, 60 # 100); (4, 30 # 100); (3, 10 # 100)]
  | Neutral => [(3, 50 # 100); (4, 25 # 100); (2, 25 # 100)]
  | Negative => [(1, 50 # 100); (2, 30 # 100); (3, 20 # 100)]
  end.

(** The share of the total weight that each value of a weighted array
    has. *)
Definition shares (array : list (Z * Z)) : list (Z * Q) :=
  map (fun wv => (snd wv, inject_Z (fst wv) / inject_Z (total (map fst array)))%Q)
      array.

Definition sameDistribution (a b : list (Z * Q)) : Prop :=
  Forall2 (fun x y => fst x = fst y /\ (snd x == snd y)%Q) a b.

(** *** The corpus a locale resolves to *)

(** The locale whose tables serve a locale string: itself when it is one
    of the three of the tables, the default otherwise. *)
Definition corpusOf (loc : jsstring) : LocaleReviews :=
  if jseqb (js "en-US") loc then reviews_enUS
  else if jseqb (js "de-DE") loc then reviews_deDE
  else if jseqb (js "ja-JP") loc then reviews_jaJP
  else reviews_enUS.

(** A review whose rating and text come from one sentiment: the rating is
    a value of the rating table of the sentiment, and the text is in the
    corpus of the locale for that sentiment and in the corpus of no other
    sentiment. *)
Definition jointlySampled (loc : jsstring) (r : Review) : Prop :=
  exists s : sentiment,
    In (rating r) (map snd (ratingWeights s))
    /\ In (text r) (bySentiment (corpusOf loc) s)
    /\ forall s', s' <> s -> ~ In (text r) (bySentiment (corpusOf loc) s').

(** A review sampled from a state of the random source, in the words of
    the specification: one uniform draw selects one sentiment, in the
    band of the popularity ratio of the record; the next draw picks the
    rating in the table of that sentiment, and the next the text in the
    corpus of the locale for that same sentiment, and in the corpus of
    no other; the name and the date follow.  [st'] is the state after
    the five draws. *)
Definition sampledReview (F : Faker) (loc : jsstring) (likes : Z)
  (st : rng F) (r : Review) (st' : rng F) : Prop :=
  exists (b : band) (sen : sentiment),
    let u := fst (draw F (NumberFloat 0 1) st) in
    let st1 := snd (draw F (NumberFloat 0 1) st) in
    let ratingCall := WeightedIndex (map fst (ratingWeights sen)) in
    let st2 := snd (draw F ratingCall st1) in
    let corpus := bySentiment (corpusOf loc) sen in
    let textCall := ArrayElementIndex (List.length corpus) in
    let st3 := snd (draw F textCall st2) in
    let st4 := snd (draw F InternetUsername st3) in
    inBand (popularityRatio likes) b
    /\ cumulativePick (cumulativeThresholds b) u = Some sen
    /\ nth_error (map snd (ratingWeights sen)) (fst (draw F ratingCall st1))
       = Some (rating r)
    /\ nth_error corpus (fst (draw F textCall st2)) = Some (text r)
    /\ (forall sen', sen' <> sen ->
          ~ In (text r) (bySentiment (corpusOf loc) sen'))
    /\ reviewer r = fst (draw F InternetUsername st3)
    /\ st' = snd (draw F (DateBetween (js "2020-01-01") (js "2024-12-31")) st4).

(** The elements of a list produced one after the other, each from the
    state that the previous one left. *)
Inductive threaded {S A : Type} (step : S -> A -> S -> Prop)
  : S -> list A -> S -> Prop :=
| threaded_nil (s : S) : threaded step s [] s
| threaded_cons (s s1 s2 : S) (a : A) (l : list A) :
    step s a s1 -> threaded step s1 l s2 -> threaded step s (a :: l) s2.

Definition disjointb (a b : list jsstring) : bool :=
  forallb (fun x => negb (existsb (jseqb x) b)) a.

Definition sentimentsDisjoint (r : LocaleReviews) : bool :=
  disjointb (positive_reviews r) (neutral_reviews r)
  && disjointb (positive_reviews r) (negative_reviews r)
  && disjointb (neutral_reviews r) (negative_reviews r).

(** *** Pages *)

(** The last page whose indices are all at most [2^53]: up to it the
    arithmetic of the handler on the page number is exact. *)
Definition maxExactPage : Z := 900719925474097.

(** [20 + (page - 1) * 10 + 1] in exact arithmetic. *)
Definition firstIndexOf (page : Z) : Z :=
  if page =? 0 then 1 else 20 + (page - 1) * 10 + 1.

(** The indices of the records of a page, as the loop of the handler
    computes them. *)
Definition pageIndices (page : Z) : list Z :=
  map (fun k => numAdd (startIndex page) (Z.of_nat k))
      (seq 0 (Z.to_nat (pageCount page))).

(** The indices [1, 2, ..., n]. *)
Definition indicesUpTo (n : nat) : list Z := map Z.of_nat (seq 1 n).

Definition booksOf (r : Response) : list Book :=
  match r with
  | Json books _ _ _ => books
  | _ => []
  end.

Definition hasMoreOf (r : Response) : option bool :=
  match r with
  | Json _ _ hasMore _ => Some hasMore
  | _ => None
  end.

(** A body that passes the schema, for a page and a parameter tuple. *)
Definition bodyOf (n : Z) (loc : option jsstring) (sd : Z) (al ar : Q)
  : RequestBody :=
  {| body_page := Some (inject_Z n); body_locale := loc;
     body_seed := Some (inject_Z sd);
     body_avgLikes := Some al; body_avgReviews := Some ar |}.

(** *** Labels of the cover *)

(** The label of a string for a limit: the string when it has at most
    [limit] characters, its first [limit] characters followed by an
    ellipsis otherwise. *)
Definition truncatedLabel (limit : nat) (s : jsstring) : jsstring :=
  if (List.length s <=? limit)%nat then s else firstn limit s ++ js "...".

(** The indices at which the sum [baseSeed + fingerprint + index] of a
    generator is exact: the fingerprint is at most [2^31]. *)
Definition exactRange (g : BookDataGenerator) (index : Z) : Prop :=
  Z.abs (baseSeed g) + 2147483648 + Z.abs index <= maxExact.

Definition seedOnly (g : BookDataGenerator) (sd : Z) : BookDataGenerator :=
  {| locale := locale g; baseSeed := sd;
     avgLikes := avgLikes g; avgReviews := avgReviews g |}.

Definition localeOnly (g : BookDataGenerator) (loc : jsstring)
  : BookDataGenerator :=
  {| locale := loc; baseSeed := baseSeed g;
     avgLikes := avgLikes g; avgReviews := avgReviews g |}.

(** The descriptor that the specification gives for a title, a first
    author and an identifier. *)
Definition coverDescriptor (P : Platform) (id : Z) (title author : jsstring)
  : CoverImage :=
  {| imageUrl := js "https://picsum.photos/seed/"
                 ++ numberToString P (inject_Z id) ++ js "/"
                 ++ numberToString P (inject_Z 400) ++ js "/"
                 ++ numberToString P (inject_Z 600);
     cover_title := truncatedLabel 25 title;
     cover_author := truncatedLabel 20 author |}.

Definition negativeSeed : BookDataGenerator :=
  {| locale := js "en-US"; baseSeed := -3000000000;
     avgLikes := 5; avgReviews := 47 # 10 |}.


Definition underscoreLocale : BookDataGenerator :=
  {| locale := js "en_US"; baseSeed := 42;
     avgLikes := 5; avgReviews := 47 # 10 |}.

(** *** Notions used for the further properties *)

(** The polynomial of multiplier 31 that [hashParameters] computes before
    it wraps to 32 bits. *)
Definition polyHash (str : jsstring) : Z :=
  fold_left (fun h c => 31 * h + c) str 0.

(** A record with another index. *)
Definition withIndex (i : Z) (b : Book) : Book :=
  {| index := i; isbn := isbn b; title := title b; authors := authors b;
     publisher := publisher b; year := year b; likes := likes b;
     reviews := reviews b; coverImage := coverImage b |}.

Definition mapOutcome {A B : Type} (f : A -> B) (o : outcome A) : outcome B :=
  match o with
  | Ok a => Ok (f a)
  | Thrown e => Thrown e
  end.

Definition mapRun {A B S : Type} (f : A -> B) (r : outcome A * S)
  : outcome B * S :=
  (mapOutcome f (fst r), snd r).

(** How favourable a sentiment is. *)
Definition sentimentRank (s : sentiment) : Z :=
  match s with
  | Negative => 0
  | Neutral => 1
  | Positive => 2
  end.

(** The sentiment of [determineReviewSentiment] for a count of likes and
    a draw, with the bands read on the count. *)
Definition sentimentOfCount (likes : Z) (u : Q) : sentiment :=
  if 8 <=? likes then
    if Qlt_bool u (literal (8 # 10)) then Positive
    else if Qlt_bool u (literal (95 # 100)) then Neutral else Negative
  else if 5 <=? likes then
    if Qlt_bool u (literal (5 # 10)) then Positive
    else if Qlt_bool u (literal (85 # 100)) then Neutral else Negative
  else
    if Qlt_bool u (literal (2 # 10)) then Positive
    else if Qlt_bool u (literal (6 # 10)) then Neutral else Negative.

(** The shape of an identifier of [generateISBN]. *)
Definition isbnShape (P : Platform) (s : jsstring) : Prop :=
  exists prefix group publisher title checkDigit,
    (prefix = js "978" \/ prefix = js "979")
    /\ 0 <= group <= 9 /\ 10 <= publisher <= 999
    /\ 10 <= title <= 999 /\ 0 <= checkDigit <= 9
    /\ s = prefix ++ js "-" ++ numberToString P (inject_Z group)
           ++ js "-" ++ numberToString P (inject_Z publisher)
           ++ js "-" ++ numberToString P (inject_Z title)
           ++ js "-" ++ numberToString P (inject_Z checkDigit).

(** The body that carries a validated request back. *)
Definition bodyOfRequest (v : BookRequest) : RequestBody :=
  {| body_page := Some (inject_Z (page v));
     body_locale := Some (req_locale v);
     body_seed := Some (inject_Z (req_seed v));
     body_avgLikes := Some (req_avgLikes v);
     body_avgReviews := Some (req_avgReviews v) |}.

(** A count that [generateExactCount] may return for a target: the floor
    or the floor plus one, and the floor when the target is integral. *)
Definition countFor (target : Q) (r : Z) : Prop :=
  Qfloor target <= r <= Qfloor target + 1
  /\ ((target - inject_Z (Qfloor target) == 0)%Q -> r = Qfloor target).

(* ------------------------------------------------------------------ *)
(** ** The client application

    The state that the component [AppContent] keeps and the functions
    that update it.  A [Set] of numbers is the list of its elements in
    the order of their insertion, without repetition. *)

Definition NumberSet := list Z.

(** [s.has(x)], [s.add(x)] and [s.delete(x)]. *)
Definition set_has (s : NumberSet) (x : Z) : bool := existsb (Z.eqb x) s.

Definition set_add (s : NumberSet) (x : Z) : NumberSet :=
  if set_has s x then s else s ++ [x].

Definition set_delete (s : NumberSet) (x : Z) : NumberSet :=
  filter (fun y => negb (y =? x)) s.

(** [handleExpandRow(index)]: the new value of [expandedRows]. *)
Definition handleExpandRow (expandedRows : NumberSet) (index : Z) : NumberSet :=
  let newExpanded := expandedRows in
  if set_has newExpanded index
  then set_delete newExpanded index
  else set_add newExpanded index.

(** [value.includes(c)] for a character [c]. *)
Definition includes (value : jsstring) (c : Z) : bool :=
  existsb (Z.eqb c) value.

(** The replacement of every double quote (code unit 34) by two. *)
Definition doubleQuotes (value : jsstring) : jsstring :=
  flat_map (fun c => if c =? 34 then [34; 34] else [c]) value.

(** The rendering of a string value in a row of [exportToCSV]: quoted,
    with its quotes doubled, when it holds a comma (44), a double quote
    (34) or a line feed (10). *)
Definition csvField (value : jsstring) : jsstring :=
  if includes value 44 || includes value 34 || includes value 10
  then [34] ++ doubleQuotes value ++ [34]
  else value.










(** The parameters of the form that the schema accepts. *)
Definition validParameters (g : BookDataGenerator) : Prop :=
  In (locale g) supportedLocales
  /\ Z.abs (baseSeed g) <= 9007199254740991
  /\ (0 <= avgLikes g)%Q /\ (avgLikes g <= 10)%Q
  /\ (0 <= avgReviews g)%Q /\ (avgReviews g <= 20)%Q.

(** [Math.round(x)]: the nearest integer, a half rounding up. *)
Definition mathRound (x : Q) : Z := Qfloor (x + (1 # 2)).

(** [generateRandomSeed], for the value [u] of [Math.random()]:
    [Math.floor(u * 100000000)], the product being a double. *)
Definition generateRandomSeed (u : Q) : Z :=
  Qfloor (roundDouble (u * 100000000)).

(** [Math.round(u * n) / 10], the product and the quotient being
    doubles. *)
Definition randomTenths (u : Q) (n : Z) : Q :=
  roundDouble (inject_Z (mathRound (roundDouble (u * inject_Z n))) / 10).

(** The parameters of the form at the first render, for the three values
    of [Math.random()] that the initial states draw. *)
Definition initialParameters (u1 u2 u3 : Q) : BookDataGenerator :=
  {| locale := js "en-US";
     baseSeed := Qfloor (roundDouble (u1 * 100000000));
     avgLikes := randomTenths u2 100;
     avgReviews := randomTenths u3 50 |}.

(** The largest double below 1: no value of [Math.random()] is above
    it. *)
Definition belowOne : Q := (1 - pow2 (-53))%Q.

(* ================================================================== *)
(** * Properties *)

(** ** Rounding to the nearest double *)

Ltac compare_cases :=
  repeat match goal with
  | H : (_ ?= _)%Q = Eq |- _ => apply Qeq_alt in H
  | H : (_ ?= _)%Q = Lt |- _ => apply Qlt_alt in H
  | H : (_ ?= _)%Q = Gt |- _ => apply Qgt_alt in H
  end.

Lemma pow2_pos (e : Z) : (0 < pow2 e)%Q.
Proof. apply Qpower_0_lt. reflexivity. Qed.

Lemma pow2_nonzero (e : Z) : ~ (pow2 e == 0)%Q.
Proof. intros H. pose proof (pow2_pos e) as Hp. rewrite H in Hp. exact (Qlt_irrefl 0 Hp). Qed.

Lemma pow2_add (a b : Z) : (pow2 (a + b) == pow2 a * pow2 b)%Q.
Proof. apply Qpower_plus. discriminate. Qed.

Lemma pow2_succ (a : Z) : (pow2 (a + 1) == 2 * pow2 a)%Q.
Proof. rewrite pow2_add. unfold pow2 at 2. rewrite Qpower_1_r. ring. Qed.

Lemma pow2_le (a b : Z) : a <= b -> (pow2 a <= pow2 b)%Q.
Proof. intros H. apply Qpower_le_compat_l; [exact H|discriminate]. Qed.

Lemma pow2_lt (a b : Z) : a < b -> (pow2 a < pow2 b)%Q.
Proof. intros H. apply Qpower_lt_compat_l; [exact H|reflexivity]. Qed.

Lemma pow2_inject (a : Z) : 0 <= a -> (pow2 a == inject_Z (2 ^ a))%Q.
Proof. intros H. unfold pow2. now rewrite Zpower_Qpower. Qed.

Lemma Qmake_mult (a : Z) (b : positive) :
  ((a # b) * inject_Z (Z.pos b) == inject_Z a)%Q.
Proof.
  unfold Qeq, Qmult, inject_Z. simpl. lia.
Qed.

Lemma exponentOf_spec (q : Q) :
  (0 < q)%Q ->
  (pow2 (exponentOf q) <= q)%Q /\ (q < pow2 (exponentOf q + 1))%Q.
Proof.
  intros Hq. destruct q as [a b].
  assert (Ha : 0 < a).
  { unfold Qlt in Hq. simpl in Hq. lia. }
  unfold exponentOf. cbn [Qnum Qden].
  set (la := Z.log2 a). set (lb := Z.log2 (Z.pos b)).
  destruct (Z.log2_spec a Ha) as [Ha1 Ha2]. fold la in Ha1, Ha2.
  destruct (Z.log2_spec (Z.pos b) ltac:(lia)) as [Hb1 Hb2]. fold lb in Hb1, Hb2.
  assert (Hla : 0 <= la) by apply Z.log2_nonneg.
  assert (Hlb : 0 <= lb) by apply Z.log2_nonneg.
  pose proof (Qmake_mult a b) as Hab.
  set (q := a # b) in *.
  assert (HA : (pow2 la <= inject_Z a)%Q).
  { rewrite pow2_inject by lia. now rewrite <- Zle_Qle. }
  assert (HA' : (inject_Z a < 2 * pow2 la)%Q).
  { rewrite <- pow2_succ, pow2_inject by lia. rewrite <- Zlt_Qlt.
    replace (la + 1) with (Z.succ la) by lia. exact Ha2. }
  assert (HB : (pow2 lb <= inject_Z (Z.pos b))%Q).
  { rewrite pow2_inject by lia. now rewrite <- Zle_Qle. }
  assert (HB' : (inject_Z (Z.pos b) < 2 * pow2 lb)%Q).
  { rewrite <- pow2_succ, pow2_inject by lia. rewrite <- Zlt_Qlt.
    replace (lb + 1) with (Z.succ lb) by lia. exact Hb2. }
  assert (Hk : (pow2 (la - lb) * pow2 lb == pow2 la)%Q).
  { rewrite <- pow2_add. replace (la - lb + lb) with la by lia. reflexivity. }
  pose proof (pow2_pos la) as PA. pose proof (pow2_pos lb) as PB.
  pose proof (pow2_pos (la - lb)) as PK.
  set (A := pow2 la) in *. set (B := pow2 lb) in *.
  set (K := pow2 (la - lb)) in *.
  set (bq := inject_Z (Z.pos b)) in *. set (aq := inject_Z a) in *.
  destruct (Qle_bool K q) eqn:E.
  - apply Qle_bool_iff in E. split; [exact E|].
    rewrite pow2_succ. fold K.
    apply Qnot_le_lt. intros Hle. nra.
  - assert (E' : (q < K)%Q).
    { apply Qnot_le_lt. intros Hle. apply Qle_bool_iff in Hle. congruence. }
    replace (la - lb - 1 + 1) with (la - lb) by lia. fold K.
    split; [|exact E'].
    assert (Hh : (2 * pow2 (la - lb - 1) == K)%Q).
    { rewrite <- pow2_succ. replace (la - lb - 1 + 1) with (la - lb) by lia.
      reflexivity. }
    pose proof (pow2_pos (la - lb - 1)) as PH.
    set (H2 := pow2 (la - lb - 1)) in *.
    apply Qnot_lt_le. intros Hlt. nra.
Qed.

Lemma exponentOf_unique (q : Q) (E : Z) :
  (pow2 E <= q)%Q -> (q < pow2 (E + 1))%Q -> exponentOf q = E.
Proof.
  intros H1 H2.
  assert (Hq : (0 < q)%Q).
  { eapply Qlt_le_trans; [apply (pow2_pos E)|exact H1]. }
  destruct (exponentOf_spec q Hq) as [H3 H4].
  destruct (Z.lt_trichotomy (exponentOf q) E) as [L | [L | L]]; [|exact L|].
  - exfalso. pose proof (pow2_le (exponentOf q + 1) E ltac:(lia)) as P.
    apply (Qlt_irrefl q). eapply Qlt_le_trans; [exact H4|].
    eapply Qle_trans; [exact P|exact H1].
  - exfalso. pose proof (pow2_le (E + 1) (exponentOf q) ltac:(lia)) as P.
    apply (Qlt_irrefl q). eapply Qlt_le_trans; [exact H2|].
    eapply Qle_trans; [exact P|exact H3].
Qed.

Lemma exponentOf_monotone (x y : Q) :
  (0 < x)%Q -> (x <= y)%Q -> exponentOf x <= exponentOf y.
Proof.
  intros Hx Hxy.
  assert (Hy : (0 < y)%Q) by (eapply Qlt_le_trans; eassumption).
  destruct (exponentOf_spec x Hx) as [X1 X2].
  destruct (exponentOf_spec y Hy) as [Y1 Y2].
  destruct (Z_le_gt_dec (exponentOf x) (exponentOf y)) as [L | L]; [exact L|].
  exfalso. pose proof (pow2_le (exponentOf y + 1) (exponentOf x) ltac:(lia)) as P.
  apply (Qlt_irrefl y). eapply Qlt_le_trans; [exact Y2|].
  eapply Qle_trans; [exact P|]. eapply Qle_trans; [exact X1|exact Hxy].
Qed.

Lemma roundHalfEven_bounds (x : Q) :
  Qfloor x <= roundHalfEven x <= Qfloor x + 1.
Proof.
  unfold roundHalfEven.
  destruct (x - inject_Z (Qfloor x) ?= 1 # 2)%Q; [destruct (Z.even (Qfloor x))| |]; lia.
Qed.

Lemma roundHalfEven_monotone (x y : Q) :
  (x <= y)%Q -> roundHalfEven x <= roundHalfEven y.
Proof.
  intros Hxy. pose proof (Qfloor_resp_le x y Hxy) as Hf.
  pose proof (roundHalfEven_bounds x) as Bx.
  pose proof (roundHalfEven_bounds y) as By.
  destruct (Z.eq_dec (Qfloor x) (Qfloor y)) as [E | N]; [|lia].
  unfold roundHalfEven in *. rewrite <- E in *.
  set (f := Qfloor x) in *.
  destruct (x - inject_Z f ?= 1 # 2)%Q eqn:Cx;
    destruct (y - inject_Z f ?= 1 # 2)%Q eqn:Cy;
    try (destruct (Z.even f)); try lia; exfalso; compare_cases; lra.
Qed.

Lemma roundHalfEven_comp (x y : Q) : (x == y)%Q -> roundHalfEven x = roundHalfEven y.
Proof.
  intros H. apply Z.le_antisymm; apply roundHalfEven_monotone; rewrite H; apply Qle_refl.
Qed.

Lemma roundHalfEven_integer (n : Z) : roundHalfEven (inject_Z n) = n.
Proof.
  unfold roundHalfEven. rewrite Qfloor_Z.
  destruct (inject_Z n - inject_Z n ?= 1 # 2)%Q eqn:C; [| reflexivity |];
    exfalso; compare_cases; lra.
Qed.

Lemma roundPositive_range (q : Q) :
  (0 < q)%Q ->
  (pow2 (exponentOf q) <= roundPositive q)%Q /\
  (roundPositive q <= pow2 (exponentOf q + 1))%Q.
Proof.
  intros Hq. destruct (exponentOf_spec q Hq) as [H1 H2].
  unfold roundPositive. set (E := exponentOf q) in *.
  pose proof (pow2_pos (E - 52)) as Pe.
  assert (HE : (pow2 E == pow2 52 * pow2 (E - 52))%Q).
  { rewrite <- pow2_add. replace (52 + (E - 52)) with E by lia. reflexivity. }
  assert (HE1 : (pow2 (E + 1) == pow2 53 * pow2 (E - 52))%Q).
  { rewrite <- pow2_add. replace (53 + (E - 52)) with (E + 1) by lia. reflexivity. }
  assert (L : (inject_Z (2 ^ 52) <= q / pow2 (E - 52))%Q).
  { apply Qle_shift_div_l; [exact Pe|]. rewrite <- pow2_inject by lia.
    rewrite <- HE. exact H1. }
  assert (U : (q / pow2 (E - 52) <= inject_Z (2 ^ 53))%Q).
  { apply Qle_shift_div_r; [exact Pe|]. rewrite <- pow2_inject by lia.
    rewrite <- HE1. apply Qlt_le_weak. exact H2. }
  apply roundHalfEven_monotone in L. apply roundHalfEven_monotone in U.
  rewrite roundHalfEven_integer in L, U.
  rewrite Zle_Qle in L, U. rewrite <- pow2_inject in L, U by lia.
  split.
  - rewrite HE. apply Qmult_le_compat_r; [exact L|apply Qlt_le_weak; exact Pe].
  - rewrite HE1. apply Qmult_le_compat_r; [exact U|apply Qlt_le_weak; exact Pe].
Qed.

Lemma roundPositive_pos (q : Q) : (0 < q)%Q -> (0 < roundPositive q)%Q.
Proof.
  intros Hq. destruct (roundPositive_range q Hq) as [H _].
  eapply Qlt_le_trans; [apply pow2_pos|exact H].
Qed.

Lemma roundPositive_monotone (x y : Q) :
  (0 < x)%Q -> (x <= y)%Q -> (roundPositive x <= roundPositive y)%Q.
Proof.
  intros Hx Hxy.
  assert (Hy : (0 < y)%Q) by (eapply Qlt_le_trans; eassumption).
  pose proof (exponentOf_monotone x y Hx Hxy) as HE.
  destruct (Z.eq_dec (exponentOf x) (exponentOf y)) as [E | N].
  - unfold roundPositive. rewrite E.
    pose proof (pow2_pos (exponentOf y - 52)) as Pe.
    apply Qmult_le_compat_r; [|apply Qlt_le_weak; exact Pe].
    rewrite <- Zle_Qle. apply roundHalfEven_monotone.
    apply Qmult_le_compat_r; [exact Hxy|].
    apply Qlt_le_weak, Qinv_lt_0_compat. exact Pe.
  - destruct (roundPositive_range x Hx) as [_ U].
    destruct (roundPositive_range y Hy) as [L _].
    eapply Qle_trans; [exact U|]. eapply Qle_trans; [|exact L].
    apply pow2_le. lia.
Qed.

Lemma roundDouble_monotone (x y : Q) :
  (x <= y)%Q -> (roundDouble x <= roundDouble y)%Q.
Proof.
  intros Hxy. unfold roundDouble.
  destruct (x ?= 0)%Q eqn:Cx; destruct (y ?= 0)%Q eqn:Cy;
    compare_cases; try (exfalso; lra).
  - apply Qle_refl.
  - apply Qlt_le_weak, roundPositive_pos. exact Cy.
  - pose proof (roundPositive_pos (- x) ltac:(lra)). lra.
  - pose proof (roundPositive_monotone (- y) (- x) ltac:(lra) ltac:(lra)). lra.
  - pose proof (roundPositive_pos (- x) ltac:(lra)).
    pose proof (roundPositive_pos y Cy). lra.
  - apply roundPositive_monotone; assumption.
Qed.

Lemma roundDouble_comp (x y : Q) : (x == y)%Q -> (roundDouble x == roundDouble y)%Q.
Proof.
  intros H. apply Qle_antisym; apply roundDouble_monotone; rewrite H; apply Qle_refl.
Qed.

Lemma roundPositive_representable (q : Q) (m e : Z) :
  2 ^ 52 <= m < 2 ^ 53 -> (q == inject_Z m * pow2 e)%Q -> (roundPositive q == q)%Q.
Proof.
  intros Hm Hq.
  pose proof (pow2_pos e) as Pe.
  assert (HE : exponentOf q = e + 52).
  { apply exponentOf_unique.
    - rewrite Hq. replace (e + 52) with (52 + e) by lia. rewrite pow2_add.
      apply Qmult_le_compat_r; [|apply Qlt_le_weak; exact Pe].
      rewrite pow2_inject by lia. rewrite <- Zle_Qle. lia.
    - rewrite Hq. replace (e + 52 + 1) with (53 + e) by lia. rewrite pow2_add.
      apply Qmult_lt_compat_r; [exact Pe|].
      rewrite pow2_inject by lia. rewrite <- Zlt_Qlt. lia. }
  unfold roundPositive. rewrite HE. replace (e + 52 - 52) with e by lia.
  rewrite (roundHalfEven_comp (q / pow2 e) (inject_Z m)).
  - rewrite roundHalfEven_integer. symmetry. exact Hq.
  - rewrite Hq. field. apply pow2_nonzero.
Qed.

Lemma roundPositive_small_integer (z : Z) :
  0 < z <= 2 ^ 53 -> (roundPositive (inject_Z z) == inject_Z z)%Q.
Proof.
  intros Hz.
  destruct (Z.eq_dec z (2 ^ 53)) as [-> | N].
  - apply (roundPositive_representable _ (2 ^ 52) 1); [lia|].
    vm_compute. reflexivity.
  - destruct (Z.log2_spec z ltac:(lia)) as [L1 L2].
    assert (Hl : 0 <= Z.log2 z) by apply Z.log2_nonneg.
    assert (Hl' : Z.log2 z < 53).
    { apply Z.log2_lt_pow2; lia. }
    set (l := Z.log2 z) in *.
    apply (roundPositive_representable _ (z * 2 ^ (52 - l)) (l - 52)).
    + replace (2 ^ 52) with (2 ^ l * 2 ^ (52 - l)).
      2:{ rewrite <- Z.pow_add_r by lia. f_equal. lia. }
      replace (2 ^ 53) with (2 ^ Z.succ l * 2 ^ (52 - l)).
      2:{ rewrite <- Z.pow_add_r by lia. f_equal. lia. }
      assert (0 < 2 ^ (52 - l)) by (apply Z.pow_pos_nonneg; lia).
      split; [apply Z.mul_le_mono_nonneg_r; lia|apply Z.mul_lt_mono_pos_r; lia].
    + rewrite inject_Z_mult, <- (pow2_inject (52 - l)) by lia.
      rewrite <- Qmult_assoc, <- pow2_add.
      replace (52 - l + (l - 52)) with 0 by lia.
      change (pow2 0) with 1%Q. ring.
Qed.

Lemma roundInteger_exact (z : Z) :
  Z.abs z <= 2 ^ 53 -> roundInteger z = z.
Proof.
  intros Hz. unfold roundInteger.
  assert (H : (roundDouble (inject_Z z) == inject_Z z)%Q).
  { unfold roundDouble.
    destruct (inject_Z z ?= 0)%Q eqn:C.
    - compare_cases. symmetry. exact C.
    - compare_cases. change 0%Q with (inject_Z 0) in C. rewrite <- Zlt_Qlt in C.
      rewrite <- inject_Z_opp. rewrite roundPositive_small_integer by lia.
      rewrite inject_Z_opp. ring.
    - compare_cases. change 0%Q with (inject_Z 0) in C. rewrite <- Zlt_Qlt in C.
      apply roundPositive_small_integer. lia. }
  rewrite (Qfloor_comp _ _ H). apply Qfloor_Z.
Qed.

Lemma numAdd_exact (a b : Z) : Z.abs (a + b) <= maxExact -> numAdd a b = a + b.
Proof. apply roundInteger_exact. Qed.

Lemma numSub_exact (a b : Z) : Z.abs (a - b) <= maxExact -> numSub a b = a - b.
Proof. apply roundInteger_exact. Qed.

Lemma numMul_exact (a b : Z) : Z.abs (a * b) <= maxExact -> numMul a b = a * b.
Proof. apply roundInteger_exact. Qed.

(** ** Strings and comparisons *)

Lemma jseqb_eq (a b : jsstring) : jseqb a b = true <-> a = b.
Proof.
  unfold jseqb. destruct (list_eq_dec Z.eq_dec a b); split; congruence.
Qed.

Lemma jseqb_refl (a : jsstring) : jseqb a a = true.
Proof. now apply jseqb_eq. Qed.

Lemma Qlt_bool_iff (a b : Q) : Qlt_bool a b = true <-> (a < b)%Q.
Proof.
  unfold Qlt_bool. rewrite negb_true_iff. split.
  - intros H. apply Qnot_le_lt. intros Hle.
    apply Qle_bool_iff in Hle. congruence.
  - intros H. destruct (Qle_bool b a) eqn:E; [|reflexivity].
    apply Qle_bool_iff in E. exfalso. exact (Qlt_not_le _ _ H E).
Qed.

Lemma Qlt_bool_false_iff (a b : Q) : Qlt_bool a b = false <-> (b <= a)%Q.
Proof.
  unfold Qlt_bool. rewrite negb_false_iff. apply Qle_bool_iff.
Qed.

(** ** Running programs *)

Lemma run_bind (F : Faker) {A B : Type} (m : prog A) (f : A -> prog B)
  (s : rng F) :
  run F (bind m f) s =
  match run F m s with
  | (Ok a, s') => run F (f a) s'
  | (Thrown e, s') => (Thrown e, s')
  end.
Proof.
  revert s. induction m as [a|e|n k IH|X c k IH]; intros s; simpl.
  - reflexivity.
  - reflexivity.
  - apply IH.
  - destruct (draw F c s) as [x s']. apply IH.
Qed.

Lemma run_perform (F : Faker) {X : Type} (c : call X) (s : rng F) :
  run F (perform c) s = (Ok (fst (draw F c s)), snd (draw F c s)).
Proof. unfold perform. simpl. now destruct (draw F c s). Qed.

Lemma sat_ret (F : Faker) {A : Type} (a : A) (Q : A -> Prop) E :
  Q a -> sat F (Ret a) Q E.
Proof. intros H s. exact H. Qed.

Lemma sat_bind (F : Faker) {A B : Type} (m : prog A) (f : A -> prog B)
  (R : A -> Prop) (Q : B -> Prop) (E : exn -> Prop) :
  sat F m R E -> (forall a, R a -> sat F (f a) Q E) -> sat F (bind m f) Q E.
Proof.
  intros Hm Hf s. rewrite run_bind. specialize (Hm s).
  destruct (run F m s) as [[a|e] s']; simpl in *.
  - apply Hf. exact Hm.
  - exact Hm.
Qed.

Lemma sat_perform (F : Faker) {X : Type} (c : call X) (Q : X -> Prop) E :
  (forall s, Q (fst (draw F c s))) -> sat F (perform c) Q E.
Proof. intros H s. rewrite run_perform. apply H. Qed.

Lemma sat_weaken (F : Faker) {A : Type} (m : prog A) (Q Q' : A -> Prop) E :
  sat F m Q E -> (forall a, Q a -> Q' a) -> sat F m Q' E.
Proof.
  intros H HQ s. specialize (H s). destruct (fst (run F m s)); auto.
Qed.

Lemma sat_any (F : Faker) {A : Type} (m : prog A) (Q : A -> Prop) :
  sat F m Q noThrow -> sat F m Q anyThrow.
Proof.
  intros H s. specialize (H s). destruct (fst (run F m s)); [auto|exact I].
Qed.

Lemma sat_repeatM (F : Faker) {A : Type} (body : prog A) (Q : A -> Prop) E n :
  sat F body Q E ->
  sat F (repeatM n body) (fun l => List.length l = n /\ Forall Q l) E.
Proof.
  intros Hb. induction n as [|n IH]; simpl.
  - apply sat_ret. split; [reflexivity|constructor].
  - eapply sat_bind; [exact Hb|]. intros x Hx.
    eapply sat_bind; [exact IH|]. intros xs [Hl Hxs].
    apply sat_ret. split; [simpl; congruence|now constructor].
Qed.

Lemma sat_forFrom (F : Faker) {A : Type} (body : Z -> prog A)
  (Q : Z -> A -> Prop) E n i :
  (forall j, sat F (body j) (Q j) E) ->
  sat F (forFrom n i body)
      (fun l => Forall2 Q (map (fun k => i + Z.of_nat k) (seq 0 n)) l) E.
Proof.
  intros Hb. revert i. induction n as [|n IH]; intros i; simpl.
  - apply sat_ret. constructor.
  - eapply sat_bind; [apply Hb|]. intros x Hx.
    eapply sat_bind; [apply (IH (i + 1))|]. intros xs Hxs.
    apply sat_ret. constructor.
    + now rewrite Z.add_0_r.
    + rewrite <- seq_shift, map_map.
      erewrite map_ext; [exact Hxs|]. intros k. simpl. lia.
Qed.

Lemma sat_arrayElement (F : Faker) {A : Type} (array : list A) E :
  FakerOk F -> array <> [] ->
  sat F (arrayElement array) (fun x => In x array) E.
Proof.
  intros HF Hne. unfold arrayElement.
  eapply sat_bind.
  - apply sat_perform with (Q := fun i => (i < List.length array)%nat).
    intros s. apply (element_range F HF).
    destruct array; [congruence|simpl; lia].
  - intros i Hi. destruct (nth_error array i) as [x|] eqn:E1.
    + apply sat_ret. eapply nth_error_In; eauto.
    + apply nth_error_None in E1. cbv beta in Hi. lia.
Qed.

Lemma sat_weightedArrayElement (F : Faker) {A : Type} (array : list (Z * A)) E :
  FakerOk F -> array <> [] ->
  sat F (weightedArrayElement array) (fun x => In x (map snd array)) E.
Proof.
  intros HF Hne. unfold weightedArrayElement.
  eapply sat_bind.
  - apply sat_perform with (Q := fun i => (i < List.length array)%nat).
    intros s. rewrite <- (length_map fst array).
    apply (weighted_range F HF).
    destruct array; [congruence|discriminate].
  - intros i Hi. destruct (nth_error array i) as [x|] eqn:E1.
    + apply sat_ret. apply in_map. eapply nth_error_In; eauto.
    + apply nth_error_None in E1. cbv beta in Hi. lia.
Qed.

(** ** The reference instances keep the promises *)

Lemma lcgNext_range (s : Z) : 0 <= lcgNext s < 2147483648.
Proof. unfold lcgNext. apply Z.mod_pos_bound. lia. Qed.

Lemma pickWeighted_range (ws : list Z) (r : Z) :
  ws <> [] -> (pickWeighted ws r < List.length ws)%nat.
Proof.
  revert r. induction ws as [|w rest IH]; intros r Hne; [congruence|].
  simpl. destruct (r <? w); [lia|].
  destruct rest as [|w' rest']; [simpl; lia|].
  specialize (IH (r - w) ltac:(discriminate)). simpl in *. lia.
Qed.

Lemma refFaker_ok : FakerOk refFaker.
Proof.
  constructor.
  - intros min max s Hlt. simpl.
    pose proof (lcgNext_range s) as [H0 H1].
    set (q := (inject_Z (lcgNext s) / inject_Z 2147483648)%Q).
    assert (Hq0 : (0 <= q)%Q).
    { unfold q. apply Qle_shift_div_l; [reflexivity|].
      rewrite Qmult_0_l. rewrite <- (Zle_Qle 0). exact H0. }
    assert (Hq1 : (q < 1)%Q).
    { unfold q. apply Qlt_shift_div_r; [reflexivity|].
      rewrite Qmult_1_l. rewrite <- Zlt_Qlt. exact H1. }
    split; nra.
  - intros min max s Hle. simpl.
    destruct (max <? min) eqn:E; [apply Z.ltb_lt in E; lia|].
    pose proof (Z.mod_pos_bound (lcgNext s) (max - min + 1) ltac:(lia)). lia.
  - intros len s Hlen. simpl.
    pose proof (Z.mod_pos_bound (lcgNext s) (Z.of_nat len) ltac:(lia)). lia.
  - intros ws s Hne. simpl. now apply pickWeighted_range.
Qed.

Lemma refPlatform_ok : PlatformOk refPlatform.
Proof.
  intros loc d Hin.
  assert (Hwf : wellFormedTag 0 loc = true).
  { destruct Hin as [<-|[<-|[<-|[]]]]; vm_compute; reflexivity. }
  unfold refPlatform, toLocaleDateString. rewrite Hwf. discriminate.
Qed.

(** ** The fractional count sampler *)

Lemma run_generateExactCount (F : Faker) (target : Q) (s : rng F) :
  run F (generateExactCount target) s =
  if Qeq_bool target 0 then (Ok 0, s)
  else if Qlt_bool 0 (target - inject_Z (Qfloor target))
  then (Ok (if Qlt_bool (fst (draw F (NumberFloat 0 1) s))
                        (target - inject_Z (Qfloor target))
            then Qfloor target + 1 else Qfloor target),
        snd (draw F (NumberFloat 0 1) s))
  else (Ok (Qfloor target), s).
Proof.
  unfold generateExactCount.
  destruct (Qeq_bool target 0); [reflexivity|].
  destruct (Qlt_bool 0 (target - inject_Z (Qfloor target))); [|reflexivity].
  simpl. now destruct (draw F (NumberFloat 0 1) s).
Qed.

Lemma draws_generateExactCount (F : Faker) (target : Q) (s : rng F) :
  draws F (generateExactCount target) s =
  if Qeq_bool target 0 then O
  else if Qlt_bool 0 (target - inject_Z (Qfloor target)) then 1%nat else O.
Proof.
  unfold generateExactCount.
  destruct (Qeq_bool target 0); [reflexivity|].
  destruct (Qlt_bool 0 (target - inject_Z (Qfloor target))); [|reflexivity].
  simpl. now destruct (draw F (NumberFloat 0 1) s).
Qed.

Lemma fraction_range (target : Q) :
  (0 <= target - inject_Z (Qfloor target))%Q /\
  (target - inject_Z (Qfloor target) < 1)%Q.
Proof.
  pose proof (Qfloor_le target). pose proof (Qlt_floor target).
  rewrite inject_Z_plus in H0. change (inject_Z 1) with 1%Q in H0.
  split; lra.
Qed.

(** C10 -- A target that is not zero and has no fractional part makes
    [generateExactCount] return its floor without any call to the random
    source, so that the state of the stream is the one it started from;
    and whenever a run of [generateExactCount] does make a call to the
    random source, the fractional part of the target is strictly
    positive. *)
Theorem generateExactCount_integer_target (F : Faker) (target : Q) (s : rng F) :
  (~ (target == 0)%Q ->
   (target - inject_Z (Qfloor target) == 0)%Q ->
   run F (generateExactCount target) s = (Ok (Qfloor target), s)
   /\ draws F (generateExactCount target) s = O)
  /\ (draws F (generateExactCount target) s <> O ->
      (0 < target - inject_Z (Qfloor target))%Q).
Proof.
  rewrite run_generateExactCount, draws_generateExactCount. split.
  - intros Hnz Hfrac.
    destruct (Qeq_bool target 0) eqn:E0.
    { apply Qeq_bool_iff in E0. contradiction. }
    destruct (Qlt_bool 0 (target - inject_Z (Qfloor target))) eqn:E1.
    { apply Qlt_bool_iff in E1. rewrite Hfrac in E1.
      exfalso. exact (Qlt_irrefl 0 E1). }
    split; reflexivity.
  - destruct (Qeq_bool target 0); [congruence|].
    destruct (Qlt_bool 0 (target - inject_Z (Qfloor target))) eqn:E1;
      [|congruence].
    intros _. now apply Qlt_bool_iff.
Qed.

Lemma generateExactCount_integer_target_witness :
  run refFaker (generateExactCount 7) 0 = (Ok 7, 0)
  /\ draws refFaker (generateExactCount 7) 0 = O.
Proof.
  apply (proj1 (generateExactCount_integer_target refFaker 7 0)).
  - intros H. vm_compute in H. discriminate.
  - vm_compute. reflexivity.
Defined.

Lemma exactCountAt_eq (target u : Q) :
  exactCountAt target u =
  if Qeq_bool target 0 then 0
  else if Qlt_bool 0 (target - inject_Z (Qfloor target))
  then (if Qlt_bool u (target - inject_Z (Qfloor target))
        then Qfloor target + 1 else Qfloor target)
  else Qfloor target.
Proof.
  unfold exactCountAt. rewrite run_generateExactCount.
  destruct (Qeq_bool target 0); [reflexivity|].
  destruct (Qlt_bool 0 (target - inject_Z (Qfloor target))); reflexivity.
Qed.

Section Grid.

Variable target : Q.
Variable N : Z.
Hypothesis HN : 0 < N.

Let n := Qfloor target.
Let f := (target - inject_Z n)%Q.
Let M := Qceiling (f * inject_Z N).

Lemma grid_N_pos : (0 < inject_Z N)%Q.
Proof. rewrite <- (Zlt_Qlt 0). exact HN. Qed.

Lemma grid_fraction : (0 <= f)%Q /\ (f < 1)%Q.
Proof. exact (fraction_range target). Qed.

(** [M] is the number of points of the grid below [f]. *)
Lemma grid_M_bounds :
  (f * inject_Z N <= inject_Z M)%Q /\ (inject_Z M < f * inject_Z N + 1)%Q.
Proof.
  split.
  - apply Qle_ceiling.
  - pose proof (Qceiling_lt (f * inject_Z N)) as H. fold M in H.
    unfold Zminus in H. rewrite inject_Z_plus in H.
    change (inject_Z (- (1))) with (- (1))%Q in H. lra.
Qed.

Lemma grid_M_range : 0 <= M <= N.
Proof.
  pose proof grid_N_pos as HNq.
  destruct grid_fraction as [Hf0 Hf1].
  destruct grid_M_bounds as [Hlo Hhi].
  split.
  - rewrite Zle_Qle. change (inject_Z 0) with 0%Q. nra.
  - apply Z.lt_succ_r. rewrite Zlt_Qlt. unfold Z.succ.
    rewrite inject_Z_plus. change (inject_Z 1) with 1%Q. nra.
Qed.

Lemma grid_point_lt (k : Z) :
  Qlt_bool (inject_Z k / inject_Z N) f = (k <? M).
Proof.
  pose proof grid_N_pos as HNq.
  destruct grid_M_bounds as [Hlo Hhi].
  assert (Hx : (inject_Z k / inject_Z N * inject_Z N == inject_Z k)%Q).
  { field. intros H0. rewrite H0 in HNq. exact (Qlt_irrefl 0 HNq). }
  set (x := (inject_Z k / inject_Z N)%Q) in *.
  destruct (k <? M) eqn:E.
  - apply Z.ltb_lt in E. apply Qlt_bool_iff.
    assert (E' : k + 1 <= M) by lia.
    rewrite Zle_Qle, inject_Z_plus in E'. change (inject_Z 1) with 1%Q in E'.
    apply Qnot_le_lt. intros Hle. nra.
  - apply Z.ltb_ge in E. apply Qlt_bool_false_iff.
    rewrite Zle_Qle in E.
    apply Qnot_lt_le. intros Hlt. nra.
Qed.

Lemma grid_M_zero : (f == 0)%Q -> M = 0.
Proof.
  intros Hf. unfold M. transitivity (Qceiling 0); [|reflexivity].
  apply Qceiling_comp. rewrite Hf. apply Qmult_0_l.
Qed.

Lemma exactCountAt_grid (k : Z) :
  0 <= k ->
  exactCountAt target (inject_Z k / inject_Z N) = n + (if k <? M then 1 else 0).
Proof.
  intros Hk. rewrite exactCountAt_eq. fold n. fold f.
  destruct grid_fraction as [Hf0 Hf1].
  destruct (Qeq_bool target 0) eqn:E0.
  - apply Qeq_bool_iff in E0.
    assert (Hn : n = 0) by (unfold n; now rewrite (Qfloor_comp _ _ E0)).
    assert (HM0 : M = 0).
    { apply grid_M_zero. unfold f. rewrite Hn, E0. reflexivity. }
    rewrite Hn, HM0. destruct (k <? 0) eqn:E; [apply Z.ltb_lt in E; lia|].
    reflexivity.
  - destruct (Qlt_bool 0 f) eqn:E1.
    + rewrite grid_point_lt. destruct (k <? M); lia.
    + apply Qlt_bool_false_iff in E1.
      assert (HM0 : M = 0) by (apply grid_M_zero; lra).
      rewrite HM0. destruct (k <? 0) eqn:E; [apply Z.ltb_lt in E; lia|]. lia.
Qed.

Lemma sumOverGrid_exactCount (k : nat) :
  sumOverGrid N k (exactCountAt target) =
  Z.of_nat k * n + Z.min (Z.of_nat k) M.
Proof.
  pose proof grid_M_range as HM.
  induction k as [|k IH].
  - simpl. lia.
  - cbn [sumOverGrid]. rewrite IH, exactCountAt_grid by lia.
    destruct (Z.of_nat k <? M) eqn:E;
      [apply Z.ltb_lt in E|apply Z.ltb_ge in E]; lia.
Qed.

Lemma meanOverGrid_exactCount :
  (meanOverGrid N (exactCountAt target)
   == inject_Z n + inject_Z M / inject_Z N)%Q.
Proof.
  pose proof grid_M_range as HM.
  pose proof grid_N_pos as HNq.
  unfold meanOverGrid. rewrite sumOverGrid_exactCount.
  rewrite Z2Nat.id by lia. rewrite Z.min_r by lia.
  rewrite inject_Z_plus, inject_Z_mult. field.
  intros H0. rewrite H0 in HNq. exact (Qlt_irrefl 0 HNq).
Qed.

(** On any grid the mean is within one step of the target. *)
Lemma meanOverGrid_bounds :
  (target <= meanOverGrid N (exactCountAt target))%Q
  /\ (meanOverGrid N (exactCountAt target) < target + 1 / inject_Z N)%Q.
Proof.
  pose proof grid_N_pos as HNq.
  destruct grid_M_bounds as [Hlo Hhi].
  assert (HN0 : ~ (inject_Z N == 0)%Q).
  { intros H0. rewrite H0 in HNq. exact (Qlt_irrefl 0 HNq). }
  assert (Hq : (inject_Z M / inject_Z N * inject_Z N == inject_Z M)%Q)
    by (field; exact HN0).
  assert (Hr : (1 / inject_Z N * inject_Z N == 1)%Q)
    by (field; exact HN0).
  assert (Ht : (target == inject_Z n + f)%Q) by (unfold f; ring).
  rewrite meanOverGrid_exactCount.
  set (q := (inject_Z M / inject_Z N)%Q) in *.
  set (r := (1 / inject_Z N)%Q) in *.
  split.
  - assert (H : (f <= q)%Q).
    { apply Qnot_lt_le. intros Hlt. nra. }
    lra.
  - assert (H : (q < f + r)%Q).
    { apply Qnot_le_lt. intros Hle. nra. }
    lra.
Qed.

(** On a grid that resolves the fractional part the mean is the
    target. *)
Lemma meanOverGrid_exact :
  (f * inject_Z N == inject_Z (Qfloor (f * inject_Z N)))%Q ->
  (meanOverGrid N (exactCountAt target) == target)%Q.
Proof.
  intros Hres.
  pose proof grid_N_pos as HNq.
  assert (HM : (inject_Z M == f * inject_Z N)%Q).
  { unfold M. rewrite (Qceiling_comp _ _ Hres), Qceiling_Z.
    symmetry. exact Hres. }
  rewrite meanOverGrid_exactCount, HM. unfold f. field.
  intros H0. rewrite H0 in HNq. exact (Qlt_irrefl 0 HNq).
Qed.

(** Conversely, the mean is the target only on a grid that resolves the
    fractional part. *)
Lemma meanOverGrid_exact_inv :
  (meanOverGrid N (exactCountAt target) == target)%Q ->
  (f * inject_Z N == inject_Z (Qfloor (f * inject_Z N)))%Q.
Proof.
  intros Hmean.
  pose proof grid_N_pos as HNq.
  assert (HN0 : ~ (inject_Z N == 0)%Q).
  { intros H0. rewrite H0 in HNq. exact (Qlt_irrefl 0 HNq). }
  rewrite meanOverGrid_exactCount in Hmean.
  assert (HM : (f * inject_Z N == inject_Z M)%Q).
  { assert (Hq : (inject_Z M / inject_Z N * inject_Z N == inject_Z M)%Q)
      by (field; exact HN0).
    assert (Hf : (inject_Z M / inject_Z N == f)%Q) by (unfold f; lra).
    rewrite <- Hq, Hf. reflexivity. }
  rewrite (Qfloor_comp _ _ HM), Qfloor_Z. exact HM.
Qed.

End Grid.

(** C4, as stated, fails: the draws of the random source are the
    multiples of [2^-53], and on that grid the mean of the result for
    the double of 0.1 is not that double; neither is the mean for 1/3
    on the grid of the tenths, which is 2/5. *)
Lemma generateExactCount_mean_counterexample :
  ~ (meanOverGrid (2 ^ 53) (exactCountAt (literal (1 # 10)))
     == literal (1 # 10))%Q
  /\ (meanOverGrid 10 (exactCountAt (1 # 3)) == 2 # 5)%Q.
Proof.
  split; [|vm_compute; reflexivity].
  intros H.
  apply (meanOverGrid_exact_inv (literal (1 # 10)) (2 ^ 53) eq_refl) in H.
  vm_compute in H. discriminate.
Qed.

(** C4, amended -- [generateExactCount(target)] returns 0 at once,
    without a call to the random source, when the target is 0;
    otherwise, with [n] the floor of the target, [f] its fractional part
    and [u] the uniform draw, it returns [n + 1] when [u < f] and [n]
    otherwise.  The result is always [n] or [n + 1], and a call makes at
    most one draw.  For a draw uniform on the grid of the [N] values
    [0, 1/N, ..., (N-1)/N], the mean of the result is
    [n + ceiling(f * N) / N]: at least the target, less than the target
    plus [1/N], and the target exactly if and only if [f * N] is an
    integer; on the grid of the multiples of [2^-53] that is the case of
    every target that is itself such a multiple. *)
Theorem generateExactCount_spec (F : Faker) (target : Q) (s : rng F) :
  FakerOk F ->
  let n := Qfloor target in
  let f := (target - inject_Z n)%Q in
  let u := fst (draw F (NumberFloat 0 1) s) in
  ((target == 0)%Q ->
   run F (generateExactCount target) s = (Ok 0, s)
   /\ draws F (generateExactCount target) s = O)
  /\ (~ (target == 0)%Q ->
      fst (run F (generateExactCount target) s)
      = Ok (if Qlt_bool u f then n + 1 else n))
  /\ (exists r, fst (run F (generateExactCount target) s) = Ok r
                /\ (r = n \/ r = n + 1))
  /\ (draws F (generateExactCount target) s <= 1)%nat
  /\ (forall N, 0 < N ->
        (meanOverGrid N (exactCountAt target)
         == inject_Z n + inject_Z (Qceiling (f * inject_Z N)) / inject_Z N)%Q
        /\ (target <= meanOverGrid N (exactCountAt target))%Q
        /\ (meanOverGrid N (exactCountAt target) < target + 1 / inject_Z N)%Q
        /\ ((meanOverGrid N (exactCountAt target) == target)%Q
            <-> (f * inject_Z N == inject_Z (Qfloor (f * inject_Z N)))%Q))
  /\ (forall m : Z,
        (target == inject_Z m / inject_Z (2 ^ 53))%Q ->
        (meanOverGrid (2 ^ 53) (exactCountAt target) == target)%Q).
Proof.
  intros HF n f u.
  rewrite run_generateExactCount, draws_generateExactCount.
  fold n. fold f. fold u.
  destruct (fraction_range target) as [Hf0 Hf1]. fold n in Hf0, Hf1.
  fold f in Hf0, Hf1.
  assert (Hu : (0 <= u)%Q).
  { apply (float_range F HF 0 1 s). reflexivity. }
  split; [|split; [|split; [|split; [|split]]]].
  - intros H. destruct (Qeq_bool target 0) eqn:E0; [split; reflexivity|].
    apply Qeq_bool_iff in H. congruence.
  - intros Hnz. destruct (Qeq_bool target 0) eqn:E0.
    { apply Qeq_bool_iff in E0. contradiction. }
    destruct (Qlt_bool 0 f) eqn:E1; [reflexivity|]. simpl.
    apply Qlt_bool_false_iff in E1.
    destruct (Qlt_bool u f) eqn:E2; [|reflexivity].
    apply Qlt_bool_iff in E2. lra.
  - destruct (Qeq_bool target 0) eqn:E0.
    + apply Qeq_bool_iff in E0. exists 0. split; [reflexivity|].
      left. unfold n. now rewrite (Qfloor_comp _ _ E0).
    + destruct (Qlt_bool 0 f).
      * simpl. destruct (Qlt_bool u f); eexists; split; eauto.
      * exists n. split; [reflexivity|now left].
  - destruct (Qeq_bool target 0); [lia|]. destruct (Qlt_bool 0 f); lia.
  - intros N HN. split; [|split; [|split; [|split]]].
    + now apply meanOverGrid_exactCount.
    + now apply meanOverGrid_bounds.
    + now apply meanOverGrid_bounds.
    + now apply meanOverGrid_exact_inv.
    + now apply meanOverGrid_exact.
  - intros m Hm. apply meanOverGrid_exact; [reflexivity|].
    fold n. fold f.
    assert (Hint : (f * inject_Z (2 ^ 53)
                    == inject_Z (m - n * 2 ^ 53))%Q).
    { unfold f. rewrite Hm. unfold Zminus.
      rewrite inject_Z_plus, inject_Z_opp, inject_Z_mult. field. discriminate. }
    rewrite (Qfloor_comp _ _ Hint), Qfloor_Z. exact Hint.
Qed.

Lemma generateExactCount_spec_witness :
  fst (run refFaker (generateExactCount (47 # 10)) 1) = Ok 5
  /\ (meanOverGrid 10 (exactCountAt (47 # 10)) == 47 # 10)%Q.
Proof.
  pose proof (generateExactCount_spec refFaker (47 # 10) 1 refFaker_ok)
    as (_ & H1 & _ & _ & H4 & _).
  split.
  - rewrite H1; [vm_compute; reflexivity|].
    intros H. vm_compute in H. discriminate.
  - apply (H4 10 ltac:(lia)). vm_compute. reflexivity.
Defined.

(** ** Determinism and index independence *)

Lemma run_setSeedForIndex (F : Faker) (P : Platform) (g : BookDataGenerator)
  (index : Z) (s : rng F) :
  run F (setSeedForIndex P g index) s = (Ok tt, seed F (uniqueSeed P g index)).
Proof. reflexivity. Qed.

Lemma run_after_reseed (F : Faker) {B : Type} (n : Z) (k : unit -> prog B)
  (s s' : rng F) :
  run F (bind (Reseed n (Ret tt)) k) s = run F (bind (Reseed n (Ret tt)) k) s'.
Proof. reflexivity. Qed.

(** C1 -- For every parameter tuple and every index, [generateBook]
    returns the same output (and leaves the same state of the random
    source) from every state in which it is called: in particular after
    any sequence of earlier calls of [generateBook], by this generator
    or another, in any order, or after none.  The reason is that its
    first step installs the state of the derived seed
    [baseSeed + fingerprint + index], before any field is drawn. *)
Theorem generateBook_deterministic (F : Faker) (P : Platform)
  (g : BookDataGenerator) (index : Z) :
  (forall s s' : rng F,
     run F (generateBook P g index) s = run F (generateBook P g index) s')
  /\ (forall prior prior' (s s' : rng F),
        fst (run F (generateBook P g index) (stateAfter F P prior s))
        = fst (run F (generateBook P g index) (stateAfter F P prior' s')))
  /\ (forall s : rng F,
        run F (setSeedForIndex P g index) s
        = (Ok tt, seed F (uniqueSeed P g index)))
  /\ (exists k, generateBook P g index = bind (setSeedForIndex P g index) k).
Proof.
  assert (H : forall s s' : rng F,
    run F (generateBook P g index) s = run F (generateBook P g index) s').
  { intros s s'. unfold generateBook, setSeedForIndex.
    apply run_after_reseed. }
  split; [exact H|]. split; [|split].
  - intros prior prior' s s'.
    now rewrite (H (stateAfter F P prior s) (stateAfter F P prior' s')).
  - intros s. apply run_setSeedForIndex.
  - eexists. unfold generateBook. reflexivity.
Qed.

(** ** The fingerprint and the derived seed *)

Lemma supported_cases (loc : jsstring) :
  In loc supportedLocales ->
  loc = js "en-US" \/ loc = js "de-DE" \/ loc = js "ja-JP".
Proof.
  intros [H|[H|[H|[]]]]; auto.
Qed.

Lemma toInt32_range (z : Z) : -2147483648 <= toInt32 z < 2147483648.
Proof.
  unfold toInt32.
  pose proof (Z.mod_pos_bound (z + 2147483648) 4294967296 ltac:(lia)). lia.
Qed.

Lemma toInt32_mod (z : Z) : toInt32 z mod 4294967296 = z mod 4294967296.
Proof.
  unfold toInt32.
  replace ((z + 2147483648) mod 4294967296 - 2147483648)
    with ((z + 2147483648) mod 4294967296 + (- 2147483648)) by lia.
  rewrite Zplus_mod_idemp_l. f_equal. lia.
Qed.

Lemma toInt32_congr (x y : Z) :
  x mod 4294967296 = y mod 4294967296 -> toInt32 x = toInt32 y.
Proof.
  intros H. unfold toInt32.
  rewrite (Zplus_mod x), (Zplus_mod y), H. reflexivity.
Qed.

Lemma and32_diag (a : Z) : and32 a a = toInt32 a.
Proof. unfold and32. apply Z.land_diag. Qed.

Lemma hashStep_poly (h c : Z) :
  hashStep (toInt32 h) c = toInt32 (31 * h + c).
Proof.
  unfold hashStep. cbv zeta. rewrite and32_diag. unfold shl32.
  rewrite Z.shiftl_mul_pow2 by lia. change (2 ^ 5) with 32.
  apply toInt32_congr.
  replace (toInt32 (toInt32 (toInt32 h) * 32) - toInt32 h + c)
    with (toInt32 (toInt32 (toInt32 h) * 32) + (- toInt32 h + c)) by lia.
  rewrite Zplus_mod, toInt32_mod.
  rewrite (Zmult_mod (toInt32 (toInt32 h))), toInt32_mod, toInt32_mod.
  rewrite <- Zmult_mod, <- Zplus_mod.
  replace (h * 32 + (- toInt32 h + c)) with ((32 * h + c) + (- 1) * toInt32 h)
    by lia.
  rewrite Zplus_mod, (Zmult_mod (-1)), toInt32_mod.
  rewrite <- Zmult_mod, <- Zplus_mod. f_equal. lia.
Qed.

Lemma hashString_from (str : jsstring) (h : Z) :
  fold_left hashStep str (toInt32 h)
  = toInt32 (fold_left (fun a c => 31 * a + c) str h).
Proof.
  revert h. induction str as [|c str IH]; intros h; cbn [fold_left].
  - reflexivity.
  - rewrite hashStep_poly. apply IH.
Qed.

Lemma hashString_poly (str : jsstring) :
  hashString str = toInt32 (polyHash str).
Proof.
  unfold hashString, polyHash.
  change 0 with (toInt32 0) at 1. apply hashString_from.
Qed.

Lemma hashParameters_range (P : Platform) (g : BookDataGenerator) :
  0 <= hashParameters P g <= 2147483648.
Proof.
  unfold hashParameters. rewrite hashString_poly.
  pose proof (toInt32_range (polyHash (paramString P g))). lia.
Qed.

Lemma polyHash_from (str : jsstring) (h : Z) :
  fold_left (fun a c => 31 * a + c) str h
  = h * 31 ^ Z.of_nat (List.length str) + polyHash str.
Proof.
  unfold polyHash. revert h.
  induction str as [|c str IH]; intros h.
  - cbn. lia.
  - cbn [fold_left List.length]. rewrite IH, (IH (31 * 0 + c)).
    rewrite Nat2Z.inj_succ, Z.pow_succ_r by lia. ring.
Qed.

Lemma polyHash_app (a b : jsstring) :
  polyHash (a ++ b) = polyHash a * 31 ^ Z.of_nat (List.length b) + polyHash b.
Proof.
  unfold polyHash at 1. rewrite fold_left_app. apply polyHash_from.
Qed.

(** The wrapped hashes of two strings that differ in their prefix alone
    differ when the polynomials of the prefixes differ by less than
    [2^32]: the multiplier 31 is odd. *)
Lemma hashString_prefix (a b t : jsstring) :
  polyHash a <> polyHash b ->
  Z.abs (polyHash a - polyHash b) < 4294967296 ->
  hashString (a ++ t) <> hashString (b ++ t).
Proof.
  intros Hne Hlt Heq. rewrite !hashString_poly in Heq.
  apply (f_equal (fun z => z mod 4294967296)) in Heq.
  rewrite !toInt32_mod, !polyHash_app in Heq.
  set (n := Z.of_nat (List.length t)) in *.
  assert (Hdiv : (4294967296 | (polyHash a - polyHash b) * 31 ^ n)).
  { apply Z.mod_divide; [lia|].
    replace ((polyHash a - polyHash b) * 31 ^ n)
      with ((polyHash a * 31 ^ n + polyHash t)
            - (polyHash b * 31 ^ n + polyHash t)) by ring.
    rewrite Zminus_mod, Heq, Z.sub_diag. reflexivity. }
  rewrite Z.mul_comm in Hdiv.
  apply Z.gauss in Hdiv.
  - destruct Hdiv as [k Hk]. lia.
  - apply Z.coprime_pow_r; [unfold n; lia|reflexivity].
Qed.

(** While the magnitudes of the seed and of the index leave room for the
    fingerprint below [2^53], the derived seed is the exact sum. *)
Lemma uniqueSeed_exact (P : Platform) (g : BookDataGenerator) (i : Z) :
  exactRange g i -> uniqueSeed P g i = baseSeed g + hashParameters P g + i.
Proof.
  unfold exactRange, uniqueSeed, maxExact. intros H.
  pose proof (hashParameters_range P g) as Hh. cbv zeta.
  rewrite (numAdd_exact (baseSeed g)) by (unfold maxExact; lia).
  apply numAdd_exact. unfold maxExact. lia.
Qed.

(** C3, as stated, fails: two parameter tuples that differ in the seed
    alone have the same fingerprint. *)
Lemma hashParameters_seed_counterexample :
  ~ (forall (P : Platform) (g g' : BookDataGenerator),
       differInExactlyOne g g' -> hashParameters P g <> hashParameters P g').
Proof.
  intros H.
  apply (H refPlatform demo (seedOnly demo 999)).
  - right. left. repeat split. simpl. lia.
  - reflexivity.
Qed.

(** Two locale strings on which the fingerprint collides. *)
Lemma hashParameters_locale_collision :
  hashParameters refPlatform (localeOnly demo (js "Aa"))
  = hashParameters refPlatform (localeOnly demo (js "BB")).
Proof. vm_compute. reflexivity. Qed.

(** Near the end of the range of the safe integers the sums are rounded,
    and three consecutive seeds derive one seed. *)
Lemma uniqueSeed_rounded :
  uniqueSeed refPlatform (seedOnly demo 9007199254740991) 1 = 9007200428888036
  /\ uniqueSeed refPlatform (seedOnly demo 9007199254740990) 1 = 9007200428888036
  /\ uniqueSeed refPlatform (seedOnly demo 9007199254740989) 1 = 9007200428888036.
Proof. vm_compute. auto. Qed.

(** C3, amended -- The fingerprint is a function of the locale and of the
    two averages only: two tuples that differ in the seed alone have the
    same fingerprint.  The derived seed is the sum
    [baseSeed + fingerprint + index] in doubles, which is the exact sum
    while [|baseSeed| + 2^31 + |index| <= 2^53]; at such an index, two
    tuples with one fingerprint have derived seeds that differ by the
    difference of their seeds, and two tuples with one seed and
    different fingerprints have different derived seeds.  For two
    different locales of the schema and the same averages the wrapped
    hashes of the parameter strings differ, so that the fingerprints,
    their absolute values, are equal only when the hashes are
    opposite. *)
Theorem uniqueSeed_sensitivity (P : Platform) (g g' : BookDataGenerator) :
  (locale g = locale g' -> avgLikes g = avgLikes g' ->
   avgReviews g = avgReviews g' ->
   hashParameters P g = hashParameters P g')
  /\ (forall i, exactRange g i ->
        uniqueSeed P g i = baseSeed g + hashParameters P g + i)
  /\ (forall i, exactRange g i -> exactRange g' i ->
        (hashParameters P g = hashParameters P g' ->
         uniqueSeed P g i - uniqueSeed P g' i = baseSeed g - baseSeed g')
        /\ (baseSeed g = baseSeed g' ->
            hashParameters P g <> hashParameters P g' ->
            uniqueSeed P g i <> uniqueSeed P g' i))
  /\ (In (locale g) supportedLocales -> In (locale g') supportedLocales ->
      locale g <> locale g' ->
      avgLikes g = avgLikes g' -> avgReviews g = avgReviews g' ->
      hashString (paramString P g) <> hashString (paramString P g')
      /\ (hashParameters P g = hashParameters P g' ->
          hashString (paramString P g) = - hashString (paramString P g'))).
Proof.
  split; [|split; [|split]].
  - intros Hl Ha Hr. unfold hashParameters, paramString. now rewrite Hl, Ha, Hr.
  - intros i Hi. now apply uniqueSeed_exact.
  - intros i Hi Hi'. rewrite !uniqueSeed_exact by assumption. split; intros; lia.
  - intros Hl Hl' Hne Ha Hr.
    assert (Hs : hashString (paramString P g) <> hashString (paramString P g')).
    { unfold paramString. rewrite Ha, Hr. revert Hne.
      apply supported_cases in Hl. apply supported_cases in Hl'.
      destruct Hl as [El | [El | El]]; destruct Hl' as [El' | [El' | El']];
        rewrite El, El'; intros Hne; try congruence;
        (apply hashString_prefix;
         [vm_compute; discriminate|vm_compute; reflexivity]). }
    split; [exact Hs|]. unfold hashParameters. lia.
Qed.

Lemma uniqueSeed_sensitivity_witness :
  (hashParameters refPlatform demo = hashParameters refPlatform (seedOnly demo 999)
   /\ uniqueSeed refPlatform (seedOnly demo 999) 1 - uniqueSeed refPlatform demo 1
      = 999 - 12345)
  /\ hashString (paramString refPlatform demo)
     <> hashString (paramString refPlatform (localeOnly demo (js "de-DE"))).
Proof.
  split.
  - destruct (uniqueSeed_sensitivity refPlatform (seedOnly demo 999) demo)
      as (H1 & _ & H3 & _).
    split; [symmetry; apply H1; reflexivity|].
    apply (H3 1); [vm_compute; discriminate|vm_compute; discriminate|].
    apply H1; reflexivity.
  - destruct (uniqueSeed_sensitivity refPlatform demo
                (localeOnly demo (js "de-DE"))) as (_ & _ & _ & H4).
    apply H4.
    + vm_compute. auto.
    + vm_compute. auto.
    + vm_compute. discriminate.
    + reflexivity.
    + reflexivity.
Defined.

(** ** The cover descriptor *)

Lemma truncatedLabel_eq (limit : nat) (s : jsstring) :
  (if Z.of_nat limit <? jslength s
   then substring0 limit s ++ js "..." else s) = truncatedLabel limit s.
Proof.
  unfold truncatedLabel, jslength, substring0.
  destruct (Z.of_nat limit <? Z.of_nat (List.length s)) eqn:E.
  - apply Z.ltb_lt in E.
    destruct (Nat.leb_spec (List.length s) limit); [lia|reflexivity].
  - apply Z.ltb_ge in E.
    destruct (Nat.leb_spec (List.length s) limit); [reflexivity|lia].
Qed.

Lemma run_generateCoverImage (F : Faker) (P : Platform)
  (g : BookDataGenerator) (title author : jsstring) (index : Z) (s : rng F) :
  run F (generateCoverImage P g title (Some author) index) s
  = (Ok (coverDescriptor P (imageId P g index) title author), s).
Proof.
  unfold generateCoverImage, coverDescriptor, numToStr. simpl run.
  rewrite <- (truncatedLabel_eq 25 title), <- (truncatedLabel_eq 20 author).
  reflexivity.
Qed.

(** C7, as stated, fails: on a seed negative enough the identifier is
    negative, and is not the residue modulo 1000 of the sum. *)
Lemma imageId_negative_counterexample :
  imageId refPlatform negativeSeed 1 = -953
  /\ (baseSeed negativeSeed + hashParameters refPlatform negativeSeed + 1)
       mod 1000 = 47
  /\ ~ (0 <= imageId refPlatform negativeSeed 1 <= 999).
Proof.
  assert (H : imageId refPlatform negativeSeed 1 = -953)
    by (vm_compute; reflexivity).
  split; [exact H|]. split; [vm_compute; reflexivity|]. rewrite H. lia.
Qed.

(** ** The steps of [generateBook] *)

Lemma sat_trivial (F : Faker) {A : Type} (m : prog A) :
  sat F m (fun _ => True) anyThrow.
Proof. intros s. destruct (fst (run F m s)); exact I. Qed.

Lemma sat_setSeedForIndex (F : Faker) (P : Platform) (g : BookDataGenerator)
  (index : Z) E :
  sat F (setSeedForIndex P g index) (fun _ => True) E.
Proof. intros s. exact I. Qed.

Lemma sat_generateExactCount (F : Faker) (target : Q) E :
  sat F (generateExactCount target) (fun _ => True) E.
Proof.
  intros s. rewrite run_generateExactCount.
  destruct (Qeq_bool target 0); [exact I|].
  destruct (Qlt_bool 0 (target - inject_Z (Qfloor target))); exact I.
Qed.

Lemma sat_generateAuthor (F : Faker) (g : BookDataGenerator) E :
  sat F (generateAuthor g) (fun _ => True) E.
Proof.
  unfold generateAuthor.
  destruct (jseqb (locale g) (js "de-DE")); [|destruct (jseqb (locale g) (js "ja-JP"))];
    apply sat_perform; intros; exact I.
Qed.

Lemma sat_generateCoverImage (F : Faker) (P : Platform)
  (g : BookDataGenerator) (title : jsstring) (authors : list jsstring)
  (index : Z) (E : exn -> Prop) :
  E TypeError \/ authors <> [] ->
  sat F (generateCoverImage P g title (nth_error authors 0) index)
      (fun c => exists a, nth_error authors 0 = Some a
                          /\ c = coverDescriptor P (imageId P g index) title a) E.
Proof.
  intros H s. destruct authors as [|a rest].
  - destruct H as [H|H]; [exact H|congruence].
  - cbn [nth_error]. rewrite run_generateCoverImage. exists a. now split.
Qed.

(** The result of [generateBook], given what its fallible steps do. *)
Lemma sat_generateBook (F : Faker) (P : Platform) (g : BookDataGenerator)
  (i : Z) (E : exn -> Prop) (R : Review -> Prop) :
  sat F (generateBookTitle P g) (fun _ => True) E ->
  sat F (arrayElement publisherTypes) (fun _ => True) E ->
  sat F (generateISBN P) (fun _ => True) E ->
  (forall likes, sat F (generateReview P g likes) R E) ->
  (forall s, E TypeError \/ 1 <= fst (draw F (NumberInt 1 3) s)) ->
  sat F (generateBook P g i)
      (fun b => index b = i
                /\ Forall R (reviews b)
                /\ exists a, nth_error (authors b) 0 = Some a
                   /\ coverImage b
                      = coverDescriptor P (imageId P g i) (title b) a) E.
Proof.
  intros Ht Hp Hi Hr Hn. unfold generateBook.
  eapply sat_bind; [apply sat_setSeedForIndex|]. intros _ _.
  eapply sat_bind; [exact Ht|]. intros title _.
  eapply sat_bind;
    [apply sat_perform with (Q := fun n => E TypeError \/ 1 <= n); exact Hn|].
  intros numAuthors HnumA.
  eapply sat_bind; [apply sat_repeatM, sat_generateAuthor|].
  intros authors [Hlen _].
  eapply sat_bind; [apply sat_perform with (Q := fun _ => True); auto|].
  intros company _.
  eapply sat_bind; [exact Hp|]. intros publisherType _.
  eapply sat_bind; [apply sat_perform with (Q := fun _ => True); auto|].
  intros born _.
  eapply sat_bind; [apply sat_generateExactCount|]. intros likes _.
  eapply sat_bind; [apply sat_generateExactCount|]. intros numReviews _.
  eapply sat_bind; [apply sat_repeatM, Hr|]. intros reviews [_ Hrev].
  eapply sat_bind; [exact Hi|]. intros isbn _.
  eapply sat_bind.
  - apply sat_generateCoverImage.
    destruct HnumA as [H|H]; [now left|right].
    intros ->. simpl in Hlen. lia.
  - intros c (a & Ha & Hc). apply sat_ret. cbn.
    split; [reflexivity|]. split; [exact Hrev|]. exists a. now split.
Qed.

(** Near the end of the range of the safe integers the identifier is the
    remainder of the rounded sum, not of the exact one. *)
Lemma imageId_rounded :
  imageId refPlatform (seedOnly demo 9007199254740991) 1 = 36
  /\ Z.rem (9007199254740991 + hashParameters refPlatform demo + 1) 1000 = 38.
Proof. vm_compute. auto. Qed.

(** C7, amended -- The identifier of the cover is the remainder of the
    sum [baseSeed + fingerprint + index], computed in doubles as the
    derived seed is, in the division by 1000 that truncates toward zero:
    a value between -999 and 999.  While
    [|baseSeed| + 2^31 + |index| <= 2^53] the sum is exact, and the
    identifier is the residue modulo 1000, between 0 and 999, when the
    sum is not negative, and a value between -999 and 0 when it is.  The
    URL carries that identifier and the fixed width 400 and height 600;
    the title label is the title when it has at most 25 characters and
    its first 25 characters followed by an ellipsis otherwise, and the
    author label is the same for the first author and 20 characters, in
    every record that [generateBook] returns. *)
Theorem generateCoverImage_spec (F : Faker) (P : Platform)
  (g : BookDataGenerator) (i : Z) :
  imageId P g i = Z.rem (uniqueSeed P g i) 1000
  /\ -999 <= imageId P g i <= 999
  /\ (exactRange g i ->
      let sum := baseSeed g + hashParameters P g + i in
      imageId P g i = Z.rem sum 1000
      /\ (0 <= sum -> imageId P g i = sum mod 1000 /\ 0 <= imageId P g i <= 999)
      /\ (sum < 0 -> -999 <= imageId P g i <= 0))
  /\ (forall title author (s : rng F),
        run F (generateCoverImage P g title (Some author) i) s
        = (Ok {| imageUrl := js "https://picsum.photos/seed/"
                             ++ numberToString P (inject_Z (imageId P g i))
                             ++ js "/" ++ numberToString P (inject_Z 400)
                             ++ js "/" ++ numberToString P (inject_Z 600);
                 cover_title := truncatedLabel 25 title;
                 cover_author := truncatedLabel 20 author |}, s))
  /\ (forall (s : rng F) b,
        fst (run F (generateBook P g i) s) = Ok b ->
        exists a, nth_error (authors b) 0 = Some a
                  /\ cover_title (coverImage b) = truncatedLabel 25 (title b)
                  /\ cover_author (coverImage b) = truncatedLabel 20 a).
Proof.
  assert (Hid : imageId P g i = Z.rem (uniqueSeed P g i) 1000) by reflexivity.
  split; [exact Hid|]. split; [|split; [|split]].
  - rewrite Hid.
    pose proof (Z.rem_bound_abs (uniqueSeed P g i) 1000 ltac:(lia)). lia.
  - intros Hr sum. rewrite Hid, (uniqueSeed_exact P g i Hr). fold sum.
    split; [reflexivity|]. split.
    + intros Hs. rewrite Z.rem_mod_nonneg by lia.
      pose proof (Z.mod_pos_bound sum 1000 ltac:(lia)). lia.
    + intros Hs.
      pose proof (Z.rem_bound_pos_neg sum 1000 ltac:(lia) ltac:(lia)). lia.
  - intros title author s. apply run_generateCoverImage.
  - intros s b Hb.
    pose proof (sat_generateBook F P g i anyThrow (fun _ => True)
                  (sat_trivial F _) (sat_trivial F _) (sat_trivial F _)
                  (fun likes => sat_trivial F _)
                  (fun _ => or_introl I) s) as H.
    rewrite Hb in H. destruct H as (_ & _ & a & Ha & Hc).
    exists a. rewrite Hc. repeat split; auto.
Qed.

Lemma generateCoverImage_spec_witness :
  (imageId refPlatform demo 1 = 392)
  /\ (-999 <= imageId refPlatform negativeSeed 1 <= 0)
  /\ exists b, fst (run refFaker (generateBook refPlatform demo 1) 0) = Ok b
               /\ cover_title (coverImage b) = truncatedLabel 25 (title b).
Proof.
  pose proof (generateCoverImage_spec refFaker refPlatform demo 1)
    as (_ & _ & H1 & _ & H4).
  pose proof (generateCoverImage_spec refFaker refPlatform negativeSeed 1)
    as (_ & _ & H5 & _).
  split; [|split].
  - destruct (H1 ltac:(vm_compute; discriminate)) as (_ & H2 & _).
    rewrite (proj1 (H2 ltac:(vm_compute; discriminate))).
    vm_compute. reflexivity.
  - destruct (H5 ltac:(vm_compute; discriminate)) as (_ & _ & H6).
    apply H6. vm_compute. reflexivity.
  - eexists. split; [vm_compute; reflexivity|].
    destruct (H4 0 _ ltac:(vm_compute; reflexivity)) as (a & _ & Ht & _).
    exact Ht.
Defined.

(** ** The sentiment and rating model *)

Lemma run_determineReviewSentiment (F : Faker) (likes : Z) (s : rng F) :
  run F (determineReviewSentiment likes) s =
  (Ok (let r := popularityRatio likes in
       let u := fst (draw F (NumberFloat 0 1) s) in
       if Qlt_bool (literal (7 # 10)) r then
         if Qlt_bool u (literal (8 # 10)) then Positive
         else if Qlt_bool u (literal (95 # 100)) then Neutral else Negative
       else if Qlt_bool (literal (4 # 10)) r then
         if Qlt_bool u (literal (5 # 10)) then Positive
         else if Qlt_bool u (literal (85 # 100)) then Neutral else Negative
       else
         if Qlt_bool u (literal (2 # 10)) then Positive
         else if Qlt_bool u (literal (6 # 10)) then Neutral else Negative),
   snd (draw F (NumberFloat 0 1) s)).
Proof.
  unfold determineReviewSentiment, popularityRatio. cbn [bind perform run].
  destruct (draw F (NumberFloat 0 1) s) as [u s']. cbn [fst snd].
  repeat match goal with
         | |- context [if ?b then _ else _] => destruct b
         end; reflexivity.
Qed.

Lemma draws_determineReviewSentiment (F : Faker) (likes : Z) (s : rng F) :
  draws F (determineReviewSentiment likes) s = 1%nat.
Proof.
  unfold determineReviewSentiment. cbn [bind perform draws].
  destruct (draw F (NumberFloat 0 1) s) as [u s'].
  repeat match goal with
         | |- context [if ?b then _ else _] => destruct b
         end; reflexivity.
Qed.

Lemma run_generateRatingFromSentiment (F : Faker) (sen : sentiment) (s : rng F) :
  run F (generateRatingFromSentiment sen) s =
  (match nth_error (ratingWeights sen)
                   (fst (draw F (WeightedIndex (map fst (ratingWeights sen))) s))
   with
   | Some wv => Ok (snd wv)
   | None => Thrown FakerError
   end,
   snd (draw F (WeightedIndex (map fst (ratingWeights sen))) s)).
Proof.
  unfold generateRatingFromSentiment, weightedArrayElement.
  cbn [bind perform run].
  destruct (draw F (WeightedIndex (map fst (ratingWeights sen))) s) as [j s'].
  cbn [fst snd]. destruct (nth_error (ratingWeights sen) j); reflexivity.
Qed.

Lemma shares_ratingWeights (sen : sentiment) :
  sameDistribution (shares (ratingWeights sen)) (ratingDistribution sen).
Proof.
  destruct sen; repeat constructor.
Qed.

(** The sentiment is the first one whose cumulative threshold, in the
    band of the ratio, the draw is below. *)
Lemma determineReviewSentiment_pick (F : Faker) (likes : Z) (s : rng F) :
  FakerOk F ->
  exists b sen,
    inBand (popularityRatio likes) b
    /\ cumulativePick (cumulativeThresholds b)
                      (fst (draw F (NumberFloat 0 1) s)) = Some sen
    /\ run F (determineReviewSentiment likes) s
       = (Ok sen, snd (draw F (NumberFloat 0 1) s)).
Proof.
  intros HF.
  set (r := popularityRatio likes). set (u := fst (draw F (NumberFloat 0 1) s)).
  assert (Hu : (u < 1)%Q) by (apply (float_range F HF 0 1 s); reflexivity).
  apply Qlt_bool_iff in Hu.
  rewrite run_determineReviewSentiment. fold r. fold u. cbv zeta.
  destruct (Qlt_bool (literal (7 # 10)) r) eqn:E7.
  - exists High. apply Qlt_bool_iff in E7.
    destruct (Qlt_bool u (literal (8 # 10))) eqn:E1;
      [|destruct (Qlt_bool u (literal (95 # 100))) eqn:E2];
      eexists; (split; [exact E7|]); (split; [|reflexivity]);
      cbn [cumulativePick cumulativeThresholds];
      rewrite ?E1, ?E2, ?Hu; reflexivity.
  - apply Qlt_bool_false_iff in E7.
    destruct (Qlt_bool (literal (4 # 10)) r) eqn:E4.
    + exists Middle. apply Qlt_bool_iff in E4.
      destruct (Qlt_bool u (literal (5 # 10))) eqn:E1;
        [|destruct (Qlt_bool u (literal (85 # 100))) eqn:E2];
        eexists; (split; [split; assumption|]); (split; [|reflexivity]);
        cbn [cumulativePick cumulativeThresholds];
        rewrite ?E1, ?E2, ?Hu; reflexivity.
    + exists Low. apply Qlt_bool_false_iff in E4.
      destruct (Qlt_bool u (literal (2 # 10))) eqn:E1;
        [|destruct (Qlt_bool u (literal (6 # 10))) eqn:E2];
        eexists; (split; [exact E4|]); (split; [|reflexivity]);
        cbn [cumulativePick cumulativeThresholds];
        rewrite ?E1, ?E2, ?Hu; reflexivity.
Qed.

(** At a draw that is the double of the literal [0.95], in the band of
    the high ratios, the sentiment is negative: the draw is not below
    the threshold. *)
Lemma determineReviewSentiment_at_threshold :
  fst (run (oracle (literal (95 # 100))) (determineReviewSentiment 9) tt)
  = Ok Negative.
Proof. vm_compute. reflexivity. Qed.

(** C5 -- The sentiment of a review is sampled from the popularity ratio
    [r = min(likes/10, 1)] and one uniform draw [u]: the band of [r]
    among [r > 0.7], [0.4 < r <= 0.7] and [r <= 0.4] selects the
    cumulative thresholds 0.8/0.95/1.0, 0.5/0.85/1.0 or 0.2/0.6/1.0, and
    the sentiment is the first of positive, neutral, negative whose
    threshold [u] is below.  The numbers are those of the program: the
    quotient and the decimals are doubles, each decimal within [2^-54]
    of the double that stands for it.  The rating is the value that the
    weighted pick selects in the table of the sentiment, whose shares
    are 5: 60%, 4: 30%, 3: 10% for positive, 3: 50%, 4: 25%, 2: 25% for
    neutral and 1: 50%, 2: 30%, 3: 20% for negative. *)
Theorem sentiment_rating_model (F : Faker) (likes : Z) (s : rng F) :
  FakerOk F ->
  let r := popularityRatio likes in
  let u := fst (draw F (NumberFloat 0 1) s) in
  (exists b sen,
     inBand r b
     /\ cumulativePick (cumulativeThresholds b) u = Some sen
     /\ run F (determineReviewSentiment likes) s
        = (Ok sen, snd (draw F (NumberFloat 0 1) s)))
  /\ draws F (determineReviewSentiment likes) s = 1%nat
  /\ Forall (fun q => (q - pow2 (-54) <= literal q)%Q
                      /\ (literal q <= q + pow2 (-54))%Q) sentimentLiterals
  /\ (forall sen (s' : rng F),
        let j := fst (draw F (WeightedIndex (map fst (ratingWeights sen))) s') in
        sameDistribution (shares (ratingWeights sen)) (ratingDistribution sen)
        /\ exists v p,
             nth_error (ratingDistribution sen) j = Some (v, p)
             /\ run F (generateRatingFromSentiment sen) s'
                = (Ok v, snd (draw F (WeightedIndex (map fst (ratingWeights sen))) s'))).
Proof.
  intros HF r u.
  split; [|split; [|split]].
  - exact (determineReviewSentiment_pick F likes s HF).
  - apply draws_determineReviewSentiment.
  - repeat constructor; vm_compute; discriminate.
  - intros sen s' j. split; [apply shares_ratingWeights|].
    rewrite run_generateRatingFromSentiment. fold j.
    assert (Hj : (j < 3)%nat).
    { pose proof (weighted_range F HF (map fst (ratingWeights sen)) s') as H.
      fold j in H. destruct sen; apply H; discriminate. }
    destruct sen; destruct j as [|[|[|j]]]; try lia;
      do 2 eexists; split; reflexivity.
Qed.

Lemma sentiment_rating_model_witness :
  run refFaker (determineReviewSentiment 9) 1 = (Ok Positive, lcgNext 1)
  /\ cumulativePick (cumulativeThresholds High)
                    (fst (draw refFaker (NumberFloat 0 1) 1)) = Some Positive.
Proof.
  destruct (sentiment_rating_model refFaker 9 1 refFaker_ok)
    as ((b & sen & Hb & Hp & Hr) & _).
  assert (Hsen : sen = Positive).
  { assert (H : fst (run refFaker (determineReviewSentiment 9) 1) = Ok Positive)
      by (vm_compute; reflexivity).
    rewrite Hr in H. cbn [fst] in H. congruence. }
  subst sen. split; [exact Hr|].
  destruct b; cbn [inBand] in Hb.
  - exact Hp.
  - exfalso. destruct Hb as [_ Hb]. vm_compute in Hb. congruence.
  - exfalso. vm_compute in Hb. congruence.
Defined.

(** ** Reviews *)

Lemma corpusOf_cases (loc : jsstring) :
  corpusOf loc = reviews_enUS \/ corpusOf loc = reviews_deDE
  \/ corpusOf loc = reviews_jaJP.
Proof.
  unfold corpusOf.
  destruct (jseqb (js "en-US") loc); [now left|].
  destruct (jseqb (js "de-DE") loc); [now right; left|].
  destruct (jseqb (js "ja-JP") loc); [now right; right|now left].
Qed.

Lemma orElse_reviewsTable (loc : jsstring) (lr : LocaleReviews) :
  orElse (getProperty reviewsTable loc) reviews_enUS = inl lr ->
  lr = corpusOf loc.
Proof.
  unfold getProperty, reviewsTable, corpusOf. cbn [find fst snd].
  destruct (jseqb (js "en-US") loc); [cbn; congruence|].
  destruct (jseqb (js "de-DE") loc); [cbn; congruence|].
  destruct (jseqb (js "ja-JP") loc); [cbn; congruence|].
  destruct (find _ objectPrototypeMembers); cbn; congruence.
Qed.

Lemma orElse_reviewsTable_supported (loc : jsstring) :
  In loc supportedLocales ->
  exists lr, orElse (getProperty reviewsTable loc) reviews_enUS = inl lr.
Proof.
  intros H. apply supported_cases in H.
  destruct H as [-> | [-> | ->]]; eexists; reflexivity.
Qed.

Lemma bySentiment_nonempty (loc : jsstring) (sen : sentiment) :
  bySentiment (corpusOf loc) sen <> [].
Proof.
  destruct (corpusOf_cases loc) as [-> | [-> | ->]]; destruct sen; discriminate.
Qed.

Lemma disjointb_spec (a b : list jsstring) (x : jsstring) :
  disjointb a b = true -> In x a -> In x b -> False.
Proof.
  unfold disjointb. intros H Ha Hb.
  rewrite forallb_forall in H. specialize (H x Ha).
  apply negb_true_iff in H.
  assert (Hex : existsb (jseqb x) b = true).
  { apply existsb_exists. exists x. split; [exact Hb|apply jseqb_refl]. }
  congruence.
Qed.

Lemma sentimentsDisjoint_corpus (loc : jsstring) :
  sentimentsDisjoint (corpusOf loc) = true.
Proof.
  destruct (corpusOf_cases loc) as [-> | [-> | ->]]; vm_compute; reflexivity.
Qed.

Lemma corpus_one_sentiment (loc : jsstring) (s s' : sentiment) (t : jsstring) :
  In t (bySentiment (corpusOf loc) s) ->
  In t (bySentiment (corpusOf loc) s') -> s' = s.
Proof.
  pose proof (sentimentsDisjoint_corpus loc) as H.
  unfold sentimentsDisjoint in H.
  apply andb_true_iff in H. destruct H as [H H3].
  apply andb_true_iff in H. destruct H as [H1 H2].
  intros Hs Hs'.
  destruct s, s'; try reflexivity; cbn [bySentiment] in Hs, Hs'; exfalso;
    eauto using disjointb_spec.
Qed.

Lemma rating_values_range (sen : sentiment) (v : Z) :
  In v (map snd (ratingWeights sen)) -> 1 <= v <= 5.
Proof.
  destruct sen; cbn; intuition lia.
Qed.

Lemma sat_generateReviewText (F : Faker) (g : BookDataGenerator)
  (sen : sentiment) (E : exn -> Prop) :
  FakerOk F ->
  E TypeError \/ In (locale g) supportedLocales ->
  sat F (generateReviewText g sen)
      (fun t => In t (bySentiment (corpusOf (locale g)) sen)) E.
Proof.
  intros HF HE. unfold generateReviewText.
  destruct (orElse (getProperty reviewsTable (locale g)) reviews_enUS)
    as [lr|m] eqn:El.
  - apply orElse_reviewsTable in El. subst lr.
    apply sat_arrayElement; [exact HF|apply bySentiment_nonempty].
  - destruct HE as [HE|HE].
    + intros s. exact HE.
    + exfalso. destruct (orElse_reviewsTable_supported _ HE) as [lr H].
      congruence.
Qed.

Lemma sat_determineReviewSentiment (F : Faker) (likes : Z) E :
  sat F (determineReviewSentiment likes) (fun _ => True) E.
Proof. intros s. rewrite run_determineReviewSentiment. exact I. Qed.

Lemma sat_generateReview_with (F : Faker) (P : Platform)
  (g : BookDataGenerator) (likes : Z) (E : exn -> Prop) :
  FakerOk F ->
  (forall sen, sat F (generateReviewText g sen)
                   (fun t => In t (bySentiment (corpusOf (locale g)) sen)) E) ->
  E RangeError \/ (forall d, toLocaleDateString P (locale g) d <> None) ->
  sat F (generateReview P g likes)
      (fun r => 1 <= rating r <= 5 /\ jointlySampled (locale g) r) E.
Proof.
  intros HF HT HR. unfold generateReview.
  eapply sat_bind; [apply sat_determineReviewSentiment|]. intros sen _.
  eapply sat_bind.
  { unfold generateRatingFromSentiment.
    apply sat_weightedArrayElement; [exact HF|destruct sen; discriminate]. }
  intros v Hv. cbv beta in Hv.
  eapply sat_bind; [apply HT|].
  intros t Ht. cbv beta in Ht.
  eapply sat_bind; [apply sat_perform with (Q := fun _ => True); auto|].
  intros who _.
  eapply sat_bind; [apply sat_perform with (Q := fun _ => True); auto|].
  intros d _.
  destruct (toLocaleDateString P (locale g) d) as [shown|] eqn:Ed.
  - apply sat_ret. cbn [rating text]. split.
    + exact (rating_values_range sen v Hv).
    + exists sen. cbn [rating text]. split; [exact Hv|]. split; [exact Ht|].
      intros s' Hne Hin. apply Hne.
      eapply corpus_one_sentiment; eauto.
  - destruct HR as [HR|HR].
    + intros s. exact HR.
    + exfalso. exact (HR d Ed).
Qed.

Lemma sat_generateReview (F : Faker) (P : Platform) (g : BookDataGenerator)
  (likes : Z) (E : exn -> Prop) :
  FakerOk F ->
  E TypeError \/ In (locale g) supportedLocales ->
  E RangeError \/ (forall d, toLocaleDateString P (locale g) d <> None) ->
  sat F (generateReview P g likes)
      (fun r => 1 <= rating r <= 5 /\ jointlySampled (locale g) r) E.
Proof.
  intros HF HT HR. apply sat_generateReview_with; [exact HF| |exact HR].
  intros sen. now apply sat_generateReviewText.
Qed.

Lemma run_bind_Ok (F : Faker) {A B : Type} (m : prog A) (f : A -> prog B)
  (s s' : rng F) (b : B) :
  run F (bind m f) s = (Ok b, s') ->
  exists a s1, run F m s = (Ok a, s1) /\ run F (f a) s1 = (Ok b, s').
Proof.
  rewrite run_bind. destruct (run F m s) as [[a|e] s1]; [|discriminate].
  intros H. now exists a, s1.
Qed.

Lemma run_repeatM_Ok (F : Faker) {A : Type} (body : prog A) (n : nat)
  (s s' : rng F) (l : list A) :
  run F (repeatM n body) s = (Ok l, s') ->
  threaded (fun st a st1 => run F body st = (Ok a, st1)) s l s'.
Proof.
  revert s l. induction n as [|n IH]; intros s l; cbn [repeatM].
  - intros [= <- <-]. constructor.
  - intros H. apply run_bind_Ok in H. destruct H as (x & s1 & Hx & H).
    apply run_bind_Ok in H. destruct H as (xs & s2 & Hxs & H).
    cbn [run] in H. injection H as <- <-.
    econstructor; [exact Hx|]. now apply IH.
Qed.

Lemma threaded_impl {S A : Type} (step step' : S -> A -> S -> Prop)
  (s s' : S) (l : list A) :
  (forall st a st1, step st a st1 -> step' st a st1) ->
  threaded step s l s' -> threaded step' s l s'.
Proof.
  intros H T. induction T; econstructor; eauto.
Qed.

Lemma threaded_Forall {S A : Type} (step : S -> A -> S -> Prop)
  (Q : A -> Prop) (s s' : S) (l : list A) :
  (forall st a st1, step st a st1 -> Q a) ->
  threaded step s l s' -> Forall Q l.
Proof.
  intros H T. induction T; constructor; eauto.
Qed.

Lemma run_arrayElement (F : Faker) {A : Type} (array : list A) (s : rng F) :
  run F (arrayElement array) s =
  (match nth_error array
           (fst (draw F (ArrayElementIndex (List.length array)) s)) with
   | Some x => Ok x
   | None => Thrown FakerError
   end,
   snd (draw F (ArrayElementIndex (List.length array)) s)).
Proof.
  unfold arrayElement. cbn [bind perform run].
  destruct (draw F (ArrayElementIndex (List.length array)) s) as [j s'].
  cbn [fst snd]. destruct (nth_error array j); reflexivity.
Qed.

(** A review that [generateReview] returns is sampled as the
    specification says, from the state in which the call starts. *)
Lemma run_generateReview_Ok (F : Faker) (P : Platform) (g : BookDataGenerator)
  (likes : Z) (st st' : rng F) (r : Review) :
  FakerOk F ->
  run F (generateReview P g likes) st = (Ok r, st') ->
  sampledReview F (locale g) likes st r st'.
Proof.
  intros HF H. unfold generateReview in H.
  apply run_bind_Ok in H. destruct H as (sen & s1 & Hsen & H).
  destruct (determineReviewSentiment_pick F likes st HF)
    as (b & sen0 & Hb & Hpick & Hrun).
  rewrite Hrun in Hsen. injection Hsen as -> <-.
  apply run_bind_Ok in H. destruct H as (v & s2 & Hv & H).
  rewrite run_generateRatingFromSentiment in Hv.
  apply run_bind_Ok in H. destruct H as (t & s3 & Ht & H).
  unfold generateReviewText in Ht.
  destruct (orElse (getProperty reviewsTable (locale g)) reviews_enUS)
    as [lr|m] eqn:El; [|discriminate].
  apply orElse_reviewsTable in El. subst lr.
  rewrite run_arrayElement in Ht.
  apply run_bind_Ok in H. destruct H as (who & s4 & Hwho & H).
  rewrite run_perform in Hwho. injection Hwho as <- <-.
  apply run_bind_Ok in H. destruct H as (d & s5 & Hd & H).
  rewrite run_perform in Hd. injection Hd as <- <-.
  destruct (toLocaleDateString P (locale g) _) as [shown|]; [|discriminate].
  cbn [run] in H. injection H as <- <-.
  set (ratingCall := WeightedIndex (map fst (ratingWeights sen))) in *.
  set (st1 := snd (draw F (NumberFloat 0 1) st)) in *.
  destruct (nth_error (ratingWeights sen) (fst (draw F ratingCall st1)))
    as [wv|] eqn:Ewv; [|discriminate].
  injection Hv as <- <-.
  set (corpus := bySentiment (corpusOf (locale g)) sen) in *.
  set (textCall := ArrayElementIndex (List.length corpus)) in *.
  set (st2 := snd (draw F ratingCall st1)) in *.
  destruct (nth_error corpus (fst (draw F textCall st2))) as [x|] eqn:Ex;
    [|discriminate].
  injection Ht as <- <-.
  exists b, sen. cbv zeta. cbn [rating text reviewer].
  fold ratingCall. fold st1. fold st2. fold corpus. fold textCall.
  split; [exact Hb|]. split; [exact Hpick|].
  split; [now apply map_nth_error|]. split; [exact Ex|].
  split; [|split; reflexivity].
  intros sen' Hne Hin. apply Hne.
  apply (corpus_one_sentiment (locale g) sen sen' x); [|exact Hin].
  apply (nth_error_In _ _ Ex).
Qed.

Lemma sampledReview_jointly (F : Faker) (loc : jsstring) (likes : Z)
  (st st' : rng F) (r : Review) :
  sampledReview F loc likes st r st' ->
  1 <= rating r <= 5 /\ jointlySampled loc r.
Proof.
  intros (b & sen & _ & _ & Hr & Ht & Hother & _).
  apply nth_error_In in Hr. apply nth_error_In in Ht.
  split; [exact (rating_values_range sen _ Hr)|].
  exists sen. auto.
Qed.

(** The reviews of a record that [generateBook] returns are the results
    of the successive runs of the loop body, for the likes of the
    record. *)
Lemma run_generateBook_reviews (F : Faker) (P : Platform)
  (g : BookDataGenerator) (i : Z) (s s' : rng F) (b : Book) :
  run F (generateBook P g i) s = (Ok b, s') ->
  exists st st',
    threaded (fun st a st1 => run F (generateReview P g (likes b)) st
                              = (Ok a, st1))
             st (reviews b) st'.
Proof.
  intros H. unfold generateBook in H.
  apply run_bind_Ok in H. destruct H as (? & s0 & _ & H).
  apply run_bind_Ok in H. destruct H as (title & s1 & _ & H).
  apply run_bind_Ok in H. destruct H as (numAuthors & s2 & _ & H).
  apply run_bind_Ok in H. destruct H as (authors & s3 & _ & H).
  apply run_bind_Ok in H. destruct H as (company & s4 & _ & H).
  apply run_bind_Ok in H. destruct H as (publisherType & s5 & _ & H).
  apply run_bind_Ok in H. destruct H as (born & s6 & _ & H).
  apply run_bind_Ok in H. destruct H as (count & s7 & _ & H).
  apply run_bind_Ok in H. destruct H as (numReviews & s8 & _ & H).
  apply run_bind_Ok in H. destruct H as (revs & s9 & Hrev & H).
  apply run_bind_Ok in H. destruct H as (code & s10 & _ & H).
  apply run_bind_Ok in H. destruct H as (cover & s11 & _ & H).
  cbn [run] in H. injection H as <- <-. cbn [likes reviews].
  exists s8, s9. apply (run_repeatM_Ok F _ _ _ _ _ Hrev).
Qed.

(** C6 -- In every record that [generateBook] returns, the reviews are
    sampled one after the other from the random source, each from one
    sentiment: one uniform draw selects the sentiment, in the band of
    the likes of the record; the rating is the entry that the next draw
    picks in the rating table of that sentiment, and the text the entry
    that the following draw picks in the corpus of the locale (the
    default one for a locale without tables) for that same sentiment.
    Hence every rating is an integer between 1 and 5 and a value of the
    table of a sentiment whose corpus holds the text, and the text
    belongs to the corpus of no other sentiment. *)
Theorem reviews_jointly_sampled (F : Faker) (P : Platform)
  (g : BookDataGenerator) (i : Z) (s s' : rng F) (b : Book) :
  FakerOk F ->
  run F (generateBook P g i) s = (Ok b, s') ->
  (exists st st',
     threaded (sampledReview F (locale g) (likes b)) st (reviews b) st')
  /\ Forall (fun r => 1 <= rating r <= 5 /\ jointlySampled (locale g) r)
            (reviews b).
Proof.
  intros HF Hb.
  destruct (run_generateBook_reviews F P g i s s' b Hb) as (st & st' & T).
  assert (T' : threaded (sampledReview F (locale g) (likes b)) st (reviews b) st').
  { eapply threaded_impl; [|exact T].
    intros st0 r st1. now apply run_generateReview_Ok. }
  split; [now exists st, st'|].
  eapply threaded_Forall; [|exact T'].
  intros st0 r st1. apply sampledReview_jointly.
Qed.

Lemma reviews_jointly_sampled_witness :
  exists b s',
    run refFaker (generateBook refPlatform demo 1) 0 = (Ok b, s')
    /\ List.length (reviews b) = 5%nat
    /\ (exists st st',
          threaded (sampledReview refFaker (locale demo) (likes b))
                   st (reviews b) st')
    /\ Forall (fun r => 1 <= rating r <= 5 /\ jointlySampled (locale demo) r)
              (reviews b).
Proof.
  do 2 eexists. split; [vm_compute; reflexivity|]. split; [reflexivity|].
  eapply (reviews_jointly_sampled refFaker refPlatform demo 1 0);
    [exact refFaker_ok|].
  vm_compute. reflexivity.
Defined.

(** ** Generation succeeds on the locales of the schema *)

Ltac sat_steps :=
  repeat first
    [ apply sat_ret; exact I
    | apply sat_perform with (Q := fun _ => True); intros; exact I
    | eapply sat_bind with (R := fun _ => True); [|intros ? _] ].

Lemma sat_template (F : Faker) (P : Platform) (t : prog jsstring) E :
  In t (templates_enUS P ++ templates_deDE P ++ templates_jaJP P) ->
  sat F t (fun _ => True) E.
Proof.
  cbn [templates_enUS templates_deDE templates_jaJP app In].
  intros H.
  repeat (destruct H as [<-|H]; [unfold adjective, noun; sat_steps|]).
  destruct H.
Qed.

Lemma orElse_titleTemplates (P : Platform) (loc : jsstring)
  (ts : list (prog jsstring)) :
  orElse (getProperty (titleTemplates P) loc) (templates_enUS P) = inl ts ->
  ts = templates_enUS P \/ ts = templates_deDE P \/ ts = templates_jaJP P.
Proof.
  unfold getProperty, titleTemplates. cbn [find fst snd].
  destruct (jseqb (js "en-US") loc); [cbn; intros [= <-]; auto|].
  destruct (jseqb (js "de-DE") loc); [cbn; intros [= <-]; auto|].
  destruct (jseqb (js "ja-JP") loc); [cbn; intros [= <-]; auto|].
  destruct (find _ objectPrototypeMembers); cbn;
    [discriminate|intros [= <-]; auto].
Qed.

Lemma orElse_titleTemplates_supported (P : Platform) (loc : jsstring) :
  In loc supportedLocales ->
  exists ts,
    orElse (getProperty (titleTemplates P) loc) (templates_enUS P) = inl ts.
Proof.
  intros H. apply supported_cases in H.
  unfold getProperty, titleTemplates. cbn [find fst snd].
  destruct H as [-> | [-> | ->]].
  - rewrite jseqb_refl. eexists; reflexivity.
  - change (jseqb (js "en-US") (js "de-DE")) with false.
    rewrite jseqb_refl. eexists; reflexivity.
  - change (jseqb (js "en-US") (js "ja-JP")) with false.
    change (jseqb (js "de-DE") (js "ja-JP")) with false.
    rewrite jseqb_refl. eexists; reflexivity.
Qed.

Lemma sat_generateBookTitle (F : Faker) (P : Platform) (g : BookDataGenerator)
  (E : exn -> Prop) :
  FakerOk F ->
  In (locale g) supportedLocales ->
  sat F (generateBookTitle P g) (fun _ => True) E.
Proof.
  intros HF HE. unfold generateBookTitle.
  destruct (orElse_titleTemplates_supported P _ HE) as [ts Et]. rewrite Et.
  apply orElse_titleTemplates in Et.
  eapply sat_bind.
  - apply sat_arrayElement; [exact HF|].
    destruct Et as [-> | [-> | ->]]; discriminate.
  - intros t Ht. cbv beta in Ht. apply (sat_template F P).
    destruct Et as [-> | [-> | ->]]; rewrite !in_app_iff; auto.
Qed.

Lemma sat_generateISBN (F : Faker) (P : Platform) (E : exn -> Prop) :
  FakerOk F -> sat F (generateISBN P) (fun _ => True) E.
Proof.
  intros HF. unfold generateISBN.
  eapply sat_bind; [apply sat_arrayElement; [exact HF|discriminate]|].
  intros prefix _. sat_steps.
Qed.

Lemma sat_publisherType (F : Faker) (E : exn -> Prop) :
  FakerOk F -> sat F (arrayElement publisherTypes) (fun _ => True) E.
Proof.
  intros HF. eapply sat_weaken.
  - apply sat_arrayElement; [exact HF|discriminate].
  - intros; exact I.
Qed.

(** On a locale of the schema [generateBook] returns a record, with the
    index it was asked for. *)
Lemma generateBook_returns (F : Faker) (P : Platform) (g : BookDataGenerator)
  (i : Z) :
  FakerOk F -> PlatformOk P -> In (locale g) supportedLocales ->
  sat F (generateBook P g i) (fun b => index b = i) noThrow.
Proof.
  intros HF HP Hl.
  eapply sat_weaken.
  - apply (sat_generateBook F P g i noThrow
             (fun r => 1 <= rating r <= 5 /\ jointlySampled (locale g) r)).
    + apply sat_generateBookTitle; auto.
    + apply sat_publisherType; auto.
    + apply sat_generateISBN; auto.
    + intros likes. apply sat_generateReview; auto.
    + intros s. right. apply (int_range F HF 1 3 s). lia.
  - intros b H. apply H.
Qed.

(** ** The handler *)

Lemma validate_inv (b : RequestBody) (v : BookRequest) :
  validate b = Some v -> In (req_locale v) supportedLocales /\ 0 <= page v.
Proof.
  unfold validate.
  destruct (body_page b) as [p|]; [|discriminate].
  destruct (body_seed b) as [sd|]; [|discriminate].
  destruct (body_avgLikes b) as [al|]; [|discriminate].
  destruct (body_avgReviews b) as [ar|]; [|discriminate].
  match goal with
  | |- (if ?c then _ else _) = _ -> _ => destruct c eqn:Ec; [|discriminate]
  end.
  intros [= <-]. cbn [req_locale page].
  repeat (apply andb_true_iff in Ec; destruct Ec as [Ec ?]).
  split.
  - match goal with
    | H : existsb _ _ = true |- _ =>
      apply existsb_exists in H; destruct H as (x & Hx & Hxe)
    end.
    apply jseqb_eq in Hxe. now subst x.
  - match goal with
    | H : Qle_bool 0 p = true |- _ => apply Qle_bool_iff in H;
        apply Qfloor_resp_le in H; exact H
    end.
Qed.

Lemma Forall2_index_map (start : Z) (ks : list nat) (books : list Book) :
  Forall2 (fun j b => index b = numAdd start j)
          (map (fun k => 0 + Z.of_nat k) ks) books ->
  map index books = map (fun k => numAdd start (Z.of_nat k)) ks.
Proof.
  revert books. induction ks as [|k ks IH]; intros books H;
    inversion H as [|j bk js bks Hj Hrest]; subst; cbn.
  - reflexivity.
  - f_equal; [rewrite Hj; reflexivity|now apply IH].
Qed.

(** A request that passes the schema is answered by the page of its
    number: the records of the indices that the loop computes from
    [startIndex], [pageCount] of them. *)
Lemma apiBooks_page (F : Faker) (P : Platform) (now : Z) (b : RequestBody)
  (v : BookRequest) (s : rng F) :
  FakerOk F -> PlatformOk P -> validate b = Some v ->
  exists books meta,
    fst (apiBooks F P now b s) = Json books (page v) (page v <? 50) meta
    /\ map index books
       = map (fun k => numAdd (startIndex (page v)) (Z.of_nat k))
             (seq 0 (Z.to_nat (pageCount (page v)))).
Proof.
  intros HF HP Hv. unfold apiBooks. rewrite Hv.
  destruct (validate_inv b v Hv) as [Hl _].
  pose proof (sat_forFrom F
                (fun i => generateBook P (generatorOf v)
                                       (numAdd (startIndex (page v)) i))
                (fun j bk => index bk = numAdd (startIndex (page v)) j) noThrow
                (Z.to_nat (pageCount (page v))) 0
                (fun j => generateBook_returns F P (generatorOf v) _ HF HP Hl) s)
    as H.
  unfold generatePage.
  destruct (run F _ s) as [[books|e] s'] eqn:Er; cbn [fst] in H |- *.
  - do 2 eexists. split; [reflexivity|]. now apply Forall2_index_map.
  - destruct H.
Qed.

Lemma apiBooks_length (F : Faker) (P : Platform) (now : Z) (b : RequestBody)
  (v : BookRequest) (s : rng F) :
  FakerOk F -> PlatformOk P -> validate b = Some v ->
  List.length (booksOf (fst (apiBooks F P now b s)))
  = Z.to_nat (pageCount (page v)).
Proof.
  intros HF HP Hv.
  destruct (apiBooks_page F P now b v s HF HP Hv) as (books & meta & Hr & Hi).
  rewrite Hr. cbn [booksOf].
  rewrite <- (length_map index books), Hi, length_map, length_seq. reflexivity.
Qed.

(** Up to [maxExactPage] the first index of a page and the indices of
    its records are the exact ones. *)
Lemma startIndex_exact (page : Z) :
  0 <= page <= maxExactPage -> startIndex page = firstIndexOf page.
Proof.
  unfold startIndex, firstIndexOf, maxExactPage. intros H.
  destruct (page =? 0) eqn:E; [reflexivity|]. apply Z.eqb_neq in E.
  rewrite numSub_exact by (unfold maxExact; lia).
  rewrite numMul_exact by (unfold maxExact; lia).
  rewrite (numAdd_exact 20) by (unfold maxExact; lia).
  apply numAdd_exact. unfold maxExact. lia.
Qed.

Lemma page_indices_exact (page : Z) :
  0 <= page <= maxExactPage ->
  map (fun k => numAdd (startIndex page) (Z.of_nat k))
      (seq 0 (Z.to_nat (pageCount page)))
  = map (fun k => firstIndexOf page + Z.of_nat k)
        (seq 0 (Z.to_nat (pageCount page))).
Proof.
  intros H. apply map_ext_in. intros k Hk. apply in_seq in Hk.
  rewrite (startIndex_exact page H).
  apply numAdd_exact.
  unfold firstIndexOf, pageCount, maxExactPage, maxExact in *.
  destruct (page =? 0) eqn:E.
  - change (Z.to_nat 20) with 20%nat in Hk. lia.
  - apply Z.eqb_neq in E. change (Z.to_nat 10) with 10%nat in Hk. lia.
Qed.

Lemma indicesUpTo_NoDup (n : nat) : NoDup (indicesUpTo n).
Proof.
  unfold indicesUpTo. apply Injective_map_NoDup.
  - intros a b. apply Nat2Z.inj.
  - apply seq_NoDup.
Qed.

Lemma map_offset_seq_from (start o len : nat) :
  map (fun k => Z.of_nat start + Z.of_nat k) (seq o len)
  = map Z.of_nat (seq (start + o) len).
Proof.
  revert o. induction len as [|len IH]; intros o; cbn.
  - reflexivity.
  - f_equal; [lia|]. rewrite IH. f_equal. f_equal. lia.
Qed.

Lemma map_offset_seq (start : nat) (z : Z) (len : nat) :
  z = Z.of_nat start ->
  map (fun k => z + Z.of_nat k) (seq 0 len) = map Z.of_nat (seq start len).
Proof.
  intros ->. rewrite map_offset_seq_from. now rewrite Nat.add_0_r.
Qed.

Lemma page_indices (n : nat) :
  map (fun k => firstIndexOf (Z.of_nat n) + Z.of_nat k)
      (seq 0 (Z.to_nat (pageCount (Z.of_nat n))))
  = map Z.of_nat (seq (match n with O => 1 | S m => 21 + 10 * m end)
                      (match n with O => 20 | S _ => 10 end)).
Proof.
  destruct n as [|m].
  - reflexivity.
  - unfold firstIndexOf, pageCount.
    destruct (Z.of_nat (S m) =? 0) eqn:E; [apply Z.eqb_eq in E; lia|].
    change (Z.to_nat 10) with 10%nat. apply map_offset_seq. lia.
Qed.

Lemma pages_concat (k : nat) :
  flat_map (fun n => map Z.of_nat
                         (seq (match n with O => 1 | S m => 21 + 10 * m end)
                              (match n with O => 20 | S _ => 10 end)))
           (seq 0 (S k))
  = indicesUpTo (20 + 10 * k).
Proof.
  induction k as [|k IH].
  - reflexivity.
  - rewrite seq_S, flat_map_app, IH.
    change (0 + S k)%nat with (S k). cbn [flat_map].
    rewrite app_nil_r. unfold indicesUpTo. rewrite <- map_app. f_equal.
    replace (20 + 10 * S k)%nat with ((20 + 10 * k) + 10)%nat by lia.
    replace (21 + 10 * k)%nat with (1 + (20 + 10 * k))%nat by lia.
    symmetry. apply seq_app.
Qed.

(** C2, as stated, fails: the handler computes the indices in doubles,
    and the schema accepts page numbers large enough for the indices of
    a page to pass [2^53].  At page [10^15] the ten indices are not
    consecutive, and some are returned twice. *)
Lemma pagination_rounded_counterexample :
  let books := booksOf (fst (apiBooks refFaker refPlatform 0
                   (bodyOf 1000000000000000 None 42 5 (47 # 10)) 0)) in
  map index books
  = map (fun d => 10000000000000000 + d) [12; 12; 14; 16; 16; 16; 18; 20; 20; 20]
  /\ map index books
     <> map (fun j => 20 + (1000000000000000 - 1) * 10 + 1 + Z.of_nat j)
            (seq 0 10)
  /\ ~ NoDup (map index books).
Proof.
  cbv zeta.
  assert (H : map index (booksOf (fst (apiBooks refFaker refPlatform 0
                   (bodyOf 1000000000000000 None 42 5 (47 # 10)) 0)))
              = map (fun d => 10000000000000000 + d)
                    [12; 12; 14; 16; 16; 16; 18; 20; 20; 20])
    by (vm_compute; reflexivity).
  rewrite H. split; [reflexivity|]. split.
  - vm_compute. discriminate.
  - intros Hd. inversion Hd as [|x l Hnot _]. apply Hnot. now left.
Qed.

(** C2, amended -- A request that passes the schema is answered by the
    page of its number: page 0 holds 20 records, of the indices 1 to 20;
    a page [k >= 1] holds 10 records, and they are those of the indices
    from [20 + (k-1)*10 + 1] on as long as [k] is at most
    [maxExactPage], the last page whose indices are at most [2^53];
    [hasMore] is false exactly when the page is at least 50.  The
    indices of the pages 0 to [k], one after the other, are exactly
    1, 2, ..., [20 + 10k], none twice, for [k] up to [maxExactPage]. *)
Theorem pagination_contiguity (F : Faker) (P : Platform) :
  FakerOk F -> PlatformOk P ->
  (forall now b v (s : rng F),
     validate b = Some v ->
     exists books meta,
       fst (apiBooks F P now b s) = Json books (page v) (page v <? 50) meta
       /\ (page v = 0 ->
           List.length books = 20%nat /\ map index books = indicesUpTo 20)
       /\ (1 <= page v ->
           List.length books = 10%nat
           /\ (page v <= maxExactPage ->
               map index books
               = map (fun j => 20 + (page v - 1) * 10 + 1 + Z.of_nat j)
                     (seq 0 10)))
       /\ ((page v <? 50) = false <-> 50 <= page v))
  /\ (forall (k : nat) (bodies : nat -> RequestBody) (nows : nat -> Z)
             (states : nat -> rng F),
        Z.of_nat k <= maxExactPage ->
        (forall n, (n <= k)%nat ->
           exists v, validate (bodies n) = Some v /\ page v = Z.of_nat n) ->
        flat_map (fun n => map index
                     (booksOf (fst (apiBooks F P (nows n) (bodies n) (states n)))))
                 (seq 0 (S k))
        = indicesUpTo (20 + 10 * k)
        /\ NoDup (indicesUpTo (20 + 10 * k))).
Proof.
  intros HF HP. split.
  - intros now b v s Hv.
    destruct (apiBooks_page F P now b v s HF HP Hv) as (books & meta & Hr & Hi).
    exists books, meta. split; [exact Hr|].
    assert (Hlen : List.length books = Z.to_nat (pageCount (page v))).
    { rewrite <- (length_map index books), Hi, length_map, length_seq.
      reflexivity. }
    split; [|split].
    + intros H0. rewrite H0 in Hi, Hlen. split; [exact Hlen|].
      rewrite Hi. apply (page_indices_exact 0). unfold maxExactPage. lia.
    + intros H1. unfold pageCount in Hlen.
      destruct (page v =? 0) eqn:E; [apply Z.eqb_eq in E; lia|].
      split; [exact Hlen|]. intros Hmax.
      rewrite Hi, page_indices_exact by lia.
      unfold pageCount, firstIndexOf. rewrite E. reflexivity.
    + rewrite Z.ltb_ge. reflexivity.
  - intros k bodies nows states Hk Hb. split; [|apply indicesUpTo_NoDup].
    rewrite <- pages_concat.
    assert (Hpage : forall n, (n <= k)%nat ->
      map index (booksOf (fst (apiBooks F P (nows n) (bodies n) (states n))))
      = map Z.of_nat (seq (match n with O => 1 | S m => 21 + 10 * m end)
                          (match n with O => 20 | S _ => 10 end))).
    { intros n Hn. destruct (Hb n Hn) as (v & Hv & Hp).
      destruct (apiBooks_page F P (nows n) (bodies n) v (states n) HF HP Hv)
        as (books & meta & Hr & Hi).
      rewrite Hr. cbn [booksOf]. rewrite Hi, Hp.
      rewrite page_indices_exact by lia. apply page_indices. }
    assert (Hseq : forall n, In n (seq 0 (S k)) -> (n <= k)%nat).
    { intros n Hn. apply in_seq in Hn. lia. }
    revert Hseq. generalize (seq 0 (S k)) as l.
    induction l as [|n l IH]; intros Hl; cbn [flat_map].
    + reflexivity.
    + rewrite Hpage by (apply Hl; now left).
      rewrite IH by (intros m Hm; apply Hl; now right). reflexivity.
Qed.

Lemma pagination_contiguity_witness :
  (exists books,
     booksOf (fst (apiBooks refFaker refPlatform 0
                            (bodyOf 1 None 42 5 (47 # 10)) 0)) = books
     /\ map index books = map (fun j => 21 + Z.of_nat j) (seq 0 10))
  /\ flat_map (fun n => map index
                 (booksOf (fst (apiBooks refFaker refPlatform 0
                                  (bodyOf (Z.of_nat n) None 42 5 (47 # 10)) 0))))
              (seq 0 3)
     = indicesUpTo 40.
Proof.
  destruct (pagination_contiguity refFaker refPlatform refFaker_ok refPlatform_ok)
    as [H1 H2].
  split.
  - destruct (H1 0 (bodyOf 1 None 42 5 (47 # 10))
                 {| page := 1; req_locale := js "en-US"; req_seed := 42;
                    req_avgLikes := 5; req_avgReviews := 47 # 10 |} 0
                 ltac:(vm_compute; reflexivity))
      as (books & meta & Hr & _ & Hk & _).
    exists books. rewrite Hr. split; [reflexivity|].
    apply Hk; [cbn; lia|vm_compute; discriminate].
  - apply (H2 2%nat (fun n => bodyOf (Z.of_nat n) None 42 5 (47 # 10))
              (fun _ => 0) (fun _ => 0)).
    + vm_compute. discriminate.
    + intros n Hn.
      exists {| page := Z.of_nat n; req_locale := js "en-US"; req_seed := 42;
                req_avgLikes := 5; req_avgReviews := 47 # 10 |}.
      split; [|reflexivity].
      destruct n as [|[|[|n]]]; try lia; vm_compute; reflexivity.
Defined.



(** ** Locales outside the schema *)




Lemma run_arrayElementOfMember_throw (F : Faker) {A : Type}
  (length : option Z) (s : rng F) :
  exists e,
    fst (run F (arrayElementOfMember length ;;; @Throw A TypeError) s)
    = Thrown e.
Proof.
  destruct length as [l|]; cbn [arrayElementOfMember].
  - destruct (l =? 0); [eexists; reflexivity|].
    destruct (1 <? l); [|eexists; reflexivity].
    cbn [bind perform run]. destruct (draw F (NumberInt 0 (l - 1)) s).
    eexists; reflexivity.
  - eexists; reflexivity.
Qed.



(** On the reference platform, whose date formatter rejects a tag that is
    not well formed, a locale such as [en_US] makes [generateBook] throw
    as soon as the record has a review. *)
Lemma generateBook_throws_on_malformed_tag :
  fst (run refFaker (generateBook refPlatform underscoreLocale 1) 0)
  = Thrown RangeError.
Proof. vm_compute. reflexivity. Qed.



(* ================================================================== *)
(** * Further properties of the generator *)

(** ** The fingerprint as a polynomial hash *)

(** X1 -- The loop of [hashParameters] computes the polynomial hash of
    multiplier 31 of the code units of the parameter string, wrapped to
    a signed 32-bit integer; the fingerprint is its absolute value, and
    lies between 0 and 2^31 inclusive. *)
Theorem hashParameters_polynomial (P : Platform) (g : BookDataGenerator) :
  hashString (paramString P g) = toInt32 (polyHash (paramString P g))
  /\ hashParameters P g = Z.abs (toInt32 (polyHash (paramString P g)))
  /\ 0 <= hashParameters P g <= 2147483648.
Proof.
  assert (H : forall str, hashString str = toInt32 (polyHash str)).
  { intros str. unfold hashString, polyHash.
    change 0 with (toInt32 0) at 1. apply hashString_from. }
  unfold hashParameters. rewrite H.
  split; [reflexivity|]. split; [reflexivity|].
  pose proof (toInt32_range (polyHash (paramString P g))). lia.
Qed.

(** ** Neighbouring seeds *)

Lemma run_bind_mapRun (F : Faker) {A B C : Type} (u : B -> C) (m : prog A)
  (f : A -> prog C) (f' : A -> prog B) (s : rng F) :
  (forall a s', run F (f a) s' = mapRun u (run F (f' a) s')) ->
  run F (bind m f) s = mapRun u (run F (bind m f') s).
Proof.
  intros H. rewrite !run_bind.
  destruct (run F m s) as [[a|e] s']; [apply H|reflexivity].
Qed.

Lemma hashParameters_seedOnly (P : Platform) (g : BookDataGenerator) (sd : Z) :
  hashParameters P (seedOnly g sd) = hashParameters P g.
Proof. reflexivity. Qed.

Lemma uniqueSeed_shift (P : Platform) (g : BookDataGenerator) (d i : Z) :
  exactRange (seedOnly g (baseSeed g + d)) i -> exactRange g (i + d) ->
  uniqueSeed P (seedOnly g (baseSeed g + d)) i = uniqueSeed P g (i + d).
Proof.
  intros H1 H2. rewrite !uniqueSeed_exact by assumption.
  rewrite hashParameters_seedOnly. cbn [baseSeed seedOnly]. lia.
Qed.

Lemma imageId_shift (P : Platform) (g : BookDataGenerator) (d i : Z) :
  exactRange (seedOnly g (baseSeed g + d)) i -> exactRange g (i + d) ->
  imageId P (seedOnly g (baseSeed g + d)) i = imageId P g (i + d).
Proof.
  intros H1 H2.
  change (Z.rem (uniqueSeed P (seedOnly g (baseSeed g + d)) i) 1000
          = Z.rem (uniqueSeed P g (i + d)) 1000).
  now rewrite uniqueSeed_shift.
Qed.

(** X2 -- The seed and the index enter a record through their sum only,
    as long as that sum is exact
    ([|seed| + 2^31 + |index| <= 2^53] on both sides): the record of
    index [i] under the seed [seed + d] is the record of index [i + d]
    under the seed [seed], with [i] for its index, and the random source
    is left in the same state.  The dataset of a neighbouring seed is
    the same dataset, shifted. *)
Theorem generateBook_seed_shift (F : Faker) (P : Platform)
  (g : BookDataGenerator) (d i : Z) (s : rng F) :
  exactRange (seedOnly g (baseSeed g + d)) i -> exactRange g (i + d) ->
  run F (generateBook P (seedOnly g (baseSeed g + d)) i) s
  = mapRun (withIndex i) (run F (generateBook P g (i + d)) s).
Proof.
  intros Hr Hr'. unfold generateBook.
  rewrite (run_bind F (setSeedForIndex P g (i + d))).
  rewrite (run_bind F (setSeedForIndex P (seedOnly g (baseSeed g + d)) i)).
  rewrite !run_setSeedForIndex, uniqueSeed_shift by assumption.
  generalize (seed F (uniqueSeed P g (i + d))). clear s. intros s.
  apply (run_bind_mapRun F (withIndex i) (generateBookTitle P g)).
  intros title s1.
  apply (run_bind_mapRun F (withIndex i) (perform (NumberInt 1 3))).
  intros numAuthors s2.
  apply (run_bind_mapRun F (withIndex i) (forLoop numAuthors (generateAuthor g))).
  intros authors s3.
  apply (run_bind_mapRun F (withIndex i) (perform CompanyName)).
  intros company s4.
  apply (run_bind_mapRun F (withIndex i) (arrayElement publisherTypes)).
  intros publisherType s5.
  apply (run_bind_mapRun F (withIndex i)
           (perform (DateBetween (js "1945-01-01") (js "2025-08-04")))).
  intros born s6.
  apply (run_bind_mapRun F (withIndex i) (generateExactCount (avgLikes g))).
  intros likes s7.
  apply (run_bind_mapRun F (withIndex i) (generateExactCount (avgReviews g))).
  intros numReviews s8.
  apply (run_bind_mapRun F (withIndex i)
           (forLoop numReviews (generateReview P g likes))).
  intros reviews s9.
  apply (run_bind_mapRun F (withIndex i) (generateISBN P)).
  intros isbn s10.
  unfold generateCoverImage. rewrite imageId_shift by assumption.
  destruct (nth_error authors 0); reflexivity.
Qed.

Lemma generateBook_seed_shift_witness :
  run refFaker (generateBook refPlatform (seedOnly demo (baseSeed demo + 1)) 1) 0
  = mapRun (withIndex 1) (run refFaker (generateBook refPlatform demo (1 + 1)) 0).
Proof.
  apply generateBook_seed_shift; vm_compute; discriminate.
Defined.

(** Near the end of the range of the safe integers the shift fails: the
    derived seeds of the two sides are rounded apart. *)
Lemma uniqueSeed_shift_rounded :
  uniqueSeed refPlatform (seedOnly demo (9007199254740990 + 1)) 1
  <> uniqueSeed refPlatform (seedOnly demo 9007199254740990) (1 + 1).
Proof. vm_compute. discriminate. Qed.

(** ** The fields of a record *)

(** The result of [generateBook], field by field, given what each of its
    steps returns. *)
Lemma sat_generateBook_fields (F : Faker) (P : Platform)
  (g : BookDataGenerator) (i : Z) (E : exn -> Prop)
  (T : jsstring -> Prop) (NA : Z -> Prop) (PT : jsstring -> Prop)
  (LK NR : Z -> Prop) (R : Review -> Prop) (IS : jsstring -> Prop) :
  sat F (generateBookTitle P g) T E ->
  sat F (perform (NumberInt 1 3)) NA E ->
  sat F (arrayElement publisherTypes) PT E ->
  sat F (generateExactCount (avgLikes g)) LK E ->
  sat F (generateExactCount (avgReviews g)) NR E ->
  (forall likes, sat F (generateReview P g likes) R E) ->
  sat F (generateISBN P) IS E ->
  E TypeError \/ (forall n, NA n -> 1 <= n) ->
  sat F (generateBook P g i)
      (fun b => index b = i
                /\ T (title b)
                /\ (exists n, NA n /\ List.length (authors b) = Z.to_nat n)
                /\ (exists company ty,
                      PT ty /\ publisher b = company ++ js " " ++ ty)
                /\ LK (likes b)
                /\ (exists r, NR r /\ List.length (reviews b) = Z.to_nat r)
                /\ Forall R (reviews b)
                /\ IS (isbn b)) E.
Proof.
  intros Ht Hna Hpt Hlk Hnr Hr His Hone. unfold generateBook.
  eapply sat_bind; [apply sat_setSeedForIndex|]. intros _ _.
  eapply sat_bind; [exact Ht|]. intros title HT.
  eapply sat_bind; [exact Hna|]. intros numAuthors HNA.
  eapply sat_bind; [apply sat_repeatM, sat_generateAuthor|].
  intros authors [Hlen _].
  eapply sat_bind; [apply sat_perform with (Q := fun _ => True); auto|].
  intros company _.
  eapply sat_bind; [exact Hpt|]. intros publisherType HPT.
  eapply sat_bind; [apply sat_perform with (Q := fun _ => True); auto|].
  intros born _.
  eapply sat_bind; [exact Hlk|]. intros likes HLK.
  eapply sat_bind; [exact Hnr|]. intros numReviews HNR.
  eapply sat_bind; [apply sat_repeatM, Hr|]. intros reviews [Hrl Hrev].
  eapply sat_bind; [exact His|]. intros isbn HIS.
  eapply sat_bind.
  - apply sat_generateCoverImage.
    destruct Hone as [H|H]; [now left|right].
    specialize (H numAuthors HNA). intros ->. simpl in Hlen. lia.
  - intros c _. apply sat_ret. cbn.
    split; [reflexivity|]. split; [exact HT|].
    split; [exists numAuthors; now split|].
    split; [exists company, publisherType; now split|].
    split; [exact HLK|].
    split; [exists numReviews; now split|].
    split; [exact Hrev|exact HIS].
Qed.

Lemma sat_generateExactCount_count (F : Faker) (target : Q) E :
  sat F (generateExactCount target) (countFor target) E.
Proof.
  intros s. rewrite run_generateExactCount. unfold countFor.
  destruct (Qeq_bool target 0) eqn:E0.
  - apply Qeq_bool_iff in E0. cbn [fst].
    rewrite (Qfloor_comp _ _ E0). change (Qfloor 0) with 0.
    split; [lia|reflexivity].
  - destruct (Qlt_bool 0 (target - inject_Z (Qfloor target))) eqn:E1;
      cbn [fst].
    + apply Qlt_bool_iff in E1.
      split; [destruct (Qlt_bool _ _); lia|].
      intros H0. rewrite H0 in E1. exfalso. exact (Qlt_irrefl 0 E1).
    + split; [lia|reflexivity].
Qed.

Lemma sat_generateISBN_shape (F : Faker) (P : Platform) E :
  FakerOk F -> sat F (generateISBN P) (isbnShape P) E.
Proof.
  intros HF. unfold generateISBN.
  eapply sat_bind; [apply sat_arrayElement; [exact HF|discriminate]|].
  intros prefix Hp. cbv beta in Hp.
  eapply sat_bind.
  { apply sat_perform with (Q := fun n => 0 <= n <= 9).
    intros s. apply (int_range F HF). lia. }
  intros group Hg.
  eapply sat_bind.
  { apply sat_perform with (Q := fun n => 10 <= n <= 999).
    intros s. apply (int_range F HF). lia. }
  intros publisher Hpu.
  eapply sat_bind.
  { apply sat_perform with (Q := fun n => 10 <= n <= 999).
    intros s. apply (int_range F HF). lia. }
  intros title Hti.
  eapply sat_bind.
  { apply sat_perform with (Q := fun n => 0 <= n <= 9).
    intros s. apply (int_range F HF). lia. }
  intros checkDigit Hc.
  apply sat_ret. exists prefix, group, publisher, title, checkDigit.
  repeat (split; [assumption|]).
  split; [|split; [assumption|]].
  - destruct Hp as [<-|[<-|[]]]; auto.
  - split; [assumption|]. split; [assumption|]. split; [assumption|].
    reflexivity.
Qed.

Lemma js_nonempty_app (a b c : jsstring) : b <> [] -> a ++ b ++ c <> [].
Proof.
  intros Hb H. apply (f_equal (@List.length Z)) in H.
  rewrite !length_app in H. destruct b; [congruence|]. simpl in H. lia.
Qed.

Ltac title_steps :=
  repeat first
    [ apply sat_ret; exact I
    | apply sat_perform with (Q := fun _ => True); intros; exact I
    | eapply sat_bind with (R := fun _ => True); [|intros ? _] ].

Lemma sat_template_nonempty (F : Faker) (P : Platform) (t : prog jsstring) E :
  In t (templates_enUS P ++ templates_deDE P ++ templates_jaJP P) ->
  sat F t (fun r => r <> []) E.
Proof.
  cbn [templates_enUS templates_deDE templates_jaJP app In].
  intros H.
  repeat (destruct H as [<-|H];
          [unfold adjective, noun; title_steps; apply sat_ret;
           first [ discriminate
                 | apply (js_nonempty_app []); discriminate
                 | apply js_nonempty_app; discriminate ]|]).
  destruct H.
Qed.

Lemma sat_generateBookTitle_nonempty (F : Faker) (P : Platform)
  (g : BookDataGenerator) (E : exn -> Prop) :
  FakerOk F ->
  (forall e, E e) \/ In (locale g) supportedLocales ->
  sat F (generateBookTitle P g) (fun t => t <> []) E.
Proof.
  intros HF HE. unfold generateBookTitle.
  destruct (orElse (getProperty (titleTemplates P) (locale g)) (templates_enUS P))
    as [ts|m] eqn:Et.
  - apply orElse_titleTemplates in Et.
    eapply sat_bind.
    + apply sat_arrayElement; [exact HF|].
      destruct Et as [-> | [-> | ->]]; discriminate.
    + intros t Ht. cbv beta in Ht. apply (sat_template_nonempty F P).
      destruct Et as [-> | [-> | ->]]; rewrite !in_app_iff; auto.
  - destruct HE as [HE|HE].
    + intros s.
      destruct (run_arrayElementOfMember_throw F (A := jsstring) m s)
        as [e He].
      rewrite He. apply HE.
    + exfalso. destruct (orElse_titleTemplates_supported P _ HE) as [ts H].
      congruence.
Qed.

Lemma generateBook_fields (F : Faker) (P : Platform) (g : BookDataGenerator)
  (i : Z) (E : exn -> Prop) :
  FakerOk F ->
  (forall e, E e) \/ (In (locale g) supportedLocales /\ PlatformOk P) ->
  sat F (generateBook P g i)
      (fun b => index b = i
                /\ title b <> []
                /\ (exists n, 1 <= n <= 3
                              /\ List.length (authors b) = Z.to_nat n)
                /\ (exists company ty,
                      In ty publisherTypes
                      /\ publisher b = company ++ js " " ++ ty)
                /\ countFor (avgLikes g) (likes b)
                /\ (exists r, countFor (avgReviews g) r
                              /\ List.length (reviews b) = Z.to_nat r)
                /\ Forall (fun r => 1 <= rating r <= 5
                                    /\ jointlySampled (locale g) r)
                          (reviews b)
                /\ isbnShape P (isbn b)) E.
Proof.
  intros HF HE.
  apply (sat_generateBook_fields F P g i E
           (fun t => t <> []) (fun n => 1 <= n <= 3)
           (fun ty => In ty publisherTypes)
           (countFor (avgLikes g)) (countFor (avgReviews g))
           (fun r => 1 <= rating r <= 5 /\ jointlySampled (locale g) r)
           (isbnShape P)).
  - apply sat_generateBookTitle_nonempty; [exact HF|].
    destruct HE as [HE|[HE _]]; auto.
  - apply sat_perform. intros s. apply (int_range F HF). lia.
  - apply sat_arrayElement; [exact HF|discriminate].
  - apply sat_generateExactCount_count.
  - apply sat_generateExactCount_count.
  - intros likes. apply sat_generateReview; [exact HF| |].
    + destruct HE as [HE|[HE _]]; auto.
    + destruct HE as [HE|[Hl HP]]; [left; apply HE|right].
      intros d. now apply HP.
  - now apply sat_generateISBN_shape.
  - right. intros n Hn. lia.
Qed.

(** X3 -- In every record that [generateBook] returns there are one to
    three authors; the likes are the floor of the target [avgLikes] or
    one more, and exactly the target when it is integral (0 for a target
    of 0); the number of reviews is drawn the same way from
    [avgReviews], a negative draw giving no review. *)
Theorem generateBook_counts (F : Faker) (P : Platform) (g : BookDataGenerator)
  (i : Z) (s : rng F) (b : Book) :
  FakerOk F ->
  fst (run F (generateBook P g i) s) = Ok b ->
  (1 <= List.length (authors b) <= 3)%nat
  /\ Qfloor (avgLikes g) <= likes b <= Qfloor (avgLikes g) + 1
  /\ ((avgLikes g - inject_Z (Qfloor (avgLikes g)) == 0)%Q ->
      likes b = Qfloor (avgLikes g))
  /\ exists r,
       List.length (reviews b) = Z.to_nat r
       /\ Qfloor (avgReviews g) <= r <= Qfloor (avgReviews g) + 1
       /\ ((avgReviews g - inject_Z (Qfloor (avgReviews g)) == 0)%Q ->
           r = Qfloor (avgReviews g)).
Proof.
  intros HF Hb.
  pose proof (generateBook_fields F P g i anyThrow HF
                (or_introl (fun _ => I)) s) as H.
  rewrite Hb in H.
  destruct H as (_ & _ & (n & Hn & Hlen) & _ & [Hl1 Hl2] & (r & [Hr1 Hr2] & Hrl) & _).
  split; [lia|]. split; [exact Hl1|]. split; [exact Hl2|].
  exists r. auto.
Qed.

Lemma generateBook_counts_witness :
  exists b,
    fst (run refFaker (generateBook refPlatform demo 1) 0) = Ok b
    /\ (1 <= List.length (authors b) <= 3)%nat
    /\ likes b = 5.
Proof.
  eexists. split; [vm_compute; reflexivity|].
  destruct (generateBook_counts refFaker refPlatform demo 1 0 _ refFaker_ok
              ltac:(vm_compute; reflexivity)) as (Ha & _ & Hl & _).
  split; [exact Ha|]. apply Hl. vm_compute. reflexivity.
Defined.

(** X4 -- The identifier of every record that [generateBook] returns is
    a prefix 978 or 979 and four numbers, joined by hyphens: one between
    0 and 9, two between 10 and 999, and a last one between 0 and 9. *)
Theorem generateBook_isbn_shape (F : Faker) (P : Platform)
  (g : BookDataGenerator) (i : Z) (s : rng F) (b : Book) :
  FakerOk F ->
  fst (run F (generateBook P g i) s) = Ok b ->
  exists prefix group publisher title checkDigit,
    (prefix = js "978" \/ prefix = js "979")
    /\ 0 <= group <= 9 /\ 10 <= publisher <= 999
    /\ 10 <= title <= 999 /\ 0 <= checkDigit <= 9
    /\ isbn b = prefix ++ js "-" ++ numberToString P (inject_Z group)
                ++ js "-" ++ numberToString P (inject_Z publisher)
                ++ js "-" ++ numberToString P (inject_Z title)
                ++ js "-" ++ numberToString P (inject_Z checkDigit).
Proof.
  intros HF Hb.
  pose proof (generateBook_fields F P g i anyThrow HF
                (or_introl (fun _ => I)) s) as H.
  rewrite Hb in H. apply H.
Qed.

Lemma generateBook_isbn_shape_witness :
  exists b,
    fst (run refFaker (generateBook refPlatform demo 1) 0) = Ok b
    /\ isbnShape refPlatform (isbn b)
    /\ isbn b = js "978-1-886-39-2".
Proof.
  eexists. split; [vm_compute; reflexivity|].
  split; [|vm_compute; reflexivity].
  apply (generateBook_isbn_shape refFaker refPlatform demo 1 0 _ refFaker_ok).
  vm_compute. reflexivity.
Defined.

(** X5 -- The title of every record that [generateBook] returns is not
    the empty string, whatever words the random source gives, and its
    publisher is a company name, a space and one of the five publisher
    types. *)
Theorem generateBook_title_publisher (F : Faker) (P : Platform)
  (g : BookDataGenerator) (i : Z) (s : rng F) (b : Book) :
  FakerOk F ->
  fst (run F (generateBook P g i) s) = Ok b ->
  title b <> []
  /\ exists company ty,
       In ty [js "Press"; js "Publishing"; js "Books"; js "Media"; js "House"]
       /\ publisher b = company ++ js " " ++ ty.
Proof.
  intros HF Hb.
  pose proof (generateBook_fields F P g i anyThrow HF
                (or_introl (fun _ => I)) s) as H.
  rewrite Hb in H. destruct H as (_ & Ht & _ & Hp & _). split; assumption.
Qed.

Lemma generateBook_title_publisher_witness :
  exists b,
    fst (run refFaker (generateBook refPlatform demo 1) 0) = Ok b
    /\ title b <> [].
Proof.
  eexists. split; [vm_compute; reflexivity|].
  apply (generateBook_title_publisher refFaker refPlatform demo 1 0 _
           refFaker_ok).
  vm_compute. reflexivity.
Defined.

(** ** Sentiment as a function of the likes *)

Lemma roundDouble_tenths (likes k : Z) :
  likes <= k ->
  (roundDouble (inject_Z likes / 10) <= roundDouble (inject_Z k / 10))%Q.
Proof.
  intros H. apply roundDouble_monotone.
  apply Qmult_le_compat_r; [now rewrite <- Zle_Qle|discriminate].
Qed.

Lemma popularityRatio_high (likes : Z) :
  Qlt_bool (literal (7 # 10)) (popularityRatio likes) = (8 <=? likes).
Proof.
  unfold popularityRatio.
  destruct (8 <=? likes) eqn:E.
  - apply Z.leb_le in E. apply Qlt_bool_iff.
    apply Q.min_glb_lt; [|vm_compute; reflexivity].
    eapply Qlt_le_trans; [|apply (roundDouble_tenths 8 likes E)].
    vm_compute. reflexivity.
  - apply Z.leb_gt in E. apply Qlt_bool_false_iff.
    eapply Qle_trans; [apply Q.le_min_l|].
    apply (roundDouble_tenths likes 7). lia.
Qed.

Lemma popularityRatio_middle (likes : Z) :
  Qlt_bool (literal (4 # 10)) (popularityRatio likes) = (5 <=? likes).
Proof.
  unfold popularityRatio.
  destruct (5 <=? likes) eqn:E.
  - apply Z.leb_le in E. apply Qlt_bool_iff.
    apply Q.min_glb_lt; [|vm_compute; reflexivity].
    eapply Qlt_le_trans; [|apply (roundDouble_tenths 5 likes E)].
    vm_compute. reflexivity.
  - apply Z.leb_gt in E. apply Qlt_bool_false_iff.
    eapply Qle_trans; [apply Q.le_min_l|].
    apply (roundDouble_tenths likes 4). lia.
Qed.

Lemma sentimentOfCount_eq (likes : Z) (u : Q) :
  (let r := popularityRatio likes in
   if Qlt_bool (literal (7 # 10)) r then
     if Qlt_bool u (literal (8 # 10)) then Positive
     else if Qlt_bool u (literal (95 # 100)) then Neutral else Negative
   else if Qlt_bool (literal (4 # 10)) r then
     if Qlt_bool u (literal (5 # 10)) then Positive
     else if Qlt_bool u (literal (85 # 100)) then Neutral else Negative
   else
     if Qlt_bool u (literal (2 # 10)) then Positive
     else if Qlt_bool u (literal (6 # 10)) then Neutral else Negative)
  = sentimentOfCount likes u.
Proof.
  cbv zeta. rewrite popularityRatio_high, popularityRatio_middle. reflexivity.
Qed.

(** X6 -- On an integral count of likes the bands of
    [determineReviewSentiment] are: 8 likes or more, with the thresholds
    0.8 and 0.95; 5 to 7 likes, with 0.5 and 0.85; 4 likes or fewer,
    with 0.2 and 0.6, each threshold being the double of its decimal:
    rounding the quotient [likes / 10] and the decimals 0.7 and 0.4 to
    doubles moves no count across a band.  The sentiment is that
    function of the count and of the one draw the call makes. *)
Theorem determineReviewSentiment_by_count (F : Faker) (likes : Z) (s : rng F) :
  run F (determineReviewSentiment likes) s
  = (Ok (sentimentOfCount likes (fst (draw F (NumberFloat 0 1) s))),
     snd (draw F (NumberFloat 0 1) s)).
Proof.
  rewrite run_determineReviewSentiment. f_equal. f_equal.
  apply sentimentOfCount_eq.
Qed.

Lemma sentimentOfCount_monotone (likes likes' : Z) (u : Q) :
  likes <= likes' ->
  sentimentRank (sentimentOfCount likes u)
  <= sentimentRank (sentimentOfCount likes' u).
Proof.
  intros Hle. unfold sentimentOfCount.
  assert (T1 : (literal (2 # 10) <= literal (5 # 10))%Q) by (vm_compute; discriminate).
  assert (T2 : (literal (5 # 10) <= literal (8 # 10))%Q) by (vm_compute; discriminate).
  assert (T3 : (literal (6 # 10) <= literal (85 # 100))%Q) by (vm_compute; discriminate).
  assert (T4 : (literal (85 # 100) <= literal (95 # 100))%Q) by (vm_compute; discriminate).
  set (t2 := literal (2 # 10)) in *. set (t5 := literal (5 # 10)) in *.
  set (t8 := literal (8 # 10)) in *. set (t6 := literal (6 # 10)) in *.
  set (t85 := literal (85 # 100)) in *. set (t95 := literal (95 # 100)) in *.
  destruct (8 <=? likes) eqn:A8; destruct (8 <=? likes') eqn:B8;
  destruct (5 <=? likes) eqn:A5; destruct (5 <=? likes') eqn:B5;
  try (apply Z.leb_le in A8); try (apply Z.leb_gt in A8);
  try (apply Z.leb_le in B8); try (apply Z.leb_gt in B8);
  try (apply Z.leb_le in A5); try (apply Z.leb_gt in A5);
  try (apply Z.leb_le in B5); try (apply Z.leb_gt in B5);
  try lia;
  destruct (Qlt_bool u t8) eqn:U1;
  destruct (Qlt_bool u t95) eqn:U2;
  destruct (Qlt_bool u t5) eqn:U3;
  destruct (Qlt_bool u t85) eqn:U4;
  destruct (Qlt_bool u t2) eqn:U5;
  destruct (Qlt_bool u t6) eqn:U6;
  cbn [sentimentRank]; try lia; exfalso;
  repeat match goal with
         | H : Qlt_bool _ _ = true |- _ => apply Qlt_bool_iff in H
         | H : Qlt_bool _ _ = false |- _ => apply Qlt_bool_false_iff in H
         end; lra.
Qed.

(** X7 -- For one and the same draw, a record with more likes never gets
    a less favourable sentiment: the sentiment that
    [determineReviewSentiment] returns is monotone in the likes, from
    negative through neutral to positive. *)
Theorem determineReviewSentiment_monotone (F : Faker) (likes likes' : Z)
  (s : rng F) :
  likes <= likes' ->
  match fst (run F (determineReviewSentiment likes) s),
        fst (run F (determineReviewSentiment likes') s) with
  | Ok a, Ok b => sentimentRank a <= sentimentRank b
  | _, _ => False
  end.
Proof.
  intros Hle. rewrite !run_determineReviewSentiment. cbn [fst].
  rewrite !sentimentOfCount_eq. now apply sentimentOfCount_monotone.
Qed.

Lemma determineReviewSentiment_monotone_witness :
  match fst (run refFaker (determineReviewSentiment 2) 1),
        fst (run refFaker (determineReviewSentiment 9) 1) with
  | Ok a, Ok b => sentimentRank a <= sentimentRank b
  | _, _ => False
  end.
Proof.
  apply (determineReviewSentiment_monotone refFaker 2 9 1). lia.
Defined.

(** ** The handler on every body *)

(** X8 -- The status of the answer of the handler, under the contract
    of the random source and of the date formatter: 500 exactly when
    the request carries no body, 400 exactly when it carries one that
    the schema rejects, and in both cases without a call to the random
    source, whose state is left as it was; a body that the schema
    accepts is answered by the page of its number, in full. *)
Theorem apiBooks_status (F : Faker) (P : Platform) (now : Z)
  (body : option RequestBody) (s : rng F) :
  FakerOk F -> PlatformOk P ->
  (fst (postApiBooks F P now body s) = Status500 <-> body = None)
  /\ (fst (postApiBooks F P now body s) = Status400
      <-> exists b, body = Some b /\ validate b = None)
  /\ (fst (postApiBooks F P now body s) = Status500
      \/ fst (postApiBooks F P now body s) = Status400 ->
      snd (postApiBooks F P now body s) = s)
  /\ (forall b v, body = Some b -> validate b = Some v ->
        exists books meta,
          fst (postApiBooks F P now body s)
          = Json books (page v) (page v <? 50) meta
          /\ List.length books = Z.to_nat (pageCount (page v))).
Proof.
  intros HF HP. destruct body as [b|]; cbn [postApiBooks].
  - destruct (validate b) as [v|] eqn:Hv.
    + destruct (apiBooks_page F P now b v s HF HP Hv)
        as (books & meta & Hr & Hi).
      rewrite Hr. split; [split; discriminate|].
      split; [split; [discriminate|intros (b' & [= <-] & Hn); congruence]|].
      split; [intros [H|H]; discriminate|].
      intros b' v' [= <-] Hv'. assert (v' = v) by congruence. subst v'.
      exists books, meta. split; [reflexivity|].
      rewrite <- (length_map index books), Hi, length_map, length_seq.
      reflexivity.
    + unfold apiBooks. rewrite Hv. cbn [fst snd].
      split; [split; discriminate|].
      split; [split; [intros _; exists b; now split|reflexivity]|].
      split; [reflexivity|].
      intros b' v' [= <-] Hv'. congruence.
  - cbn [fst snd]. split; [split; reflexivity|].
    split; [split; [discriminate|intros (b & Hb & _); discriminate]|].
    split; [reflexivity|]. intros b v Hb. discriminate.
Qed.

Lemma apiBooks_status_witness :
  fst (postApiBooks refFaker refPlatform 0 None 7) = Status500
  /\ fst (postApiBooks refFaker refPlatform 0
            (Some (bodyOf 3 (Some (js "fr-FR")) 42 5 1)) 7) = Status400
  /\ snd (postApiBooks refFaker refPlatform 0
            (Some (bodyOf 3 (Some (js "fr-FR")) 42 5 1)) 7) = 7.
Proof.
  destruct (apiBooks_status refFaker refPlatform 0 None 7
              refFaker_ok refPlatform_ok) as (H0 & _).
  destruct (apiBooks_status refFaker refPlatform 0
              (Some (bodyOf 3 (Some (js "fr-FR")) 42 5 1)) 7
              refFaker_ok refPlatform_ok) as (_ & H1 & H2 & _).
  assert (H400 : fst (postApiBooks refFaker refPlatform 0
            (Some (bodyOf 3 (Some (js "fr-FR")) 42 5 1)) 7) = Status400).
  { apply H1. eexists. split; [reflexivity|vm_compute; reflexivity]. }
  split; [apply H0; reflexivity|]. split; [exact H400|].
  apply H2. right. exact H400.
Defined.

Lemma validate_ranges (b : RequestBody) (v : BookRequest) :
  validate b = Some v ->
  (0 <= req_avgLikes v)%Q /\ (req_avgLikes v <= 10)%Q
  /\ (0 <= req_avgReviews v)%Q /\ (req_avgReviews v <= 20)%Q.
Proof.
  unfold validate.
  destruct (body_page b) as [p|]; [|discriminate].
  destruct (body_seed b) as [sd|]; [|discriminate].
  destruct (body_avgLikes b) as [al|]; [|discriminate].
  destruct (body_avgReviews b) as [ar|]; [|discriminate].
  match goal with
  | |- (if ?c then _ else _) = _ -> _ => destruct c eqn:Ec; [|discriminate]
  end.
  intros [= <-]. cbn [req_avgLikes req_avgReviews].
  repeat (apply andb_true_iff in Ec; destruct Ec as [Ec ?]).
  unfold inRange in *.
  repeat match goal with
         | H : _ && _ = true |- _ => apply andb_true_iff in H; destruct H
         | H : Qle_bool _ _ = true |- _ => apply Qle_bool_iff in H
         end.
  auto.
Qed.

Lemma countFor_bounded (target : Q) (bound r : Z) :
  (0 <= target)%Q -> (target <= inject_Z bound)%Q ->
  countFor target r -> 0 <= r <= bound.
Proof.
  intros H0 Hb [[Hlo Hhi] Hint].
  assert (Hf0 : 0 <= Qfloor target).
  { change 0 with (Qfloor 0). now apply Qfloor_resp_le. }
  assert (Hfb : Qfloor target <= bound).
  { rewrite <- (Qfloor_Z bound). now apply Qfloor_resp_le. }
  split; [lia|].
  destruct (Z.eq_dec (Qfloor target) bound) as [Heq|Hne]; [|lia].
  rewrite Hint; [lia|].
  pose proof (Qfloor_le target) as Hle. rewrite Heq in Hle |- *. lra.
Qed.

Lemma Forall2_Forall_r {A B : Type} (Q : A -> B -> Prop) (R : B -> Prop)
  (l : list A) (l' : list B) :
  Forall2 Q l l' -> (forall a b, Q a b -> R b) -> Forall R l'.
Proof.
  intros H HQ. induction H; constructor; eauto.
Qed.

(** X9 -- Every record of every page that the handler returns has
    between 0 and 10 likes, at most 20 reviews, each with a rating
    between 1 and 5, and one to three authors: the bounds of the schema
    on the two averages bound the records. *)
Theorem apiBooks_records_bounded (F : Faker) (P : Platform) (now : Z)
  (b : RequestBody) (s : rng F) :
  FakerOk F -> PlatformOk P ->
  Forall (fun bk => 0 <= likes bk <= 10
                    /\ (List.length (reviews bk) <= 20)%nat
                    /\ Forall (fun r => 1 <= rating r <= 5) (reviews bk)
                    /\ (1 <= List.length (authors bk) <= 3)%nat)
         (booksOf (fst (apiBooks F P now b s))).
Proof.
  intros HF HP. unfold apiBooks.
  destruct (validate b) as [v|] eqn:Hv; [|constructor].
  destruct (validate_inv b v Hv) as [Hl _].
  destruct (validate_ranges b v Hv) as (Hl0 & Hl1 & Hr0 & Hr1).
  pose proof (sat_forFrom F
                (fun i => generateBook P (generatorOf v)
                                       (numAdd (startIndex (page v)) i))
                _ noThrow (Z.to_nat (pageCount (page v))) 0
                (fun j => generateBook_fields F P (generatorOf v) _ noThrow HF
                            (or_intror (conj Hl HP))) s) as H.
  unfold generatePage.
  destruct (run F _ s) as [[books|e] s'] eqn:Er; cbn [fst] in H |- *;
    [|constructor].
  cbn [booksOf].
  eapply Forall2_Forall_r; [exact H|].
  intros j bk (_ & _ & (n & Hn & Hna) & _ & Hlk & (r & Hr & Hrl) & Hrev & _).
  cbn [generatorOf avgLikes avgReviews] in Hlk, Hr.
  pose proof (countFor_bounded _ 10 _ Hl0 Hl1 Hlk).
  pose proof (countFor_bounded _ 20 _ Hr0 Hr1 Hr).
  split; [assumption|]. split; [lia|]. split; [|lia].
  eapply Forall_impl; [|exact Hrev]. intros rv [Hrv _]. exact Hrv.
Qed.

Lemma apiBooks_records_bounded_witness :
  Forall (fun bk => 0 <= likes bk <= 10
                    /\ (List.length (reviews bk) <= 20)%nat
                    /\ Forall (fun r => 1 <= rating r <= 5) (reviews bk)
                    /\ (1 <= List.length (authors bk) <= 3)%nat)
         (booksOf (fst (apiBooks refFaker refPlatform 0
                          (bodyOf 1 None 42 5 (47 # 10)) 0))).
Proof.
  exact (apiBooks_records_bounded refFaker refPlatform 0
           (bodyOf 1 None 42 5 (47 # 10)) 0 refFaker_ok refPlatform_ok).
Defined.

(** ** Pages and indices *)

Lemma roundInteger_monotone (a b : Z) :
  a <= b -> roundInteger a <= roundInteger b.
Proof.
  intros H. unfold roundInteger. apply Qfloor_resp_le, roundDouble_monotone.
  now rewrite <- Zle_Qle.
Qed.

(** Beyond [maxExactPage] every index of a page is above the indices of
    the pages up to it. *)
Lemma pageIndices_beyond (q i : Z) :
  maxExactPage < q -> In i (pageIndices q) -> 9007199254740991 <= i.
Proof.
  unfold pageIndices, maxExactPage. intros Hq Hi.
  apply in_map_iff in Hi. destruct Hi as (k & <- & _).
  unfold startIndex. destruct (q =? 0) eqn:E; [apply Z.eqb_eq in E; lia|].
  assert (H1 : 900719925474097 <= numSub q 1).
  { rewrite <- (roundInteger_exact 900719925474097) by (vm_compute; discriminate).
    apply roundInteger_monotone. lia. }
  assert (H2 : 9007199254740970 <= numMul (numSub q 1) 10).
  { rewrite <- (roundInteger_exact 9007199254740970) by (vm_compute; discriminate).
    apply roundInteger_monotone. lia. }
  assert (H3 : 9007199254740990 <= numAdd 20 (numMul (numSub q 1) 10)).
  { rewrite <- (roundInteger_exact 9007199254740990) by (vm_compute; discriminate).
    apply roundInteger_monotone. lia. }
  assert (H4 : 9007199254740991
               <= numAdd (numAdd 20 (numMul (numSub q 1) 10)) 1).
  { rewrite <- (roundInteger_exact 9007199254740991) by (vm_compute; discriminate).
    apply roundInteger_monotone. lia. }
  rewrite <- (roundInteger_exact 9007199254740991) by (vm_compute; discriminate).
  apply roundInteger_monotone. lia.
Qed.

Lemma pageIndices_exact (q i : Z) :
  0 <= q <= maxExactPage ->
  In i (pageIndices q) <-> firstIndexOf q <= i < firstIndexOf q + pageCount q.
Proof.
  intros Hq. unfold pageIndices. rewrite page_indices_exact by exact Hq.
  assert (Hc : 0 <= pageCount q) by (unfold pageCount; destruct (q =? 0); lia).
  rewrite in_map_iff. split.
  - intros (k & <- & Hk). apply in_seq in Hk. lia.
  - intros H. exists (Z.to_nat (i - firstIndexOf q)). split; [lia|].
    apply in_seq. lia.
Qed.

(** X10 -- Every index from 1 up to the last index of the page
    [maxExactPage] belongs to exactly one page: up to there the pages
    of the handler partition the indices, and no later page, whose
    indices are rounded, returns one of them. *)
Theorem index_in_one_page (i : Z) :
  1 <= i <= 20 + 10 * maxExactPage ->
  exists p,
    0 <= p <= maxExactPage
    /\ In i (pageIndices p)
    /\ forall q, 0 <= q -> In i (pageIndices q) -> q = p.
Proof.
  intros Hi. unfold maxExactPage in Hi.
  assert (Huniq : forall p, 0 <= p <= maxExactPage ->
            firstIndexOf p <= i < firstIndexOf p + pageCount p ->
            forall q, 0 <= q -> In i (pageIndices q) -> q = p).
  { intros p Hp Hin q Hq Hiq.
    destruct (Z_le_gt_dec q maxExactPage) as [Hle|Hgt].
    - apply pageIndices_exact in Hiq; [|lia].
      unfold firstIndexOf, pageCount, maxExactPage in *.
      destruct (Z.eqb_spec p 0); destruct (Z.eqb_spec q 0); lia.
    - apply pageIndices_beyond in Hiq; unfold maxExactPage in *; lia. }
  destruct (Z_le_gt_dec i 20) as [Hs|Hb].
  - exists 0.
    assert (H0 : firstIndexOf 0 <= i < firstIndexOf 0 + pageCount 0)
      by (cbn; lia).
    split; [unfold maxExactPage; lia|].
    split; [apply pageIndices_exact; [unfold maxExactPage; lia|exact H0]|].
    apply Huniq; [unfold maxExactPage; lia|exact H0].
  - pose proof (Z.div_mod (i - 21) 10 ltac:(lia)) as Hd.
    pose proof (Z.mod_pos_bound (i - 21) 10 ltac:(lia)) as Hm.
    assert (Hq0 : 0 <= (i - 21) / 10) by (apply Z.div_pos; lia).
    set (p := (i - 21) / 10 + 1).
    assert (Hp : 0 <= p <= maxExactPage) by (unfold maxExactPage, p; lia).
    assert (Hin : firstIndexOf p <= i < firstIndexOf p + pageCount p).
    { unfold firstIndexOf, pageCount.
      destruct (p =? 0) eqn:E; [apply Z.eqb_eq in E; unfold p in E; lia|].
      unfold p. lia. }
    exists p. split; [exact Hp|].
    split; [apply pageIndices_exact; assumption|]. now apply Huniq.
Qed.

Lemma index_in_one_page_witness :
  exists p, 0 <= p <= maxExactPage /\ In 137 (pageIndices p).
Proof.
  destruct (index_in_one_page 137 ltac:(vm_compute; split; discriminate))
    as (p & H0 & H1 & _).
  exists p. split; assumption.
Defined.

(** ** The schema *)

Lemma Qeq_bool_refl (q : Q) : Qeq_bool q q = true.
Proof. apply Qeq_bool_iff. reflexivity. Qed.

(** X11 -- A validated request can be sent back: the body that carries
    the page, locale, seed and averages of a validated request passes
    the schema and validates to the same request, so the parameters that
    a response echoes are accepted again. *)
Theorem validate_echo (b : RequestBody) (v : BookRequest) :
  validate b = Some v -> validate (bodyOfRequest v) = Some v.
Proof.
  unfold validate at 1.
  destruct (body_page b) as [p|]; [|discriminate].
  destruct (body_seed b) as [sd|]; [|discriminate].
  destruct (body_avgLikes b) as [al|]; [|discriminate].
  destruct (body_avgReviews b) as [ar|]; [|discriminate].
  match goal with
  | |- (if ?c then _ else _) = _ -> _ => destruct c eqn:Ec; [|discriminate]
  end.
  intros [= <-].
  repeat (apply andb_true_iff in Ec; destruct Ec as [Ec ?]).
  unfold isInteger in *.
  repeat match goal with
         | H : _ && _ = true |- _ => apply andb_true_iff in H; destruct H
         end.
  unfold validate, bodyOfRequest. cbn [body_page body_locale body_seed
    body_avgLikes body_avgReviews page req_locale req_seed req_avgLikes
    req_avgReviews].
  unfold isInteger. rewrite !Qfloor_Z, !Qeq_bool_refl.
  assert (Hpage : Qle_bool 0 (inject_Z (Qfloor p)) = true).
  { apply Qle_bool_iff. rewrite <- (Zle_Qle 0).
    change 0 with (Qfloor 0). apply Qfloor_resp_le.
    now apply Qle_bool_iff. }
  rewrite Hpage.
  repeat match goal with
         | H : ?c = true |- context [?c] => rewrite H
         end.
  reflexivity.
Qed.

Lemma validate_echo_witness :
  validate (bodyOfRequest
              {| page := 3; req_locale := js "en-US"; req_seed := 42;
                 req_avgLikes := 5; req_avgReviews := 47 # 10 |})
  = Some {| page := 3; req_locale := js "en-US"; req_seed := 42;
            req_avgLikes := 5; req_avgReviews := 47 # 10 |}.
Proof.
  apply (validate_echo (bodyOf 3 None 42 5 (47 # 10))).
  vm_compute. reflexivity.
Defined.

(** ** The labels of the cover *)

Lemma truncatedLabel_bounds (limit : nat) (s : jsstring) :
  (List.length (truncatedLabel limit s) <= limit + 3)%nat
  /\ firstn limit (truncatedLabel limit s) = firstn limit s.
Proof.
  unfold truncatedLabel.
  destruct (Nat.leb_spec (List.length s) limit) as [Hle|Hgt].
  - split; [lia|reflexivity].
  - split.
    + rewrite length_app, length_firstn. change (List.length (js "...")) with 3%nat.
      lia.
    + rewrite firstn_app, length_firstn.
      replace (limit - Nat.min limit (List.length s))%nat with 0%nat by lia.
      cbn [firstn]. rewrite app_nil_r. rewrite firstn_firstn.
      f_equal. lia.
Qed.

(** X12 -- In every record that [generateBook] returns, the title label
    of the cover has at most 28 characters and the author label at most
    23, and each keeps the first 25, respectively 20, characters of the
    title and of the first author. *)
Theorem cover_labels_bounded (F : Faker) (P : Platform)
  (g : BookDataGenerator) (i : Z) (s : rng F) (b : Book) :
  fst (run F (generateBook P g i) s) = Ok b ->
  (List.length (cover_title (coverImage b)) <= 28)%nat
  /\ firstn 25 (cover_title (coverImage b)) = firstn 25 (title b)
  /\ exists a, nth_error (authors b) 0 = Some a
       /\ (List.length (cover_author (coverImage b)) <= 23)%nat
       /\ firstn 20 (cover_author (coverImage b)) = firstn 20 a.
Proof.
  intros Hb.
  pose proof (sat_generateBook F P g i anyThrow (fun _ => True)
                (sat_trivial F _) (sat_trivial F _) (sat_trivial F _)
                (fun likes => sat_trivial F _)
                (fun _ => or_introl I) s) as H.
  rewrite Hb in H. destruct H as (_ & _ & a & Ha & Hc).
  rewrite Hc. cbn [cover_title cover_author coverDescriptor].
  destruct (truncatedLabel_bounds 25 (title b)) as [H1 H2].
  destruct (truncatedLabel_bounds 20 a) as [H3 H4].
  split; [exact H1|]. split; [exact H2|]. exists a. auto.
Qed.

Lemma cover_labels_bounded_witness :
  exists b,
    fst (run refFaker (generateBook refPlatform demo 1) 0) = Ok b
    /\ (List.length (cover_title (coverImage b)) <= 28)%nat.
Proof.
  eexists. split; [vm_compute; reflexivity|].
  apply (cover_labels_bounded refFaker refPlatform demo 1 0 _).
  vm_compute. reflexivity.
Defined.

(* ================================================================== *)
(** * Properties of the client *)

(** ** Expanded rows *)

Lemma set_has_delete (s : NumberSet) (x j : Z) :
  set_has (set_delete s x) j = set_has s j && negb (j =? x).
Proof.
  unfold set_has, set_delete. induction s as [|y s IH]; cbn [filter existsb].
  - reflexivity.
  - destruct (negb (y =? x)) eqn:Ef; cbn [existsb]; rewrite IH;
      destruct (Z.eqb_spec j y) as [Hjy|Hjy]; cbn [orb]; try reflexivity.
    + subst y. now rewrite Ef.
    + subst y. rewrite Ef. now rewrite andb_false_r.
Qed.

Lemma set_has_add (s : NumberSet) (x j : Z) :
  set_has (set_add s x) j = set_has s j || (j =? x).
Proof.
  unfold set_add. destruct (set_has s x) eqn:E.
  - destruct (Z.eqb_spec j x) as [Hjx|Hjx].
    + subst j. rewrite E. reflexivity.
    + now rewrite orb_false_r.
  - unfold set_has. rewrite existsb_app. cbn [existsb].
    now rewrite orb_false_r.
Qed.

Lemma set_has_In (s : NumberSet) (x : Z) : set_has s x = true <-> In x s.
Proof.
  unfold set_has. rewrite existsb_exists. split.
  - intros (y & Hy & E). apply Z.eqb_eq in E. now subst.
  - intros H. exists x. split; [exact H|apply Z.eqb_refl].
Qed.

Lemma handleExpandRow_has (s : NumberSet) (i j : Z) :
  set_has (handleExpandRow s i) j
  = if j =? i then negb (set_has s i) else set_has s j.
Proof.
  unfold handleExpandRow. cbv zeta. destruct (set_has s i) eqn:E.
  - rewrite set_has_delete. destruct (Z.eqb_spec j i) as [Hji|Hji]; cbn.
    + now rewrite andb_false_r.
    + now rewrite andb_true_r.
  - rewrite set_has_add. destruct (Z.eqb_spec j i) as [Hji|Hji]; cbn.
    + now rewrite orb_true_r.
    + now rewrite orb_false_r.
Qed.

(** X13 -- [handleExpandRow] toggles the row it is given and no other:
    the row is expanded afterwards exactly when it was not before, every
    other row is as before, toggling a row twice gives back the rows
    that were expanded, and the set never holds a row twice. *)
Theorem handleExpandRow_toggle (expandedRows : NumberSet) (index : Z) :
  (forall j, set_has (handleExpandRow expandedRows index) j
             = if j =? index then negb (set_has expandedRows index)
               else set_has expandedRows j)
  /\ (forall j, set_has (handleExpandRow (handleExpandRow expandedRows index)
                                         index) j
                = set_has expandedRows j)
  /\ (NoDup expandedRows -> NoDup (handleExpandRow expandedRows index)).
Proof.
  split; [intros j; apply handleExpandRow_has|]. split.
  - intros j. rewrite !handleExpandRow_has, Z.eqb_refl.
    destruct (Z.eqb_spec j index) as [Hji|Hji]; [|reflexivity].
    subst j. now rewrite negb_involutive.
  - intros Hnd. unfold handleExpandRow. cbv zeta.
    destruct (set_has expandedRows index) eqn:E.
    + unfold set_delete. now apply NoDup_filter.
    + unfold set_add. rewrite E.
      apply NoDup_app; [exact Hnd|repeat constructor; intros []|].
      intros x Hx [<-|[]].
      apply set_has_In in Hx. congruence.
Qed.

Lemma handleExpandRow_toggle_witness :
  NoDup (handleExpandRow [3; 7] 7)
  /\ set_has (handleExpandRow [3; 7] 7) 7 = false.
Proof.
  destruct (handleExpandRow_toggle [3; 7] 7) as (H1 & _ & H3).
  split.
  - apply H3. repeat constructor; cbn; intuition lia.
  - rewrite H1. reflexivity.
Defined.

(** ** The fields of the CSV export *)

Lemma doubleQuotes_injective (v w : jsstring) :
  doubleQuotes v = doubleQuotes w -> v = w.
Proof.
  revert w. induction v as [|c v IH]; intros [|d w]; cbn [doubleQuotes flat_map].
  - reflexivity.
  - destruct (d =? 34); discriminate.
  - destruct (c =? 34); discriminate.
  - destruct (Z.eqb_spec c 34) as [Hc|Hc]; destruct (Z.eqb_spec d 34) as [Hd|Hd];
      cbn [app]; intros H.
    + subst c d. injection H as H. f_equal. now apply IH.
    + injection H as H1 H2. congruence.
    + injection H as H1 H2. congruence.
    + injection H as H1 H2. subst d. f_equal. now apply IH.
Qed.

Lemma includes_In (v : jsstring) (c : Z) : includes v c = true <-> In c v.
Proof. apply set_has_In. Qed.

(** X14 -- The rendering of a string value in a row of the CSV export
    loses nothing: two different values never render to the same field.
    A value without comma, double quote or line feed is rendered as it
    is; any other is enclosed in double quotes, with its own double
    quotes doubled. *)
Theorem csvField_injective (v w : jsstring) :
  (csvField v = csvField w -> v = w)
  /\ (includes v 44 || includes v 34 || includes v 10 = false ->
      csvField v = v)
  /\ (includes v 44 || includes v 34 || includes v 10 = true ->
      csvField v = 34 :: doubleQuotes v ++ [34]).
Proof.
  assert (Hq : forall a b,
             includes b 44 || includes b 34 || includes b 10 = false ->
             34 :: doubleQuotes a ++ [34] = b -> False).
  { intros a b Hb Heq.
    apply orb_false_iff in Hb. destruct Hb as [Hb _].
    apply orb_false_iff in Hb. destruct Hb as [_ Hb].
    assert (Hin : includes b 34 = true).
    { apply includes_In. rewrite <- Heq. now left. }
    congruence. }
  split; [|split].
  - unfold csvField.
    destruct (includes v 44 || includes v 34 || includes v 10) eqn:Ev;
      destruct (includes w 44 || includes w 34 || includes w 10) eqn:Ew;
      cbn [app]; intros H.
    + injection H as H. apply app_inv_tail in H.
      now apply doubleQuotes_injective.
    + exfalso. exact (Hq v w Ew H).
    + exfalso. symmetry in H. exact (Hq w v Ev H).
    + exact H.
  - intros H. unfold csvField. now rewrite H.
  - intros H. unfold csvField. now rewrite H.
Qed.

Lemma csvField_injective_witness :
  csvField (js "Doe, Jane") = 34 :: doubleQuotes (js "Doe, Jane") ++ [34].
Proof.
  apply (proj2 (proj2 (csvField_injective (js "Doe, Jane") []))).
  vm_compute. reflexivity.
Defined.

(** ** The requests of the client *)

Lemma inRange_true (lo hi q : Q) :
  (lo <= q)%Q -> (q <= hi)%Q -> inRange lo hi q = true.
Proof.
  intros H1 H2. unfold inRange. apply andb_true_intro.
  split; now apply Qle_bool_iff.
Qed.

Lemma isInteger_inject (z : Z) :
  Z.abs z <= 9007199254740991 -> isInteger (inject_Z z) = true.
Proof.
  intros H. unfold isInteger. rewrite Qfloor_Z, Qeq_bool_refl.
  now apply Z.leb_le.
Qed.

(** The request of the client passes the schema. *)
Lemma validate_bodyOf (g : BookDataGenerator) (n : Z) :
  validParameters g -> 0 <= n <= 9007199254740991 ->
  validate (bodyOf n (Some (locale g)) (baseSeed g) (avgLikes g) (avgReviews g))
  = Some {| page := n; req_locale := locale g; req_seed := baseSeed g;
            req_avgLikes := avgLikes g; req_avgReviews := avgReviews g |}.
Proof.
  intros (Hl & Hs & Hl0 & Hl1 & Hr0 & Hr1) Hn.
  unfold validate, bodyOf. cbn [body_page body_locale body_seed
    body_avgLikes body_avgReviews].
  rewrite !isInteger_inject by lia.
  rewrite !inRange_true by assumption.
  assert (H0 : Qle_bool 0 (inject_Z n) = true).
  { apply Qle_bool_iff. rewrite <- (Zle_Qle 0). lia. }
  assert (He : existsb (jseqb (locale g)) supportedLocales = true).
  { apply existsb_exists. exists (locale g). split; [exact Hl|apply jseqb_refl]. }
  rewrite H0, He, !Qfloor_Z. reflexivity.
Qed.

(** ** Requests do not interfere *)

Lemma run_generateBook_any_state (F : Faker) (P : Platform)
  (g : BookDataGenerator) (i : Z) (s s' : rng F) :
  run F (generateBook P g i) s = run F (generateBook P g i) s'.
Proof. unfold generateBook, setSeedForIndex. apply run_after_reseed. Qed.

Lemma run_generatePage_any_state (F : Faker) (P : Platform) (v : BookRequest)
  (s s' : rng F) :
  run F (generatePage P v) s = run F (generatePage P v) s'.
Proof.
  unfold generatePage, pageCount.
  destruct (page v =? 0);
    [change (Z.to_nat 20) with 20%nat|change (Z.to_nat 10) with 10%nat];
    cbn [forFrom]; rewrite !(run_bind F (generateBook _ _ _));
    now rewrite (run_generateBook_any_state F P _ _ s s').
Qed.

(** X16 -- The answer of the handler to a body, and the state in which
    it leaves the random source after a page, do not depend on the state
    in which the request finds the random source: the requests that were
    served before, for any parameters, leave no trace in a page. *)
Theorem apiBooks_any_state (F : Faker) (P : Platform) (now : Z)
  (b : RequestBody) (s s' : rng F) :
  fst (apiBooks F P now b s) = fst (apiBooks F P now b s')
  /\ (validate b <> None ->
      snd (apiBooks F P now b s) = snd (apiBooks F P now b s')).
Proof.
  unfold apiBooks. destruct (validate b) as [v|].
  - rewrite (run_generatePage_any_state F P v s s').
    destruct (run F (generatePage P v) s') as [[books|e] s1]; split; reflexivity.
  - split; [reflexivity|]. intros H. congruence.
Qed.

Lemma apiBooks_any_state_witness :
  snd (apiBooks refFaker refPlatform 0 (bodyOf 1 None 42 5 (47 # 10)) 0)
  = snd (apiBooks refFaker refPlatform 0 (bodyOf 1 None 42 5 (47 # 10)) 99).
Proof.
  apply (proj2 (apiBooks_any_state refFaker refPlatform 0
                  (bodyOf 1 None 42 5 (47 # 10)) 0 99)).
  vm_compute. discriminate.
Defined.

(** ** The parameters of the form *)

Lemma roundDouble_between (lo hi x : Q) (a b : Q) :
  (lo <= x)%Q -> (x <= hi)%Q ->
  (a <= roundDouble lo)%Q -> (roundDouble hi <= b)%Q ->
  (a <= roundDouble x)%Q /\ (roundDouble x <= b)%Q.
Proof.
  intros H1 H2 Ha Hb. split.
  - eapply Qle_trans; [exact Ha|]. now apply roundDouble_monotone.
  - eapply Qle_trans; [|exact Hb]. now apply roundDouble_monotone.
Qed.

Lemma randomTenths_range (u : Q) (n : Z) :
  (0 <= u)%Q -> (u <= belowOne)%Q -> 1 <= n <= 100 ->
  (roundDouble (inject_Z n) == inject_Z n)%Q ->
  (roundDouble (inject_Z n / 10) <= inject_Z n / 10)%Q ->
  (0 <= randomTenths u n)%Q /\ (randomTenths u n <= inject_Z n / 10)%Q.
Proof.
  intros H0 H1 Hn Hrn Hrt. unfold randomTenths.
  assert (Hb : (belowOne <= 1)%Q) by (vm_compute; discriminate).
  assert (Hnq : (1 <= inject_Z n)%Q).
  { change 1%Q with (inject_Z 1). rewrite <- Zle_Qle. lia. }
  assert (Hx : (0 <= roundDouble (u * inject_Z n))%Q
               /\ (roundDouble (u * inject_Z n) <= inject_Z n)%Q).
  { apply (roundDouble_between 0 (inject_Z n)).
    - nra.
    - nra.
    - vm_compute. discriminate.
    - rewrite Hrn. apply Qle_refl. }
  destruct Hx as [Hx0 Hx1].
  set (x := roundDouble (u * inject_Z n)) in *.
  assert (Hm : 0 <= mathRound x <= n).
  { unfold mathRound. split.
    - change 0 with (Qfloor 0). apply Qfloor_resp_le. lra.
    - assert (Hlt : (x + (1 # 2) < inject_Z (n + 1))%Q).
      { rewrite inject_Z_plus. change (inject_Z 1) with 1%Q. lra. }
      pose proof (Qfloor_le (x + (1 # 2))) as Hfl.
      assert (Hz : (inject_Z (Qfloor (x + (1 # 2))) < inject_Z (n + 1))%Q)
        by lra.
      rewrite <- Zlt_Qlt in Hz. lia. }
  destruct Hm as [Hm0 Hm1]. rewrite Zle_Qle in Hm0, Hm1.
  change (inject_Z 0) with 0%Q in Hm0.
  set (m := inject_Z (mathRound x)) in *.
  apply (roundDouble_between 0 (inject_Z n / 10)).
  - apply Qle_shift_div_l; [reflexivity|]. lra.
  - apply Qmult_le_compat_r; [exact Hm1|discriminate].
  - vm_compute. discriminate.
  - exact Hrt.
Qed.

Lemma generateRandomSeed_range (u : Q) :
  (0 <= u)%Q -> (u <= belowOne)%Q -> 0 <= generateRandomSeed u <= 99999999.
Proof.
  intros H0 H1. unfold generateRandomSeed.
  assert (Hb : (0 <= belowOne)%Q) by (vm_compute; discriminate).
  destruct (roundDouble_between 0 (belowOne * 100000000) (u * 100000000)
              0 (roundDouble (belowOne * 100000000)))
    as [Hlo Hhi].
  - nra.
  - nra.
  - vm_compute. discriminate.
  - apply Qle_refl.
  - split.
    + change 0 with (Qfloor 0). now apply Qfloor_resp_le.
    + apply Qfloor_resp_le in Hhi.
      assert (Hc : Qfloor (roundDouble (belowOne * 100000000)) = 99999999)
        by (vm_compute; reflexivity).
      lia.
Qed.

(** The product [u * 100000000] is rounded before its floor is taken:
    at [u], the double of 0.6712121, the seed is 67121210, and not the
    floor 67121209 of the exact product. *)
Lemma generateRandomSeed_rounded :
  generateRandomSeed (literal (6712121 # 10000000)) = 67121210
  /\ Qfloor (literal (6712121 # 10000000) * 100000000) = 67121209.
Proof. vm_compute. auto. Qed.

(** X17 -- The parameters with which the form starts, whatever
    [Math.random()] returns below 1, pass the schema of the server: the
    seed is an integer between 0 and 99999999, the average of likes a
    number between 0 and 10 and the average of reviews a number between
    0 and 5, so that the first request of the client validates; and a
    seed of [generateRandomSeed] keeps parameters valid.  The products
    and quotients are those of the doubles. *)
Theorem initialParameters_valid (u1 u2 u3 : Q) :
  (0 <= u1)%Q /\ (u1 <= belowOne)%Q -> (0 <= u2)%Q /\ (u2 <= belowOne)%Q ->
  (0 <= u3)%Q /\ (u3 <= belowOne)%Q ->
  let g := initialParameters u1 u2 u3 in
  validParameters g
  /\ 0 <= baseSeed g <= 99999999
  /\ (avgReviews g <= 5)%Q
  /\ validate (bodyOf 0 (Some (locale g)) (baseSeed g) (avgLikes g)
                      (avgReviews g))
     = Some {| page := 0; req_locale := locale g; req_seed := baseSeed g;
               req_avgLikes := avgLikes g; req_avgReviews := avgReviews g |}
  /\ (forall g', validParameters g' ->
        validParameters (seedOnly g' (generateRandomSeed u1))).
Proof.
  intros [H10 H11] [H20 H21] [H30 H31] g.
  pose proof (generateRandomSeed_range u1 H10 H11) as Hseed.
  destruct (randomTenths_range u2 100 H20 H21 ltac:(lia)
              ltac:(vm_compute; reflexivity) ltac:(vm_compute; discriminate))
    as [HL0 HL1].
  destruct (randomTenths_range u3 50 H30 H31 ltac:(lia)
              ltac:(vm_compute; reflexivity) ltac:(vm_compute; discriminate))
    as [HR0 HR1].
  assert (E10 : (inject_Z 100 / 10 == 10)%Q) by reflexivity.
  assert (E5 : (inject_Z 50 / 10 == 5)%Q) by reflexivity.
  rewrite E10 in HL1. rewrite E5 in HR1.
  assert (Hg : validParameters g).
  { unfold validParameters, g, initialParameters.
    cbn [locale baseSeed avgLikes avgReviews].
    split; [cbn; auto|]. split; [unfold generateRandomSeed in Hseed; lia|].
    split; [exact HL0|]. split; [exact HL1|]. split; [exact HR0|]. lra. }
  split; [exact Hg|]. split; [exact Hseed|]. split; [exact HR1|].
  split; [apply validate_bodyOf; [exact Hg|lia]|].
  intros g' (Hg1 & _ & Hg3). unfold validParameters, seedOnly.
  cbn [locale baseSeed avgLikes avgReviews].
  split; [exact Hg1|]. split; [lia|exact Hg3].
Qed.

Lemma initialParameters_valid_witness :
  validParameters (initialParameters (1 # 3) (49 # 100) (999 # 1000)).
Proof.
  assert (H1 : (0 <= 1 # 3)%Q /\ (1 # 3 <= belowOne)%Q)
    by (split; vm_compute; discriminate).
  assert (H2 : (0 <= 49 # 100)%Q /\ (49 # 100 <= belowOne)%Q)
    by (split; vm_compute; discriminate).
  assert (H3 : (0 <= 999 # 1000)%Q /\ (999 # 1000 <= belowOne)%Q)
    by (split; vm_compute; discriminate).
  exact (proj1 (initialParameters_valid _ _ _ H1 H2 H3)).
Defined.

(** ** Loads that fail *)


